(** * ClickerGame: the simulation core of [src/App.tsx]

    A shallow embedding of the combat/economy core of the idle clicker
    (bulk pricing, encounter factory, [tick], [simulateOffline], manual
    attack, purchases, number formatting) and the properties of its
    specification.

    Number model.  A JavaScript [number] is modelled by an exact rational
    ([Qc], canonical fractions, so that equal numbers are equal terms).
    Quantities that the program only ever uses as whole numbers (levels,
    floors, kill counters, purchase quantities, hero ids) are [Z].  The
    model therefore covers the finite fragment of the arithmetic and reads
    "equal within floating-point tolerance" as equality of exact values.
    The one function whose input has to include the non-finite numbers,
    [formatNumber], takes a [jsnum]; [goldRewardFor64] is the reward on
    binary64 numbers, for the one value the specification gives exactly. *)

From Stdlib Require Import ZArith QArith Qcanon Qround Qpower Lqa Lia.
From Stdlib Require Import Floats.PrimFloat.
From stdpp Require Import base decidable option numbers strings list gmap.

Local Open Scope Z_scope.
Local Open Scope Qc_scope.

(** ** Numbers *)

Module Num.

(** Decimal literals of the source: [dec n d] is [n/d]. *)
Definition dec (n : Z) (d : positive) : Qc := Q2Qc (n # d).

(** Whole numbers used as JavaScript numbers. *)
Definition z2q (z : Z) : Qc := Q2Qc (inject_Z z).

(** [Math.max] and [Math.min] on finite numbers. *)
Definition max (a b : Qc) : Qc := if decide (a ≤ b) then b else a.
Definition min (a b : Qc) : Qc := if decide (a ≤ b) then a else b.

(** [Math.pow(x, n)] for a whole exponent [n].  [Math.pow(x, 0)] is 1 for
  every [x]; [Math.pow(0, n)] for negative [n] is infinite in JavaScript
  and lies outside the model. *)
Definition pow (x : Qc) (n : Z) : Qc := Q2Qc (this x ^ n).

(** [Math.floor] on a finite number. *)
Definition floor (x : Qc) : Z := Qfloor (this x).

End Num.

(** ** Utility helpers *)

(** The numbers [formatNumber] may be given: [isFinite] tells the first
    kind from the others. *)
Inductive jsnum : Type :=
  | Finite (q : Qc)
  | PosInfinity
  | NegInfinity
  | NaN.

(** The text [formatNumber] builds is [x.toFixed(d)] followed by a suffix,
    or the infinity sign; [toFixed] is the language's own and stays
    symbolic. *)
Inductive Text : Type :=
  | InfinitySign
  | ToFixed (x : Qc) (fractionDigits : Z) (suffix : string).

Definition SUFFIXES : list (Qc * string) :=
  [ (Num.pow (Num.z2q 10) 33, "Dc"%string);
    (Num.pow (Num.z2q 10) 30, "No"%string);
    (Num.pow (Num.z2q 10) 27, "Oc"%string);
    (Num.pow (Num.z2q 10) 24, "Sp"%string);
    (Num.pow (Num.z2q 10) 21, "Sx"%string);
    (Num.pow (Num.z2q 10) 18, "Qi"%string);
    (Num.pow (Num.z2q 10) 15, "Qa"%string);
    (Num.pow (Num.z2q 10) 12, "T"%string);
    (Num.pow (Num.z2q 10) 9, "B"%string);
    (Num.pow (Num.z2q 10) 6, "M"%string);
    (Num.pow (Num.z2q 10) 3, "K"%string) ].

Definition abs (q : Qc) : Qc := if decide (0 ≤ q) then q else - q.

(** [formatNumber(n, digits)]; the [for] loop returns at the first suffix
    whose threshold [abs] reaches. *)
Definition formatNumber (n : jsnum) (digits : Z) : Text :=
  match n with
  | Finite q =>
      match List.find (fun vs => bool_decide (fst vs ≤ abs q)) SUFFIXES with
      | Some (v, s) => ToFixed (q / v) digits s
      | None => ToFixed q (if decide (Num.z2q 100 ≤ q) then 0%Z else digits) ""
      end
  | _ => InfinitySign
  end.

(** [clamp(n, min, max)]. *)
Definition clamp (n lo hi : Qc) : Qc := Num.max lo (Num.min hi n).

(** [bulkCost(base, growth, currentLevel, qty)]. *)
Definition bulkCost (base growth : Qc) (currentLevel qty : Z) : Qc :=
  if decide (qty ≤ 0)%Z then 0
  else
    let a := base * Num.pow growth currentLevel in
    if decide (growth = 1) then a * Num.z2q qty
    else a * (Num.pow growth qty - 1) / (growth - 1).

(** The naive per-level summation the specification compares [bulkCost]
    with: the price of level [currentLevel + i] is
    [base * growth ^ (currentLevel + i)], summed for [i] in [[0, qty)]. *)
Fixpoint sumTo (n : nat) (f : nat -> Qc) : Qc :=
  match n with
  | O => 0
  | S k => sumTo k f + f k
  end.

Definition levelPrice (base growth : Qc) (level : Z) : Qc :=
  base * Num.pow growth level.

Definition naiveCost (base growth : Qc) (currentLevel qty : Z) : Qc :=
  sumTo (Z.to_nat qty)
        (fun i => levelPrice base growth (currentLevel + Z.of_nat i)).

(** ** Game constants *)

Module CLICK.
Definition baseDamage : Qc := Num.z2q 1.
Definition baseCost : Qc := Num.z2q 10.
Definition growth : Qc := Num.dec 115 100.
Definition damageGrowth : Qc := Num.dec 125 100.
End CLICK.

Module ENEMY.
Definition baseHp : Qc := Num.z2q 10.
Definition floorGrowth : Qc := Num.dec 16 10.
Definition bossMultiplier : Qc := Num.z2q 12.
Definition perKillGoldPct : Qc := Num.dec 5 100.
Definition bossGoldMultiplier : Qc := Num.z2q 2.
Definition bossTimeSeconds : Qc := Num.z2q 30.
Definition killsPerFloor : Z := 20.
End ENEMY.

Module OFFLINE.
Definition maxSeconds : Qc := Num.z2q (12 * 60 * 60).
End OFFLINE.

Module HeroDef.
Record t : Type := make
  { id : Z; name : string; baseDps : Qc; baseCost : Qc; growth : Qc;
    flavor : string }.
End HeroDef.

Definition HEROES : list HeroDef.t :=
  [ HeroDef.make 1 "Squire" (Num.z2q 1) (Num.z2q 50) (Num.dec 107 100)
      "Swings a rusty sword.";
    HeroDef.make 2 "Archer" (Num.z2q 5) (Num.z2q 250) (Num.dec 108 100)
      "Never misses. Often.";
    HeroDef.make 3 "Mage" (Num.z2q 25) (Num.z2q 1000) (Num.dec 109 100)
      "Practices safe fireballs.";
    HeroDef.make 4 "Knight" (Num.z2q 125) (Num.z2q 5000) (Num.dec 110 100)
      "Shiny armor, shinier DPS.";
    HeroDef.make 5 "Assassin" (Num.z2q 625) (Num.z2q 25000) (Num.dec 111 100)
      "Strikes when wallets are open.";
    HeroDef.make 6 "Paladin" (Num.z2q 3125) (Num.z2q 125000) (Num.dec 112 100)
      "Holy smites per second.";
    HeroDef.make 7 "Warlock" (Num.z2q 15625) (Num.z2q 600000) (Num.dec 113 100)
      "Deals damage, charges rent.";
    HeroDef.make 8 "Ranger" (Num.z2q 78125) (Num.z2q 3000000) (Num.dec 114 100)
      "DPS scales with trees.";
    HeroDef.make 9 "Berserker" (Num.z2q 390625) (Num.z2q 15000000)
      (Num.dec 115 100) "Anger issues, great output.";
    HeroDef.make 10 "Archmage" (Num.z2q 1953125) (Num.z2q 80000000)
      (Num.dec 116 100) "PhD in numbers going up." ].

(** ** Types *)

Module Enemy.
Record t : Type := make
  { maxHp : Qc; hp : Qc; isBoss : bool; bossTimeLeft : option Qc }.

Definition set_hp (e : t) (v : Qc) : t :=
  make (maxHp e) v (isBoss e) (bossTimeLeft e).
Definition set_bossTimeLeft (e : t) (v : option Qc) : t :=
  make (maxHp e) (hp e) (isBoss e) v.
End Enemy.

Module HeroState.
Record t : Type := make { id : Z; level : Z }.
End HeroState.

Module SaveData.
(** [shape E] is the record with an [enemy] field of type [option E]:
    [t] holds the encounter itself, and the model of the encounter as a
    shared object (module [Shared]) holds a reference. *)
Record shape (E : Type) : Type := make
  { gold : Qc; lifetimeGold : Qc; clickLevel : Z; floor : Z;
    killsThisFloor : Z; heroes : list HeroState.t;
    enemy : option E; lastSeen : option Z }.
Arguments make {E}.
Arguments gold {E}.
Arguments lifetimeGold {E}.
Arguments clickLevel {E}.
Arguments floor {E}.
Arguments killsThisFloor {E}.
Arguments heroes {E}.
Arguments enemy {E}.
Arguments lastSeen {E}.

Abbreviation t := (shape Enemy.t).

Section Setters.
Context {E : Type}.
Definition set_gold (s : shape E) (v : Qc) : shape E :=
  make v (lifetimeGold s) (clickLevel s) (floor s) (killsThisFloor s)
       (heroes s) (enemy s) (lastSeen s).
Definition set_lifetimeGold (s : shape E) (v : Qc) : shape E :=
  make (gold s) v (clickLevel s) (floor s) (killsThisFloor s)
       (heroes s) (enemy s) (lastSeen s).
Definition set_clickLevel (s : shape E) (v : Z) : shape E :=
  make (gold s) (lifetimeGold s) v (floor s) (killsThisFloor s)
       (heroes s) (enemy s) (lastSeen s).
Definition set_floor (s : shape E) (v : Z) : shape E :=
  make (gold s) (lifetimeGold s) (clickLevel s) v (killsThisFloor s)
       (heroes s) (enemy s) (lastSeen s).
Definition set_killsThisFloor (s : shape E) (v : Z) : shape E :=
  make (gold s) (lifetimeGold s) (clickLevel s) (floor s) v
       (heroes s) (enemy s) (lastSeen s).
Definition set_heroes (s : shape E) (v : list HeroState.t) : shape E :=
  make (gold s) (lifetimeGold s) (clickLevel s) (floor s)
       (killsThisFloor s) v (enemy s) (lastSeen s).
Definition set_lastSeen (s : shape E) (v : option Z) : shape E :=
  make (gold s) (lifetimeGold s) (clickLevel s) (floor s)
       (killsThisFloor s) (heroes s) (enemy s) v.
End Setters.

Definition set_enemy {E F : Type} (s : shape E) (v : option F) : shape F :=
  make (gold s) (lifetimeGold s) (clickLevel s) (floor s) (killsThisFloor s)
       (heroes s) v (lastSeen s).
End SaveData.

(** ** Derived values of the component *)

(** [heroesById[id]]: the table entry, or nothing ([undefined]). *)
Definition heroesById (id : Z) : option HeroDef.t :=
  List.find (fun h => bool_decide (HeroDef.id h = id)) HEROES.

(** The [reduce] that sums [def.baseDps * hs.level] from 0, left to right.
    Reading [baseDps] of an id that is not in the table throws; the model
    answers [None]. *)
Fixpoint dpsFrom (sum : Qc) (heroes : list HeroState.t) : option Qc :=
  match heroes with
  | [] => Some sum
  | hs :: rest =>
      match heroesById (HeroState.id hs) with
      | Some def =>
          dpsFrom (sum + HeroDef.baseDps def * Num.z2q (HeroState.level hs)) rest
      | None => None
      end
  end.

Definition totalDps (heroes : list HeroState.t) : option Qc := dpsFrom 0 heroes.

Definition clickDamage (clickLevel : Z) : Qc :=
  CLICK.baseDamage * Num.pow CLICK.damageGrowth (clickLevel - 1).

(** ** Encounter factory and reward *)

Definition makeEnemy (floor : Z) (boss : bool) : Enemy.t :=
  let base := ENEMY.baseHp * Num.pow ENEMY.floorGrowth (floor - 1) in
  let maxHp := if boss then base * ENEMY.bossMultiplier else base in
  Enemy.make maxHp maxHp boss
             (if boss then Some ENEMY.bossTimeSeconds else None).

Definition goldRewardFor (enemy : Enemy.t) (floor : Z) : Qc :=
  let base :=
    Enemy.maxHp enemy * ENEMY.perKillGoldPct
    * (1 + Num.z2q floor * Num.dec 2 100) in
  if Enemy.isBoss enemy then base * ENEMY.bossGoldMultiplier else base.

(** [goldRewardFor] on binary64 numbers, the arithmetic the program runs
    on, with the operations in the order of the source. *)
#[local] Set Warnings "-inexact-float".

Definition goldRewardFor64 (maxHp : float) (isBoss : bool) (floor : float)
  : float :=
  let base := (maxHp * 0.05 * (1 + floor * 0.02))%float in
  if isBoss then (base * 2)%float else base.

(** ** Combat simulator: [tick] *)

(** Lines 225-227: hero damage over [dt], floored at 0. *)
Definition applyDamage (dps : Qc) (e : Enemy.t) (dt : Qc) : Enemy.t :=
  if decide (0 < dps ∧ 0 < Enemy.hp e)
  then Enemy.set_hp e (Num.max 0 (Enemy.hp e - dps * dt))
  else e.

(** Lines 232-236: the boss escaped. *)
Definition bossEscape (s : SaveData.t) : SaveData.t :=
  let newFloor := Z.max 1 (SaveData.floor s - 1) in
  let s := SaveData.set_floor s newFloor in
  let s := SaveData.set_killsThisFloor s 0 in
  SaveData.set_enemy s (Some (makeEnemy newFloor false)).

(** Lines 241-258: the kill branch of [tick]; [e] is [s.enemy]. *)
Definition tickKill (s : SaveData.t) (e : Enemy.t) : SaveData.t :=
  let reward := goldRewardFor e (SaveData.floor s) in
  let s := SaveData.set_gold s (SaveData.gold s + reward) in
  let s := SaveData.set_lifetimeGold s (SaveData.lifetimeGold s + reward) in
  if Enemy.isBoss e then
    let s := SaveData.set_floor s (SaveData.floor s + 1) in
    let s := SaveData.set_killsThisFloor s 0 in
    SaveData.set_enemy s (Some (makeEnemy (SaveData.floor s) false))
  else
    let kills := (SaveData.killsThisFloor s + 1)%Z in
    if decide (ENEMY.killsPerFloor ≤ kills)%Z then
      let s := SaveData.set_killsThisFloor s ENEMY.killsPerFloor in
      SaveData.set_enemy s (Some (makeEnemy (SaveData.floor s) true))
    else
      let s := SaveData.set_killsThisFloor s kills in
      SaveData.set_enemy s (Some (makeEnemy (SaveData.floor s) false)).

(** Lines 240-261: resolve the encounter [e] now stored in the state. *)
Definition resolveKill (s : SaveData.t) (e : Enemy.t) : SaveData.t :=
  let s := SaveData.set_enemy s (Some e) in
  if decide (Enemy.hp e = 0) then tickKill s e else s.

(** Lines 221-261, for a state with an encounter [e] and a computed [dps]. *)
Definition tickWith (dps : Qc) (s : SaveData.t) (e : Enemy.t) (dt : Qc)
  : SaveData.t :=
  let e1 := applyDamage dps e dt in
  match Enemy.isBoss e1, Enemy.bossTimeLeft e1 with
  | true, Some t =>
      let e2 := Enemy.set_bossTimeLeft e1 (Some (Num.max 0 (t - dt))) in
      if decide (Num.max 0 (t - dt) = 0 ∧ 0 < Enemy.hp e2)
      then bossEscape s
      else resolveKill s e2
  | _, _ => resolveKill s e1
  end.

(** [tick(state, dt)]; [now] is what [Date.now()] answers.  The result is
    the state the call returns; [None] is the exception of a hero id that
    is not in the table. *)
Definition tick (now : Z) (state : SaveData.t) (dt : Qc) : option SaveData.t :=
  let s := SaveData.set_lastSeen state (Some now) in
  match SaveData.enemy s with
  | None => Some s
  | Some e =>
      match totalDps (SaveData.heroes s) with
      | Some dps => Some (tickWith dps s e dt)
      | None => None
      end
  end.

(** ** Offline accelerator: [simulateOffline] *)

Module Report.
Record t : Type := make
  { seconds : Qc; kills : Z; gold : Qc; floors : Z }.
End Report.

(** The variables of [simulateOffline] that its loop and [onKill] assign. *)
Module Locals.
Record t : Type := make
  { s : SaveData.t; timeLeft : Qc; kills : Z; goldEarned : Qc;
    floorsCleared : Z }.

Definition set_s (L : t) (v : SaveData.t) : t :=
  make v (timeLeft L) (kills L) (goldEarned L) (floorsCleared L).
Definition set_timeLeft (L : t) (v : Qc) : t :=
  make (s L) v (kills L) (goldEarned L) (floorsCleared L).
End Locals.

(** Lines 283-304: the closure [onKill(enemy)]. *)
Definition onKill (L : Locals.t) (enemy : Enemy.t) : Locals.t :=
  let s := Locals.s L in
  let reward := goldRewardFor enemy (SaveData.floor s) in
  let s := SaveData.set_gold s (SaveData.gold s + reward) in
  let s := SaveData.set_lifetimeGold s (SaveData.lifetimeGold s + reward) in
  let goldEarned := Locals.goldEarned L + reward in
  let kills := (Locals.kills L + 1)%Z in
  if Enemy.isBoss enemy then
    let s := SaveData.set_floor s (SaveData.floor s + 1) in
    let floorsCleared := (Locals.floorsCleared L + 1)%Z in
    let s := SaveData.set_killsThisFloor s 0 in
    let s := SaveData.set_enemy s (Some (makeEnemy (SaveData.floor s) false)) in
    Locals.make s (Locals.timeLeft L) kills goldEarned floorsCleared
  else
    let k := (SaveData.killsThisFloor s + 1)%Z in
    if decide (ENEMY.killsPerFloor ≤ k)%Z then
      let s := SaveData.set_killsThisFloor s ENEMY.killsPerFloor in
      let s := SaveData.set_enemy s (Some (makeEnemy (SaveData.floor s) true)) in
      Locals.make s (Locals.timeLeft L) kills goldEarned (Locals.floorsCleared L)
    else
      let s := SaveData.set_killsThisFloor s k in
      let s := SaveData.set_enemy s (Some (makeEnemy (SaveData.floor s) false)) in
      Locals.make s (Locals.timeLeft L) kills goldEarned (Locals.floorsCleared L).

(** How one pass through the loop body ends: [continue] or [break]. *)
Inductive Flow : Type :=
  | Continue (L : Locals.t)
  | Break (L : Locals.t).

(** [timeLeft -= t]. *)
Definition spend (L : Locals.t) (t : Qc) : Locals.t :=
  Locals.set_timeLeft L (Locals.timeLeft L - t).

(** [enemy.hp = Math.max(0, enemy.hp - dps * timeLeft); timeLeft = 0]:
    [enemy] is the object in [s.enemy], so the state sees the new [hp]. *)
Definition partialDamage (dps : Qc) (L : Locals.t) (enemy : Enemy.t)
  : Locals.t :=
  let enemy :=
    Enemy.set_hp enemy
      (Num.max 0 (Enemy.hp enemy - dps * Locals.timeLeft L)) in
  Locals.set_timeLeft
    (Locals.set_s L (SaveData.set_enemy (Locals.s L) (Some enemy))) 0.

(** [Math.min(Math.floor(timeLeft / perKill), remainingToBoss)].  The loop
    runs with [timeLeft > 0], so for [perKill = 0] the quotient is
    [+Infinity] and the minimum is [remainingToBoss]. *)
Definition canBulkOf (timeLeft perKill : Qc) (remainingToBoss : Z) : Z :=
  if decide (perKill = 0) then remainingToBoss
  else Z.min (Num.floor (timeLeft / perKill)) remainingToBoss.

(** Lines 308-363: one pass through the body of the [while]. *)
Definition loopBody (dps : Qc) (L : Locals.t) (enemy : Enemy.t) : Flow :=
  let timeLeft := Locals.timeLeft L in
  if negb (Enemy.isBoss enemy) then
    let timeToKill := Enemy.hp enemy / dps in
    if decide (Enemy.hp enemy < Enemy.maxHp enemy) then
      if decide (timeToKill ≤ timeLeft)
      then Continue (onKill (spend L timeToKill) enemy)
      else Break (partialDamage dps L enemy)
    else
      let remainingToBoss :=
        (ENEMY.killsPerFloor - SaveData.killsThisFloor (Locals.s L))%Z in
      let perKill := Enemy.maxHp enemy / dps in
      let canBulk := canBulkOf timeLeft perKill remainingToBoss in
      if decide (1 ≤ canBulk)%Z then
        Continue
          (Nat.iter (Z.to_nat canBulk) (fun L' => onKill L' enemy)
                    (spend L (Num.z2q canBulk * perKill)))
      else if decide (perKill ≤ timeLeft)
      then Continue (onKill (spend L perKill) enemy)
      else Break (partialDamage dps L enemy)
  else
    let timeToKill := Enemy.hp enemy / dps in
    let timeAvailable :=
      Num.min (default ENEMY.bossTimeSeconds (Enemy.bossTimeLeft enemy))
              timeLeft in
    if decide (timeToKill ≤ timeAvailable)
    then Continue (onKill (spend L timeToKill) enemy)
    else if decide (timeLeft < default 0 (Enemy.bossTimeLeft enemy)) then
      let enemy1 :=
        Enemy.set_hp enemy (Num.max 0 (Enemy.hp enemy - dps * timeLeft)) in
      let enemy2 :=
        Enemy.set_bossTimeLeft enemy1
          (Some (default 0 (Enemy.bossTimeLeft enemy) - timeLeft)) in
      Break
        (Locals.set_timeLeft
           (Locals.set_s L (SaveData.set_enemy (Locals.s L) (Some enemy2))) 0)
    else
      let L := spend L (default 0 (Enemy.bossTimeLeft enemy)) in
      let s := Locals.s L in
      let newFloor := Z.max 1 (SaveData.floor s - 1) in
      let s := SaveData.set_floor s newFloor in
      let s := SaveData.set_killsThisFloor s 0 in
      let s := SaveData.set_enemy s (Some (makeEnemy newFloor false)) in
      Continue (Locals.set_s L s).

(** [while (timeLeft > 0 && safety-- > 0 && s.enemy) { ... }], by
    recursion on what is left of [safety]. *)
Fixpoint loop (dps : Qc) (safety : nat) (L : Locals.t) : Locals.t :=
  match safety with
  | O => L
  | S safety' =>
      if decide (0 < Locals.timeLeft L) then
        match SaveData.enemy (Locals.s L) with
        | Some enemy =>
            match loopBody dps L enemy with
            | Continue L' => loop dps safety' L'
            | Break L' => L'
            end
        | None => L
        end
      else L
  end.

Definition safetyLimit : nat := Z.to_nat 200000.

(** [simulateOffline(state, seconds)]: the state and the report. *)
Definition simulateOffline (now : Z) (state : SaveData.t) (seconds : Qc)
  : option (SaveData.t * Report.t) :=
  let s :=
    match SaveData.enemy state with
    | Some _ => state
    | None =>
        SaveData.set_enemy state (Some (makeEnemy (SaveData.floor state) false))
    end in
  match totalDps (SaveData.heroes s) with
  | None => None
  | Some dps =>
      if decide (dps ≤ 0 ∨ seconds ≤ 0) then
        Some (SaveData.set_lastSeen s (Some now), Report.make seconds 0 0 0)
      else
        let L := loop dps safetyLimit (Locals.make s seconds 0 0 0) in
        Some (SaveData.set_lastSeen (Locals.s L) (Some now),
              Report.make seconds (Locals.kills L) (Locals.goldEarned L)
                          (Locals.floorsCleared L))
  end.

(** ** Manual attack and purchases *)

(** Lines 377-404: the state update of [handleClick]. *)
Definition attack (clickDamage : Qc) (s : SaveData.t) : SaveData.t :=
  match SaveData.enemy s with
  | None => s
  | Some e =>
      let newEnemy := Enemy.set_hp e (Num.max 0 (Enemy.hp e - clickDamage)) in
      if decide (Enemy.hp newEnemy = 0) then
        let reward := goldRewardFor newEnemy (SaveData.floor s) in
        let newGold := SaveData.gold s + reward in
        let newLifetime := SaveData.lifetimeGold s + reward in
        if Enemy.isBoss newEnemy then
          let newFloor := (SaveData.floor s + 1)%Z in
          SaveData.make newGold newLifetime (SaveData.clickLevel s) newFloor 0
            (SaveData.heroes s) (Some (makeEnemy newFloor false))
            (SaveData.lastSeen s)
        else
          let kills := (SaveData.killsThisFloor s + 1)%Z in
          if decide (ENEMY.killsPerFloor ≤ kills)%Z then
            SaveData.make newGold newLifetime (SaveData.clickLevel s)
              (SaveData.floor s) ENEMY.killsPerFloor (SaveData.heroes s)
              (Some (makeEnemy (SaveData.floor s) true)) (SaveData.lastSeen s)
          else
            SaveData.make newGold newLifetime (SaveData.clickLevel s)
              (SaveData.floor s) kills (SaveData.heroes s)
              (Some (makeEnemy (SaveData.floor s) false)) (SaveData.lastSeen s)
      else
        SaveData.make (SaveData.gold s) (SaveData.lifetimeGold s)
          (SaveData.clickLevel s) (SaveData.floor s) (SaveData.killsThisFloor s)
          (SaveData.heroes s) (Some newEnemy) (SaveData.lastSeen s)
  end.

(** [handleClick]: [save] is the state the component rendered with, [s] the
    state the update is applied to. *)
Definition handleClick (save s : SaveData.t) : SaveData.t :=
  match SaveData.enemy save with
  | None => s
  | Some e =>
      if decide (Enemy.hp e = 0) then s
      else attack (clickDamage (SaveData.clickLevel save)) s
  end.

(** [buyClickUpgrade(qty)] as a state update. *)
Definition buyClickUpgrade (qty : Z) (s : SaveData.t) : SaveData.t :=
  let cost :=
    bulkCost CLICK.baseCost CLICK.growth (SaveData.clickLevel s - 1) qty in
  if decide (SaveData.gold s < cost) then s
  else
    SaveData.set_clickLevel
      (SaveData.set_gold s (SaveData.gold s - cost))
      (SaveData.clickLevel s + qty).

(** [heroLevels(id)]: the level of the first entry with that id, else 0. *)
Definition heroLevels (save : SaveData.t) (id : Z) : Z :=
  match List.find (fun h => bool_decide (HeroState.id h = id))
                  (SaveData.heroes save) with
  | Some h => HeroState.level h
  | None => 0
  end.

(** [buyHeroLevels(heroId, qty)]: the cost is computed from the rendered
    state [save], the update applies to [s]; an id outside the table makes
    [hero.baseCost] throw ([None]). *)
Definition buyHeroLevels (save : SaveData.t) (heroId qty : Z) (s : SaveData.t)
  : option SaveData.t :=
  match heroesById heroId with
  | None => None
  | Some hero =>
      let current := heroLevels save heroId in
      let cost :=
        bulkCost (HeroDef.baseCost hero) (HeroDef.growth hero) current qty in
      if decide (SaveData.gold s < cost) then Some s
      else
        let heroes :=
          List.map
            (fun hs =>
               if decide (HeroState.id hs = heroId)
               then HeroState.make (HeroState.id hs) (HeroState.level hs + qty)
               else hs)
            (SaveData.heroes s) in
        Some (SaveData.set_heroes
                (SaveData.set_gold s (SaveData.gold s - cost)) heroes)
  end.

(** ** The encounter as a shared object

    [{ ...state }] copies the fields of [state] into a new object; its
    [enemy] field is a reference, so the copy and the caller's state hold
    the same encounter object.  [Shared] models [tick] at that level: the
    state records hold a location, the encounter objects live in a store,
    [s.enemy.hp = v] writes the store, and [makeEnemy] allocates. *)

Module Shared.

Abbreviation loc := positive.
Abbreviation store := (gmap positive Enemy.t).
Abbreviation state := (SaveData.shape positive).

(** A new object holding [e]. *)
Definition alloc (h : store) (e : Enemy.t) : positive * store :=
  let l := fresh (dom h) in (l, <[l := e]> h).

(** The value a state denotes in a store ([None]: dangling reference). *)
Definition view (h : store) (s : state) : option SaveData.t :=
  match SaveData.enemy s with
  | None => Some (SaveData.set_enemy s None)
  | Some l =>
      match h !! l with
      | Some e => Some (SaveData.set_enemy s (Some e))
      | None => None
      end
  end.

(** [s.enemy = makeEnemy(floor, boss)]. *)
Definition spawn (h : store) (s : state) (floor : Z) (boss : bool)
  : store * state :=
  let '(l, h') := alloc h (makeEnemy floor boss) in
  (h', SaveData.set_enemy s (Some l)).

(** Lines 241-258 on the store; [e] is the object [s.enemy] refers to. *)
Definition tickKill (h : store) (s : state) (e : Enemy.t) : store * state :=
  let reward := goldRewardFor e (SaveData.floor s) in
  let s := SaveData.set_gold s (SaveData.gold s + reward) in
  let s := SaveData.set_lifetimeGold s (SaveData.lifetimeGold s + reward) in
  if Enemy.isBoss e then
    let s := SaveData.set_floor s (SaveData.floor s + 1) in
    let s := SaveData.set_killsThisFloor s 0 in
    spawn h s (SaveData.floor s) false
  else
    let kills := (SaveData.killsThisFloor s + 1)%Z in
    if decide (ENEMY.killsPerFloor ≤ kills)%Z then
      let s := SaveData.set_killsThisFloor s ENEMY.killsPerFloor in
      spawn h s (SaveData.floor s) true
    else
      let s := SaveData.set_killsThisFloor s kills in
      spawn h s (SaveData.floor s) false.

(** [tick(state, dt)] on the store: the new store and the returned
    state. *)
Definition tick (now : Z) (h : store) (state : state) (dt : Qc)
  : option (store * Shared.state) :=
  let s := SaveData.set_lastSeen state (Some now) in
  match SaveData.enemy s with
  | None => Some (h, s)
  | Some l =>
      match h !! l, totalDps (SaveData.heroes s) with
      | Some e, Some dps =>
          (* s.enemy.hp = Math.max(0, s.enemy.hp - dps * dt) *)
          let e1 := applyDamage dps e dt in
          let h1 := <[l := e1]> h in
          match Enemy.isBoss e1, Enemy.bossTimeLeft e1 with
          | true, Some t =>
              (* s.enemy.bossTimeLeft = Math.max(0, ... - dt) *)
              let e2 :=
                Enemy.set_bossTimeLeft e1 (Some (Num.max 0 (t - dt))) in
              let h2 := <[l := e2]> h1 in
              if decide (Num.max 0 (t - dt) = 0 ∧ 0 < Enemy.hp e2) then
                let newFloor := Z.max 1 (SaveData.floor s - 1) in
                let s := SaveData.set_floor s newFloor in
                let s := SaveData.set_killsThisFloor s 0 in
                Some (spawn h2 s newFloor false)
              else if decide (Enemy.hp e2 = 0) then Some (tickKill h2 s e2)
              else Some (h2, s)
          | _, _ =>
              if decide (Enemy.hp e1 = 0) then Some (tickKill h1 s e1)
              else Some (h1, s)
          end
      | _, _ => None
      end
  end.

End Shared.

(** ** The application around the core *)

(** Lines 141-150: the state a new game starts from. *)
Definition initialSave (now : Z) : SaveData.t :=
  SaveData.make 0 0 1 1 0
    (List.map (fun h => HeroState.make (HeroDef.id h) 0) HEROES) None (Some now).

(** Lines 173-177: the effect that fills in an absent encounter. *)
Definition spawnIfAbsent (s : SaveData.t) : SaveData.t :=
  match SaveData.enemy s with
  | Some _ => s
  | None => SaveData.set_enemy s (Some (makeEnemy (SaveData.floor s) false))
  end.

(** * Vocabulary of the properties *)

(** An encounter on which a step of no duration has nothing to do: it has
    not been killed (hp is not 0) and, if it is a boss with a timer, the
    timer is not yet due (positive; or 0 with no hp above 0 to escape
    with). *)
Definition settled (e : Enemy.t) : bool :=
  bool_decide (Enemy.hp e ≠ 0)
  && match Enemy.isBoss e, Enemy.bossTimeLeft e with
     | true, Some t => bool_decide (0 < t ∨ (t = 0 ∧ Enemy.hp e ≤ 0))
     | _, _ => true
     end.

Definition dead_example : SaveData.t :=
  SaveData.make 0 0 1 1 0 [HeroState.make 1 1]
    (Some (Enemy.make (Num.z2q 10) 0 false None)) None.




(** ** Inputs of the examples *)

Definition escape_example : SaveData.t :=
  SaveData.make 0 0 1 2 20 [HeroState.make 1 1] (Some (makeEnemy 2 true)) None.

Definition kill_example : SaveData.t :=
  SaveData.make 0 0 1 1 0 [HeroState.make 2 1] (Some (makeEnemy 1 false)) None.

Definition rich_example : SaveData.t :=
  SaveData.make (Num.z2q 100) (Num.z2q 100) 1 1 0
    [HeroState.make 1 0; HeroState.make 2 0] (Some (makeEnemy 1 false)) None.

Definition shared_store : Shared.store := {[ 1%positive := makeEnemy 1 false ]}.

Definition shared_state : Shared.state :=
  SaveData.make 0 0 1 1 0 [HeroState.make 1 1] (Some 1%positive) None.

(** What an offline resolve does to the progress of the game, as a
    sequence of events: the encounter [enemy] was killed (a call of
    [onKill(enemy)]), or the boss escaped. *)
Inductive Event : Type :=
  | Killed (enemy : Enemy.t)
  | Escaped.

Definition applyEvent (s : SaveData.t) (ev : Event) : SaveData.t :=
  match ev with
  | Killed enemy => tickKill s enemy
  | Escaped => bossEscape s
  end.

Definition replay (evs : list Event) (s : SaveData.t) : SaveData.t :=
  fold_left applyEvent evs s.

Definition isKill (ev : Event) : bool :=
  match ev with Killed _ => true | Escaped => false end.

Definition isBossKill (ev : Event) : bool :=
  match ev with Killed enemy => Enemy.isBoss enemy | Escaped => false end.


Definition countOf (p : Event -> bool) (evs : list Event) : Z :=
  Z.of_nat (length (List.filter p evs)).

(** The gold the events pay, each kill at the floor it happens on. *)
Fixpoint totalReward (s : SaveData.t) (evs : list Event) : Qc :=
  match evs with
  | [] => 0
  | ev :: rest =>
      match ev with
      | Killed enemy => goldRewardFor enemy (SaveData.floor s)
      | Escaped => 0
      end + totalReward (applyEvent s ev) rest
  end.

(** Two states that differ at most in the encounter. *)
Definition sameButEnemy (a b : SaveData.t) : Prop :=
  SaveData.set_enemy a (@None unit) = SaveData.set_enemy b (@None unit).

(** The counters of the report after some passes of the loop are those
    before plus what the events [evs] count and pay. *)
Record Explains (L L' : Locals.t) (evs : list Event) : Prop := explains
  { ex_kills : Locals.kills L' = (Locals.kills L + countOf isKill evs)%Z;
    ex_floors :
      Locals.floorsCleared L'
      = (Locals.floorsCleared L + countOf isBossKill evs)%Z;
    ex_gold :
      Locals.goldEarned L'
      = Locals.goldEarned L + totalReward (Locals.s L) evs }.


(** The run of [tick] over a sequence of steps, each with the time of its
    call and its [dt]. *)
Fixpoint ticks (s : SaveData.t) (steps : list (Z * Qc)) : option SaveData.t :=
  match steps with
  | [] => Some s
  | (now, dt) :: rest =>
      match tick now s dt with
      | Some s' => ticks s' rest
      | None => None
      end
  end.

(** The duration of a sequence of steps. *)
Fixpoint duration (steps : list (Z * Qc)) : Qc :=
  match steps with
  | [] => 0
  | (_, dt) :: rest => dt + duration rest
  end.








(** * The rest of the component

    What the component computes around the simulation core: the gates of
    the buy buttons, the reset, the three progress bars, the offline
    catch-up that runs once when the component mounts, and the interval
    that drives [tick]. *)

(** Line 433: [canAfford(amount)], read by the buy buttons. *)
Definition canAfford (save : SaveData.t) (amount : Qc) : bool :=
  bool_decide (amount ≤ SaveData.gold save).

(** Line 616: [save.lifetimeGold >= h.baseCost * 0.8]; a hero row is
    shown as available from there on. *)
Definition unlockable (save : SaveData.t) (h : HeroDef.t) : bool :=
  bool_decide (HeroDef.baseCost h * Num.dec 8 10 ≤ SaveData.lifetimeGold save).

(** Lines 633-636: the [disabled] attribute of the buy buttons of a hero
    row for a quantity [qty] (the row computes the cost at the level
    [heroLevels] answers). *)
Definition heroButtonDisabled (save : SaveData.t) (h : HeroDef.t) (qty : Z)
  : bool :=
  negb (unlockable save h)
  || negb (canAfford save
             (bulkCost (HeroDef.baseCost h) (HeroDef.growth h)
                       (heroLevels save (HeroDef.id h)) qty)).

(** Lines 435-441: [resetProgress]; [confirmed] is the answer of the
    [confirm] dialog.  The object literal has no [lastSeen]. *)
Definition resetProgress (confirmed : bool) (save : SaveData.t) : SaveData.t :=
  if confirmed then
    SaveData.make 0 0 1 1 0
      (List.map (fun h => HeroState.make (HeroDef.id h) 0) HEROES)
      (Some (makeEnemy 1 false)) None
  else save.

(** Lines 443-445: the values of the three bars.  A division by a [maxHp]
    of 0 is not finite in JavaScript and lies outside the model. *)
Definition enemyHpPct (save : SaveData.t) : Qc :=
  match SaveData.enemy save with
  | Some e => (Num.z2q 100 * Enemy.hp e) / Enemy.maxHp e
  | None => 0
  end.

Definition bossTimerPct (save : SaveData.t) : Qc :=
  match SaveData.enemy save with
  | Some e =>
      match Enemy.isBoss e, Enemy.bossTimeLeft e with
      | true, Some t => (Num.z2q 100 * t) / ENEMY.bossTimeSeconds
      | _, _ => 0
      end
  | None => 0
  end.

Definition progressPct (save : SaveData.t) : Qc :=
  (Num.z2q 100
   * clamp (Num.z2q (SaveData.killsThisFloor save)) 0
           (Num.z2q ENEMY.killsPerFloor))
  / Num.z2q ENEMY.killsPerFloor.

(** Lines 693-697, [Progress] of the ui module: the width of the bar, in
    percent, is
    [Math.max(0, Math.min(100, value))]. *)
Definition progressWidth (value : Qc) : Qc :=
  Num.max 0 (Num.min (Num.z2q 100) value).

(** Lines 180-182: the seconds the offline catch-up credits; [now] is what
    [Date.now()] answers, in milliseconds, and [lastSeen] the field of the
    stored state. *)
Definition offlineElapsed (now : Z) (lastSeen : option Z) : Qc :=
  let last := default now lastSeen in
  Num.max 0 (Num.min (Num.z2q (now - last) / Num.z2q 1000) OFFLINE.maxSeconds).

(** Lines 179-192: the catch-up effect.  [save] is the state the component
    rendered with, [s] the state the update is applied to, [now'] what
    [Date.now()] answers inside [simulateOffline].  The result is the new
    state and the report handed to [setOfflineReport], if any; [None] is
    the exception of [simulateOffline]. *)
Definition catchUp (now now' : Z) (save s : SaveData.t)
  : option (SaveData.t * option Report.t) :=
  let elapsed := offlineElapsed now (SaveData.lastSeen save) in
  if decide (elapsed < 1) then Some (s, None)
  else
    match simulateOffline now' s elapsed with
    | Some (state, report) =>
        Some (state,
              if decide ((0 < Report.kills report)%Z ∨ 0 < Report.gold report)
              then Some report else None)
    | None => None
    end.

(** Lines 194-203: one firing of the interval.  [lastRef] is the reading
    of [performance.now()] kept from the firing before, [reading] the new
    one, [now] what [Date.now()] answers inside [tick]. *)
Definition frame (lastRef : Qc) (state : SaveData.t) (reading : Qc) (now : Z)
  : Qc * option SaveData.t :=
  let dt := (reading - lastRef) / Num.z2q 1000 in
  (reading, tick now state dt).

(** The firings of the interval over a sequence of readings. *)
Fixpoint frames (lastRef : Qc) (state : SaveData.t) (readings : list (Qc * Z))
  : option (Qc * SaveData.t) :=
  match readings with
  | [] => Some (lastRef, state)
  | (reading, now) :: rest =>
      match frame lastRef state reading now with
      | (lastRef', Some state') => frames lastRef' state' rest
      | (_, None) => None
      end
  end.

(** The steps the firings hand to [tick]. *)
Fixpoint stepsOf (lastRef : Qc) (readings : list (Qc * Z)) : list (Z * Qc) :=
  match readings with
  | [] => []
  | (reading, now) :: rest =>
      (now, (reading - lastRef) / Num.z2q 1000) :: stepsOf reading rest
  end.

(** The manual attack on the store of module [Shared]:
    [{ ...s.enemy, hp: ... }] is a new object, and so is what [makeEnemy]
    returns; the returned state refers to the new object. *)
Definition sharedAttack (clickDamage : Qc) (h : Shared.store) (s : Shared.state)
  : option (Shared.store * Shared.state) :=
  match SaveData.enemy s with
  | None => Some (h, s)
  | Some l =>
      match h !! l with
      | None => None
      | Some e =>
          let newEnemy :=
            Enemy.set_hp e (Num.max 0 (Enemy.hp e - clickDamage)) in
          if decide (Enemy.hp newEnemy = 0) then
            let reward := goldRewardFor newEnemy (SaveData.floor s) in
            let newGold := SaveData.gold s + reward in
            let newLifetime := SaveData.lifetimeGold s + reward in
            if Enemy.isBoss newEnemy then
              let newFloor := (SaveData.floor s + 1)%Z in
              let '(l', h') := Shared.alloc h (makeEnemy newFloor false) in
              Some (h', SaveData.make newGold newLifetime (SaveData.clickLevel s)
                          newFloor 0 (SaveData.heroes s) (Some l')
                          (SaveData.lastSeen s))
            else
              let kills := (SaveData.killsThisFloor s + 1)%Z in
              if decide (ENEMY.killsPerFloor ≤ kills)%Z then
                let '(l', h') :=
                  Shared.alloc h (makeEnemy (SaveData.floor s) true) in
                Some (h', SaveData.make newGold newLifetime
                            (SaveData.clickLevel s) (SaveData.floor s)
                            ENEMY.killsPerFloor (SaveData.heroes s) (Some l')
                            (SaveData.lastSeen s))
              else
                let '(l', h') :=
                  Shared.alloc h (makeEnemy (SaveData.floor s) false) in
                Some (h', SaveData.make newGold newLifetime
                            (SaveData.clickLevel s) (SaveData.floor s) kills
                            (SaveData.heroes s) (Some l') (SaveData.lastSeen s))
          else
            let '(l', h') := Shared.alloc h newEnemy in
            Some (h', SaveData.make (SaveData.gold s) (SaveData.lifetimeGold s)
                        (SaveData.clickLevel s) (SaveData.floor s)
                        (SaveData.killsThisFloor s) (SaveData.heroes s)
                        (Some l') (SaveData.lastSeen s))
      end
  end.

(** ** Vocabulary of the further properties *)

(** An encounter with sound numbers: a positive maximum, hp between 0 and
    the maximum, and a boss timer between 0 and the time a boss is given. *)
Definition saneEnemy (e : Enemy.t) : Prop :=
  0 < Enemy.maxHp e
  /\ 0 ≤ Enemy.hp e /\ Enemy.hp e ≤ Enemy.maxHp e
  /\ match Enemy.bossTimeLeft e with
     | Some t => 0 ≤ t /\ t ≤ ENEMY.bossTimeSeconds
     | None => True
     end.

(** A state with sound numbers: gold is not negative and not above the
    gold ever earned, the floor is at least 1, the encounter is sound. *)
Definition sane (s : SaveData.t) : Prop :=
  0 ≤ SaveData.gold s
  /\ SaveData.gold s ≤ SaveData.lifetimeGold s
  /\ (1 <= SaveData.floor s)%Z
  /\ match SaveData.enemy s with
     | Some e => saneEnemy e
     | None => True
     end.

(** What a fight does to the purse: gold does not decrease, and gold and
    the gold ever earned grow by the same amount. *)
Definition earns (s s' : SaveData.t) : Prop :=
  SaveData.gold s ≤ SaveData.gold s'
  /\ SaveData.gold s' - SaveData.gold s
     = SaveData.lifetimeGold s' - SaveData.lifetimeGold s.

(** The encounter is one the factory makes for the floor of the state,
    possibly damaged: it has the maximum hp of a regular enemy or of a
    boss of that floor, and it has a boss timer exactly if it is a boss. *)
Definition genuine (s : SaveData.t) : Prop :=
  match SaveData.enemy s with
  | Some e =>
      Enemy.maxHp e
      = Enemy.maxHp (makeEnemy (SaveData.floor s) (Enemy.isBoss e))
      /\ (is_Some (Enemy.bossTimeLeft e) <-> Enemy.isBoss e = true)
  | None => True
  end.

(** The variables a pass through the loop body ends with. *)
Definition flowLocals (f : Flow) : Locals.t :=
  match f with
  | Continue L => L
  | Break L => L
  end.


(** The hero ids of a state are all in the table. *)
Definition knownHeroes (heroes : list HeroState.t) : Prop :=
  Forall (fun hs => (1 <= HeroState.id hs <= 10)%Z) heroes.

(** The number of entries of a hero list with a given id. *)
Definition entriesOf (heroId : Z) (heroes : list HeroState.t) : Z :=
  Z.of_nat
    (length (List.filter (fun hs => bool_decide (HeroState.id hs = heroId))
                         heroes)).

(** Inputs of the examples. *)
Definition veteran_example : SaveData.t :=
  SaveData.make (Num.z2q 1000) (Num.z2q 5000) 3 2 4
    [HeroState.make 1 2; HeroState.make 2 1]
    (Some (makeEnemy 2 false)) (Some 0%Z).

Definition boss_example : SaveData.t :=
  SaveData.make (Num.z2q 1000) (Num.z2q 5000) 3 2 20
    [HeroState.make 1 2; HeroState.make 2 1]
    (Some (makeEnemy 2 true)) (Some 0%Z).

(** * Properties *)

(** Transfer of statements on [Qc] to statements on [Q], where [lra] and
    [nra] decide them. *)

Lemma Qc_eq_Q (x y : Qc) : x = y <-> (this x == this y)%Q.
Proof.
  split; [intros ->; reflexivity | apply Qc_is_canon].
Qed.

Lemma this_Q2Qc (a : Q) : (this (Q2Qc a) == a)%Q.
Proof. apply Qred_correct. Qed.

Lemma this_plus (x y : Qc) : (this (x + y) == this x + this y)%Q.
Proof. apply Qred_correct. Qed.

Lemma this_mult (x y : Qc) : (this (x * y) == this x * this y)%Q.
Proof. apply Qred_correct. Qed.

Lemma this_opp (x : Qc) : (this (- x) == - this x)%Q.
Proof. apply Qred_correct. Qed.

Lemma this_minus (x y : Qc) : (this (x - y) == this x - this y)%Q.
Proof.
  unfold Qcminus. rewrite this_plus, this_opp. reflexivity.
Qed.

Lemma this_inv (x : Qc) : (this (/ x) == / this x)%Q.
Proof. apply Qred_correct. Qed.

Lemma this_div (x y : Qc) : (this (x / y) == this x / this y)%Q.
Proof.
  unfold Qcdiv. rewrite this_mult, this_inv. reflexivity.
Qed.

Lemma this_z2q (z : Z) : (this (Num.z2q z) == inject_Z z)%Q.
Proof. apply Qred_correct. Qed.

Lemma this_dec (n : Z) (d : positive) : (this (Num.dec n d) == n # d)%Q.
Proof. apply Qred_correct. Qed.

Lemma this_pow (x : Qc) (n : Z) : (this (Num.pow x n) == this x ^ n)%Q.
Proof. apply Qred_correct. Qed.

Ltac qc_push :=
  repeat first
    [ rewrite this_plus | rewrite this_minus | rewrite this_mult
    | rewrite this_div | rewrite this_opp | rewrite this_inv
    | rewrite this_z2q | rewrite this_dec | rewrite this_Q2Qc ].

Ltac qc_push_in H :=
  repeat first
    [ rewrite this_plus in H | rewrite this_minus in H | rewrite this_mult in H
    | rewrite this_div in H | rewrite this_opp in H | rewrite this_inv in H
    | rewrite this_z2q in H | rewrite this_dec in H | rewrite this_Q2Qc in H ].

Ltac qc2q :=
  try match goal with
  | |- @eq Qc _ _ => rewrite Qc_eq_Q
  | |- ~ @eq Qc _ _ => rewrite Qc_eq_Q
  | |- False => idtac
  end;
  repeat match goal with
  | H : @eq Qc _ _ |- _ => rewrite Qc_eq_Q in H; qc_push_in H; revert H
  | H : ~ @eq Qc _ _ |- _ => rewrite Qc_eq_Q in H; qc_push_in H; revert H
  | H : Qclt _ _ |- _ => unfold Qclt in H; qc_push_in H; revert H
  | H : Qcle _ _ |- _ => unfold Qcle in H; qc_push_in H; revert H
  | H : ~ Qclt _ _ |- _ => unfold Qclt in H; qc_push_in H; revert H
  | H : ~ Qcle _ _ |- _ => unfold Qcle in H; qc_push_in H; revert H
  end;
  unfold Qclt, Qcle; qc_push; intros.

(** Linear arithmetic on [Qc]; products of variables count as atoms. *)
Ltac qc_lra := qc2q; unfold inject_Z in *; lra.

(** ** Power and floor *)

Lemma pow_0_r (x : Qc) : Num.pow x 0 = 1.
Proof. apply Qc_is_canon. rewrite this_pow. reflexivity. Qed.

Lemma pow_1_l (n : Z) : Num.pow 1 n = 1.
Proof. apply Qc_is_canon. rewrite this_pow. apply Qpower_1. Qed.

(** [x^(n+m) = x^n * x^m] wherever the three powers are finite. *)
Lemma pow_add (x : Qc) (n m : Z) :
  x <> 0 \/ (0 <= n /\ 0 <= m)%Z ->
  Num.pow x (n + m) = Num.pow x n * Num.pow x m.
Proof.
  intros Hdom. apply Qc_is_canon. rewrite this_mult, !this_pow.
  destruct (decide (x = 0)) as [-> | Hx].
  - destruct Hdom as [Hne | [Hn Hm]]; [congruence |].
    destruct (decide (n = 0)%Z) as [-> | Hn0].
    + rewrite Z.add_0_l. change (this 0 ^ 0)%Q with 1%Q. ring.
    + destruct (decide (m = 0)%Z) as [-> | Hm0].
      * rewrite Z.add_0_r. change (this 0 ^ 0)%Q with 1%Q. ring.
      * apply Qpower_plus'. lia.
  - apply Qpower_plus. intros H0. apply Hx. apply Qc_is_canon. exact H0.
Qed.

Lemma pow_1_r (x : Qc) : Num.pow x 1 = x.
Proof. apply Qc_is_canon. rewrite this_pow. apply Qpower_1_r. Qed.

Lemma pow_pos (x : Qc) (n : Z) : 0 < x -> 0 < Num.pow x n.
Proof.
  intros Hx. unfold Qclt. rewrite this_pow. apply Qpower_0_lt. exact Hx.
Qed.

(** ** [bulkCost] *)

Example bulkCost_click_10 :
  bulkCost (Num.z2q 10) (Num.dec 115 100) 0 3 = Num.dec 34725 1000.
Proof. apply Qc_is_canon. vm_compute. reflexivity. Qed.

Example naiveCost_click_10 :
  naiveCost (Num.z2q 10) (Num.dec 115 100) 0 3 = Num.dec 34725 1000.
Proof. apply Qc_is_canon. vm_compute. reflexivity. Qed.

Lemma sumTo_geometric (a g : Qc) (n : nat) :
  g <> 1 ->
  sumTo n (fun i => a * Num.pow g (Z.of_nat i))
  = a * (Num.pow g (Z.of_nat n) - 1) / (g - 1).
Proof.
  intros Hg.
  assert (Hg1 : g - 1 <> 0) by (intros H; apply Hg; qc_lra).
  induction n as [| n IH].
  - simpl. rewrite pow_0_r. field. exact Hg1.
  - cbn [sumTo]. rewrite IH.
    replace (Z.of_nat (S n)) with (Z.of_nat n + 1)%Z by lia.
    rewrite pow_add by (right; lia). rewrite pow_1_r.
    field. exact Hg1.
Qed.

Lemma sumTo_ext (n : nat) (f g : nat -> Qc) :
  (forall i, (i < n)%nat -> f i = g i) -> sumTo n f = sumTo n g.
Proof.
  induction n as [| n IH]; intros Hfg; [reflexivity |].
  cbn [sumTo]. rewrite IH by (intros; apply Hfg; lia).
  rewrite Hfg by lia. reflexivity.
Qed.

Lemma sumTo_const (n : nat) (c : Qc) :
  sumTo n (fun _ => c) = c * Num.z2q (Z.of_nat n).
Proof.
  induction n as [| n IH].
  - simpl. apply Qc_is_canon. qc_push. unfold inject_Z. simpl. ring.
  - cbn [sumTo]. rewrite IH. apply Qc_is_canon. qc_push.
    rewrite Nat2Z.inj_succ. unfold Z.succ. rewrite inject_Z_plus.
    unfold inject_Z. ring.
Qed.

(** C2.  On whole levels and quantities, wherever the prices are finite
    (a non-zero growth ratio, or a level that is not negative),
    [bulkCost] is the sum of the per-level prices
    [base * growth^(currentLevel + i)] for [i] in [[0, qty)]; it is 0 for
    [qty <= 0], and [base * qty] for [growth = 1]. *)
Theorem bulkCost_is_naive_sum (base growth : Qc) (currentLevel qty : Z) :
  growth <> 0 \/ (0 <= currentLevel)%Z ->
  bulkCost base growth currentLevel qty = naiveCost base growth currentLevel qty
  /\ ((qty <= 0)%Z -> bulkCost base growth currentLevel qty = 0)
  /\ (growth = 1 -> (0 <= qty)%Z ->
      bulkCost base growth currentLevel qty = base * Num.z2q qty).
Proof.
  intros Hdom.
  assert (Hsplit : forall i : nat,
             levelPrice base growth (currentLevel + Z.of_nat i)
             = base * Num.pow growth currentLevel * Num.pow growth (Z.of_nat i)).
  { intros i. unfold levelPrice. rewrite pow_add; [ring |].
    destruct Hdom; [left; assumption | right; lia]. }
  split; [| split].
  - unfold bulkCost, naiveCost.
    destruct (decide (qty ≤ 0)%Z) as [Hq | Hq].
    + replace (Z.to_nat qty) with O by lia. reflexivity.
    + rewrite (sumTo_ext _ _ _ (fun i _ => Hsplit i)).
      destruct (decide (growth = 1)) as [-> | Hg].
      * rewrite (sumTo_ext _ _ (fun _ => base * Num.pow 1 currentLevel)).
        -- rewrite sumTo_const. rewrite Z2Nat.id by lia. reflexivity.
        -- intros i _. cbv beta. rewrite !pow_1_l. ring.
      * rewrite sumTo_geometric by exact Hg.
        rewrite Z2Nat.id by lia. reflexivity.
  - intros Hq. unfold bulkCost. destruct (decide (qty ≤ 0)%Z); [reflexivity | lia].
  - intros -> Hq. unfold bulkCost.
    destruct (decide (qty ≤ 0)%Z) as [Hq0 | Hq0].
    + replace qty with 0%Z by lia. apply Qc_is_canon. qc_push.
      unfold inject_Z. ring.
    + destruct (decide (1 = 1)) as [_ | Hne]; [| congruence].
      rewrite pow_1_l. ring.
Qed.

Lemma bulkCost_is_naive_sum_witness :
  bulkCost CLICK.baseCost CLICK.growth 0 10
  = naiveCost CLICK.baseCost CLICK.growth 0 10.
Proof.
  apply (bulkCost_is_naive_sum CLICK.baseCost CLICK.growth 0 10).
  right. lia.
Defined.

(** ** Records and small arithmetic facts *)

Ltac rsimpl :=
  cbn [SaveData.gold SaveData.lifetimeGold SaveData.clickLevel SaveData.floor
       SaveData.killsThisFloor SaveData.heroes SaveData.enemy SaveData.lastSeen
       SaveData.set_gold SaveData.set_lifetimeGold SaveData.set_clickLevel
       SaveData.set_floor SaveData.set_killsThisFloor SaveData.set_heroes
       SaveData.set_enemy SaveData.set_lastSeen
       Enemy.maxHp Enemy.hp Enemy.isBoss Enemy.bossTimeLeft
       Enemy.set_hp Enemy.set_bossTimeLeft
       Locals.s Locals.timeLeft Locals.kills Locals.goldEarned
       Locals.floorsCleared Locals.set_s Locals.set_timeLeft
       Report.seconds Report.kills Report.gold Report.floors
       HeroState.id HeroState.level fst snd] in *.

Ltac runfold :=
  unfold Locals.set_timeLeft, Locals.set_s, SaveData.set_enemy,
    SaveData.set_gold, SaveData.set_lifetimeGold, SaveData.set_floor,
    SaveData.set_killsThisFloor, SaveData.set_lastSeen,
    Enemy.set_hp, Enemy.set_bossTimeLeft;
  rsimpl.

Lemma Qc_lt_irrefl (x : Qc) : ~ x < x.
Proof. intros H. apply (Qclt_not_le _ _ H), Qcle_refl. Qed.

Lemma max_0_nonneg (x : Qc) : 0 ≤ x -> Num.max 0 x = x.
Proof. intros H. unfold Num.max. destruct (decide (0 ≤ x)); [reflexivity | contradiction]. Qed.

Lemma max_0_nonpos (x : Qc) : x ≤ 0 -> Num.max 0 x = 0.
Proof.
  intros H. unfold Num.max. destruct (decide (0 ≤ x)); [| reflexivity].
  apply Qcle_antisym; assumption.
Qed.

Lemma max_0_ge (x : Qc) : 0 ≤ Num.max 0 x.
Proof. unfold Num.max. destruct (decide (0 ≤ x)); [assumption | apply Qcle_refl]. Qed.

Lemma max_0_eq_0 (x : Qc) : Num.max 0 x = 0 <-> x ≤ 0.
Proof.
  split; [| apply max_0_nonpos].
  unfold Num.max. destruct (decide (0 ≤ x)) as [H | H]; intros E.
  - rewrite E. apply Qcle_refl.
  - apply Qclt_le_weak, Qcnot_le_lt, H.
Qed.

Lemma z2q_0 : Num.z2q 0 = 0.
Proof. apply Qc_is_canon. reflexivity. Qed.

Lemma minus_0_r (x : Qc) : x - 0 = x.
Proof. ring. Qed.

Lemma mult_0_r (x : Qc) : x * 0 = 0.
Proof. ring. Qed.

Lemma makeEnemy_maxHp_pos (floor : Z) (boss : bool) :
  0 < Enemy.maxHp (makeEnemy floor boss).
Proof.
  assert (Hbase : 0 < ENEMY.baseHp * Num.pow ENEMY.floorGrowth (floor - 1)).
  { apply Qcmult_pos_pos; [reflexivity | apply pow_pos; reflexivity]. }
  unfold makeEnemy. destruct boss; rsimpl; [| exact Hbase].
  apply Qcmult_pos_pos; [exact Hbase | reflexivity].
Qed.

Lemma makeEnemy_hp (floor : Z) (boss : bool) :
  Enemy.hp (makeEnemy floor boss) = Enemy.maxHp (makeEnemy floor boss).
Proof. reflexivity. Qed.

Lemma makeEnemy_isBoss (floor : Z) (boss : bool) :
  Enemy.isBoss (makeEnemy floor boss) = boss.
Proof. reflexivity. Qed.

Lemma set_hp_same (e : Enemy.t) : Enemy.set_hp e (Enemy.hp e) = e.
Proof. destruct e; reflexivity. Qed.

Lemma set_enemy_same (s : SaveData.t) (e : Enemy.t) :
  SaveData.enemy s = Some e -> SaveData.set_enemy s (Some e) = s.
Proof. destruct s; cbn. intros ->. reflexivity. Qed.

Lemma applyDamage_maxHp dps e dt : Enemy.maxHp (applyDamage dps e dt) = Enemy.maxHp e.
Proof. unfold applyDamage. destruct (decide _); reflexivity. Qed.

Lemma applyDamage_isBoss dps e dt : Enemy.isBoss (applyDamage dps e dt) = Enemy.isBoss e.
Proof. unfold applyDamage. destruct (decide _); reflexivity. Qed.

Lemma applyDamage_bossTimeLeft dps e dt :
  Enemy.bossTimeLeft (applyDamage dps e dt) = Enemy.bossTimeLeft e.
Proof. unfold applyDamage. destruct (decide _); reflexivity. Qed.

Lemma applyDamage_zero dps e : applyDamage dps e 0 = e.
Proof.
  unfold applyDamage. destruct (decide _) as [[_ Hhp] | _]; [| reflexivity].
  rewrite mult_0_r, minus_0_r, max_0_nonneg by (apply Qclt_le_weak; exact Hhp).
  apply set_hp_same.
Qed.

Lemma goldRewardFor_applyDamage dps e dt floor :
  goldRewardFor (applyDamage dps e dt) floor = goldRewardFor e floor.
Proof.
  unfold goldRewardFor. rewrite applyDamage_maxHp, applyDamage_isBoss. reflexivity.
Qed.

(** ** [tick]: boss escape *)

(** C3.  When the timer of a boss reaches exactly 0 in a step while its hp,
    after the damage of that step, is still above 0, [tick] returns the
    state with the floor lowered by one but not below 1, the kill counter
    at 0 and a fresh regular encounter of the new floor; nothing else of
    the step is applied (gold and the other fields are as before). *)
Theorem tick_boss_escape
  (now : Z) (s : SaveData.t) (e : Enemy.t) (dps dt t : Qc) :
  SaveData.enemy s = Some e ->
  totalDps (SaveData.heroes s) = Some dps ->
  Enemy.isBoss e = true ->
  Enemy.bossTimeLeft e = Some t ->
  Num.max 0 (t - dt) = 0 ->
  0 < Enemy.hp (applyDamage dps e dt) ->
  let newFloor := Z.max 1 (SaveData.floor s - 1) in
  tick now s dt
  = Some (SaveData.make (SaveData.gold s) (SaveData.lifetimeGold s)
            (SaveData.clickLevel s) newFloor 0 (SaveData.heroes s)
            (Some (makeEnemy newFloor false)) (Some now))
  /\ (1 < SaveData.floor s -> newFloor = SaveData.floor s - 1)%Z
  /\ (1 <= newFloor)%Z
  /\ makeEnemy newFloor false
     = Enemy.make (ENEMY.baseHp * Num.pow ENEMY.floorGrowth (newFloor - 1))
                  (ENEMY.baseHp * Num.pow ENEMY.floorGrowth (newFloor - 1))
                  false None.
Proof.
  intros He Hdps Hboss Ht Hzero Hhp newFloor.
  split; [| split; [| split]]; [| unfold newFloor; lia .. | reflexivity].
  unfold tick. rsimpl. rewrite He, Hdps. unfold tickWith.
  rewrite applyDamage_isBoss, applyDamage_bossTimeLeft, Hboss, Ht.
  rsimpl. destruct (decide _) as [_ | Hn]; [reflexivity |].
  exfalso. apply Hn. split; assumption.
Qed.

(** Closed facts on concrete numbers. *)
Ltac qc_closed :=
  lazymatch goal with
  | |- @eq Qc _ _ => apply Qc_is_canon; vm_compute; reflexivity
  | |- ~ @eq Qc _ _ =>
      let H := fresh in
      intros H; apply Qc_eq_Q in H; vm_compute in H; discriminate H
  | |- Qclt _ _ => unfold Qclt; vm_compute; reflexivity
  | |- Qcle _ _ =>
      let H := fresh in unfold Qcle; vm_compute; intros H; discriminate H
  | |- _ => vm_compute; reflexivity
  end.

Lemma tick_boss_escape_witness :
  tick 0 escape_example (Num.z2q 30)
  = Some (SaveData.make 0 0 1 1 0 [HeroState.make 1 1]
            (Some (makeEnemy 1 false)) (Some 0%Z)).
Proof.
  apply (tick_boss_escape 0 escape_example (makeEnemy 2 true)
           (Num.z2q 1) (Num.z2q 30) (Num.z2q 30)).
  - reflexivity.
  - apply (f_equal Some). qc_closed.
  - reflexivity.
  - reflexivity.
  - qc_closed.
  - qc_closed.
Defined.

(** ** [tick] with [dt = 0] *)

(** C6, counterexample.  That [tick(state, 0)] changes nothing but
    [lastSeen] fails on an encounter whose hp is already 0: the step pays
    the reward of the kill and counts it. *)
Lemma tick_zero_not_identity :
  exists s',
    tick 0 dead_example 0 = Some s'
    /\ SaveData.gold s' = Num.dec 51 100
    /\ SaveData.gold dead_example = 0
    /\ SaveData.killsThisFloor s' = 1%Z
    /\ SaveData.killsThisFloor dead_example = 0%Z.
Proof.
  eexists. split; [reflexivity |].
  repeat split; qc_closed.
Qed.

Lemma tickKill_enemy_fresh (s : SaveData.t) (e : Enemy.t) :
  exists f b, SaveData.enemy (tickKill s e) = Some (makeEnemy f b).
Proof.
  unfold tickKill. destruct (Enemy.isBoss e); [| destruct (decide _)];
    rsimpl; eauto.
Qed.

Lemma resolveKill_fixed (s : SaveData.t) (e e' : Enemy.t) :
  SaveData.enemy s = Some e ->
  Enemy.hp e' = Enemy.hp e ->
  resolveKill s e' = s <-> e' = e /\ Enemy.hp e ≠ 0.
Proof.
  intros He Hhp. unfold resolveKill. split.
  - destruct (decide (Enemy.hp e' = 0)) as [Hz | Hnz]; intros Heq.
    + exfalso.
      destruct (tickKill_enemy_fresh (SaveData.set_enemy s (Some e')) e')
        as (f & b & Hfresh).
      rewrite Heq, He in Hfresh. injection Hfresh as ->.
      pose proof (makeEnemy_maxHp_pos f b) as Hpos.
      rewrite <- makeEnemy_hp, <- Hhp, Hz in Hpos.
      revert Hpos. apply Qc_lt_irrefl.
    + apply (f_equal SaveData.enemy) in Heq. rsimpl. rewrite He in Heq.
      injection Heq as ->. split; [reflexivity | exact Hnz].
  - intros [-> Hnz]. destruct (decide (Enemy.hp e = 0)); [contradiction |].
    apply set_enemy_same, He.
Qed.

(** C6 (amended).  [tick(state, 0)] returns the state with only [lastSeen]
    changed exactly when the state has no encounter, or its hero ids are
    all in the table and its encounter is [settled]: hp is not 0 and a
    boss timer is not due.  On an encounter with hp 0, or a boss whose
    timer is at (or below) 0 with hp above 0, the step of no duration
    resolves the kill or the escape. *)
Theorem tick_zero_dt (now : Z) (s : SaveData.t) :
  tick now s 0 = Some (SaveData.set_lastSeen s (Some now))
  <-> match SaveData.enemy s with
      | None => True
      | Some e => is_Some (totalDps (SaveData.heroes s)) /\ settled e = true
      end.
Proof.
  unfold tick. rsimpl.
  destruct (SaveData.enemy s) as [e |] eqn:He; [| tauto].
  destruct (totalDps (SaveData.heroes s)) as [dps |] eqn:Hdps.
  2:{ split; [discriminate | intros [[? ?] _]; discriminate]. }
  set (s' := SaveData.set_lastSeen s (Some now)).
  assert (He' : SaveData.enemy s' = Some e) by exact He.
  assert (Hsome : forall x : SaveData.t, Some x = Some s' <-> x = s').
  { intros x. split; [intros H; injection H as ->; reflexivity | intros ->; reflexivity]. }
  rewrite Hsome. unfold tickWith, settled. rewrite applyDamage_zero.
  destruct (Enemy.isBoss e) eqn:Hb, (Enemy.bossTimeLeft e) as [t |] eqn:Ht;
    rsimpl; rewrite ?minus_0_r, ?andb_true_r, ?bool_decide_eq_true;
    try (rewrite (resolveKill_fixed s' e e He' eq_refl);
         split; [intros [_ H]; split; [eauto | exact H]
                | intros [_ H]; split; [reflexivity | exact H]]).
  rewrite andb_true_iff, !bool_decide_eq_true.
  destruct (decide _) as [[Hz Hpos] | Hno].
  - (* the boss escapes *)
    apply max_0_eq_0 in Hz. split.
    + intros Hesc. exfalso. apply (f_equal SaveData.enemy) in Hesc.
      unfold bossEscape in Hesc. rsimpl. rewrite He' in Hesc.
      injection Hesc as <-. discriminate Hb.
    + intros (_ & _ & [Hlt | [_ Hle]]); exfalso.
      * apply (Qclt_not_le _ _ Hlt Hz).
      * apply (Qclt_not_le _ _ Hpos Hle).
  - rewrite (resolveKill_fixed s' e
               (Enemy.set_bossTimeLeft e (Some (Num.max 0 t))) He' eq_refl).
    split.
    + intros [He2 Hnz]. split; [eauto |]. split; [exact Hnz |].
      apply (f_equal Enemy.bossTimeLeft) in He2. rsimpl. rewrite Ht in He2.
      injection He2 as He2.
      assert (Ht0 : 0 ≤ t) by (rewrite <- He2; apply max_0_ge).
      destruct (Qclt_le_dec 0 t) as [Hlt | Hle]; [left; exact Hlt | right].
      assert (t = 0) as -> by (apply Qcle_antisym; assumption).
      split; [reflexivity |].
      apply Qcnot_lt_le. intros Hpos. apply Hno. split; [| exact Hpos].
      apply max_0_nonneg, Qcle_refl.
    + intros (_ & Hnz & Htimer). split; [| exact Hnz].
      rewrite max_0_nonneg.
      * destruct e; cbn in *. rewrite Ht. reflexivity.
      * destruct Htimer as [Hlt | [-> _]];
          [apply Qclt_le_weak; exact Hlt | apply Qcle_refl].
Qed.

(** ** The reward of a kill *)

Lemma onKill_state (L : Locals.t) (e : Enemy.t) :
  Locals.s (onKill L e) = tickKill (Locals.s L) e.
Proof.
  unfold onKill, tickKill.
  destruct (Enemy.isBoss e); [reflexivity |].
  destruct (decide _); reflexivity.
Qed.

Lemma tickKill_gold (s : SaveData.t) (e : Enemy.t) :
  SaveData.gold (tickKill s e) = SaveData.gold s + goldRewardFor e (SaveData.floor s)
  /\ SaveData.lifetimeGold (tickKill s e)
     = SaveData.lifetimeGold s + goldRewardFor e (SaveData.floor s).
Proof.
  unfold tickKill.
  destruct (Enemy.isBoss e); [split; reflexivity |].
  destruct (decide _); split; reflexivity.
Qed.

Lemma tickWith_kill (dps : Qc) (s : SaveData.t) (e : Enemy.t) (dt : Qc) :
  Enemy.hp (applyDamage dps e dt) = 0 ->
  exists e', tickWith dps s e dt = tickKill (SaveData.set_enemy s (Some e')) e'
             /\ Enemy.maxHp e' = Enemy.maxHp e
             /\ Enemy.isBoss e' = Enemy.isBoss e.
Proof.
  intros Hhp. unfold tickWith.
  pose proof (applyDamage_maxHp dps e dt) as Hm.
  pose proof (applyDamage_isBoss dps e dt) as Hb.
  set (e1 := applyDamage dps e dt) in *.
  assert (Hplain : resolveKill s e1 = tickKill (SaveData.set_enemy s (Some e1)) e1).
  { unfold resolveKill. destruct (decide _); [reflexivity | contradiction]. }
  destruct (Enemy.isBoss e1) eqn:Hboss;
    [destruct (Enemy.bossTimeLeft e1) as [t |] eqn:Ht |].
  2, 3: exists e1; rewrite Hboss; auto.
  rsimpl. destruct (decide _) as [[_ Hpos] | _].
  - rewrite Hhp in Hpos. destruct (Qc_lt_irrefl _ Hpos).
  - eexists. unfold resolveKill. rsimpl.
    destruct (decide _); [| contradiction].
    split; [reflexivity |]. rsimpl. rewrite Hboss. auto.
Qed.

(** C8.  The reward of a kill is
    [enemy.maxHp * 0.05 * (1 + floor * 0.02)], doubled for a boss.  A step
    of [tick] that brings the hp of the encounter to 0 adds it to [gold]
    and to [lifetimeGold]; so does every call of [onKill] in the offline
    resolver (and to the gold of the report), whose state change is the
    kill branch of [tick].  A regular enemy of floor 1 has [maxHp] 10 and
    its kill pays 0.51: with a DPS of 5 and [dt = 3], [tick] pays 0.51,
    counts one kill and spawns a regular enemy of floor 1. *)
Theorem kill_reward :
  (forall (enemy : Enemy.t) (floor : Z),
      goldRewardFor enemy floor
      = Enemy.maxHp enemy * Num.dec 5 100 * (1 + Num.z2q floor * Num.dec 2 100)
        * (if Enemy.isBoss enemy then Num.z2q 2 else 1))
  /\ (forall (now : Z) (s : SaveData.t) (e : Enemy.t) (dps dt : Qc),
         SaveData.enemy s = Some e ->
         totalDps (SaveData.heroes s) = Some dps ->
         Enemy.hp (applyDamage dps e dt) = 0 ->
         exists s',
           tick now s dt = Some s'
           /\ SaveData.gold s'
              = SaveData.gold s + goldRewardFor e (SaveData.floor s)
           /\ SaveData.lifetimeGold s'
              = SaveData.lifetimeGold s + goldRewardFor e (SaveData.floor s))
  /\ (forall (L : Locals.t) (enemy : Enemy.t),
         let reward := goldRewardFor enemy (SaveData.floor (Locals.s L)) in
         SaveData.gold (Locals.s (onKill L enemy))
         = SaveData.gold (Locals.s L) + reward
         /\ SaveData.lifetimeGold (Locals.s (onKill L enemy))
            = SaveData.lifetimeGold (Locals.s L) + reward
         /\ Locals.goldEarned (onKill L enemy) = Locals.goldEarned L + reward
         /\ Locals.s (onKill L enemy) = tickKill (Locals.s L) enemy)
  /\ Enemy.maxHp (makeEnemy 1 false) = Num.z2q 10
  /\ goldRewardFor (makeEnemy 1 false) 1 = Num.dec 51 100
  /\ (forall now : Z,
         exists s',
           tick now kill_example (Num.z2q 3) = Some s'
           /\ SaveData.gold s' = Num.dec 51 100
           /\ SaveData.lifetimeGold s' = Num.dec 51 100
           /\ SaveData.killsThisFloor s' = 1%Z
           /\ SaveData.floor s' = 1%Z
           /\ SaveData.enemy s' = Some (makeEnemy 1 false)).
Proof.
  split; [| split; [| split; [| split; [| split]]]].
  - intros enemy floor. unfold goldRewardFor, ENEMY.perKillGoldPct,
      ENEMY.bossGoldMultiplier.
    destruct (Enemy.isBoss enemy); ring.
  - intros now s e dps dt He Hdps Hhp. unfold tick. rsimpl.
    rewrite He, Hdps.
    destruct (tickWith_kill dps (SaveData.set_lastSeen s (Some now)) e dt Hhp)
      as (e' & -> & Hm & Hb).
    eexists. split; [reflexivity |].
    destruct (tickKill_gold
                (SaveData.set_enemy (SaveData.set_lastSeen s (Some now)) (Some e'))
                e') as [Hg Hl].
    rewrite Hg, Hl. rsimpl. unfold goldRewardFor. rewrite Hm, Hb. auto.
  - intros L enemy reward. rewrite onKill_state.
    destruct (tickKill_gold (Locals.s L) enemy) as [Hg Hl].
    repeat split; try assumption.
    unfold onKill. destruct (Enemy.isBoss enemy); [reflexivity |].
    destruct (decide _); reflexivity.
  - qc_closed.
  - qc_closed.
  - intros now. eexists. split; [reflexivity |].
    repeat split; qc_closed.
Qed.

(** In binary64 too the kill of a regular enemy of floor 1 pays the number
    the literal [0.51] denotes. *)
Lemma goldRewardFor64_floor_1 :
  goldRewardFor64 10%float false 1%float = 0.51%float.
Proof. vm_compute. reflexivity. Qed.

Lemma kill_reward_witness :
  exists s',
    tick 0 kill_example (Num.z2q 3) = Some s'
    /\ SaveData.gold s' = SaveData.gold kill_example
                          + goldRewardFor (makeEnemy 1 false) 1.
Proof.
  destruct kill_reward as (_ & Htick & _).
  destruct (Htick 0%Z kill_example (makeEnemy 1 false) (Num.z2q 5) (Num.z2q 3))
    as (s' & Hs' & Hg & _).
  - reflexivity.
  - apply (f_equal Some). qc_closed.
  - qc_closed.
  - exists s'. split; [exact Hs' | exact Hg].
Defined.

(** ** Purchases *)

Lemma map_lookup_levels (heroId qty : Z) (heroes : list HeroState.t) (i : nat) :
  List.map
    (fun hs =>
       if decide (HeroState.id hs = heroId)
       then HeroState.make (HeroState.id hs) (HeroState.level hs + qty)
       else hs) heroes !! i
  = (fun hs =>
       if decide (HeroState.id hs = heroId)
       then HeroState.make (HeroState.id hs) (HeroState.level hs + qty)
       else hs) <$> heroes !! i.
Proof. apply list_lookup_fmap. Qed.

Lemma find_map_same_id (f : HeroState.t -> HeroState.t) (heroId : Z)
  (heroes : list HeroState.t) :
  (forall hs, HeroState.id (f hs) = HeroState.id hs) ->
  List.find (fun h => bool_decide (HeroState.id h = heroId)) (List.map f heroes)
  = f <$> List.find (fun h => bool_decide (HeroState.id h = heroId)) heroes.
Proof.
  intros Hid. induction heroes as [| hs rest IH]; [reflexivity |].
  cbn [List.map List.find]. rewrite Hid.
  destruct (bool_decide (HeroState.id hs = heroId)); [reflexivity | exact IH].
Qed.

(** C7.  [buyClickUpgrade(qty)] prices the purchase at
    [bulkCost(10, 1.15, clickLevel - 1, qty)]: with less gold than that the
    state is returned as it is, otherwise the cost is taken from [gold],
    [qty] is added to [clickLevel] and nothing else changes.
    [buyHeroLevels(heroId, qty)], for a hero of the table, prices it at
    [bulkCost(hero.baseCost, hero.growth, level, qty)] with the level of
    that hero: with less gold the state is returned as it is, otherwise the
    cost is taken from [gold] and [qty] is added to the level of the
    entries of that hero only, so that the level of a hero that has an
    entry, as [heroLevels] reads it, grows by [qty]. *)
Theorem purchases (s : SaveData.t) (qty : Z) :
  (let cost :=
     bulkCost CLICK.baseCost CLICK.growth (SaveData.clickLevel s - 1) qty in
   (SaveData.gold s < cost -> buyClickUpgrade qty s = s)
   /\ (~ SaveData.gold s < cost ->
       buyClickUpgrade qty s
       = SaveData.make (SaveData.gold s - cost) (SaveData.lifetimeGold s)
           (SaveData.clickLevel s + qty) (SaveData.floor s)
           (SaveData.killsThisFloor s) (SaveData.heroes s) (SaveData.enemy s)
           (SaveData.lastSeen s)))
  /\ (forall (save : SaveData.t) (heroId : Z) (hero : HeroDef.t),
         heroesById heroId = Some hero ->
         let cost :=
           bulkCost (HeroDef.baseCost hero) (HeroDef.growth hero)
                    (heroLevels save heroId) qty in
         (SaveData.gold s < cost -> buyHeroLevels save heroId qty s = Some s)
         /\ (~ SaveData.gold s < cost ->
             exists heroes',
               buyHeroLevels save heroId qty s
               = Some (SaveData.make (SaveData.gold s - cost)
                         (SaveData.lifetimeGold s) (SaveData.clickLevel s)
                         (SaveData.floor s) (SaveData.killsThisFloor s) heroes'
                         (SaveData.enemy s) (SaveData.lastSeen s))
               /\ length heroes' = length (SaveData.heroes s)
               /\ (forall (i : nat) (hs : HeroState.t),
                      SaveData.heroes s !! i = Some hs ->
                      heroes' !! i
                      = Some (if decide (HeroState.id hs = heroId)
                              then HeroState.make
                                     (HeroState.id hs) (HeroState.level hs + qty)
                              else hs))
               /\ (is_Some (List.find
                              (fun h => bool_decide (HeroState.id h = heroId))
                              (SaveData.heroes s)) ->
                   heroLevels (SaveData.set_heroes s heroes') heroId
                   = (heroLevels s heroId + qty)%Z))).
Proof.
  split.
  - intros cost. unfold buyClickUpgrade. fold cost. split; intros Hgold.
    + destruct (decide _); [reflexivity | contradiction].
    + destruct (decide _); [contradiction | reflexivity].
  - intros save heroId hero Hhero cost. unfold buyHeroLevels.
    rewrite Hhero. fold cost. split; intros Hgold.
    + destruct (decide _); [reflexivity | contradiction].
    + destruct (decide _); [contradiction |].
      eexists. split; [reflexivity |]. split; [apply length_map |]. split.
      * intros i hs Hi. rewrite map_lookup_levels, Hi. reflexivity.
      * intros [hs Hfind]. unfold heroLevels. rsimpl.
        rewrite find_map_same_id by (intros h; destruct (decide _); reflexivity).
        rewrite Hfind. cbn [fmap option_fmap option_map].
        apply List.find_some in Hfind as [_ Hid].
        apply bool_decide_eq_true in Hid.
        destruct (decide _); [reflexivity | contradiction].
Qed.

Lemma purchases_witness :
  buyClickUpgrade 1 rich_example
  = SaveData.make
      (SaveData.gold rich_example
       - bulkCost CLICK.baseCost CLICK.growth
                  (SaveData.clickLevel rich_example - 1) 1)
      (Num.z2q 100) 2 1 0
      [HeroState.make 1 0; HeroState.make 2 0] (Some (makeEnemy 1 false)) None
  /\ buyHeroLevels rich_example 2 1 rich_example = Some rich_example.
Proof.
  destruct (purchases rich_example 1) as [[_ Hclick] Hhero]. split.
  - apply Hclick. unfold Qclt. vm_compute. discriminate.
  - destruct (Hhero rich_example 2%Z
                (HeroDef.make 2 "Archer" (Num.z2q 5) (Num.z2q 250)
                   (Num.dec 108 100) "Never misses. Often.") eq_refl)
      as [Hnoop _].
    apply Hnoop. qc_closed.
Defined.

(** ** [formatNumber] *)

Lemma abs_nonneg (q : Qc) : 0 ≤ abs q.
Proof.
  unfold abs. destruct (decide (0 ≤ q)) as [H | H]; [exact H |].
  apply Qcnot_le_lt in H. qc_lra.
Qed.

(** Below the first suffix: the number is fixed to 0 decimals when
    [n >= 100] and to [digits] decimals otherwise. *)
Lemma formatNumber_small (q : Qc) (digits : Z) :
  abs q < Num.z2q 1000 ->
  formatNumber (Finite q) digits
  = ToFixed q (if decide (Num.z2q 100 ≤ q) then 0%Z else digits) "".
Proof.
  intros Hsmall. unfold formatNumber, SUFFIXES. cbn [List.find fst].
  assert (Hlt : forall n : Z, (3 <= n)%Z ->
                  bool_decide (Num.pow (Num.z2q 10) n ≤ abs q) = false).
  { intros n Hn. apply bool_decide_eq_false. intros Hle.
    apply (Qclt_not_le _ _ Hsmall). eapply Qcle_trans; [| exact Hle].
    unfold Qcle. rewrite this_pow, !this_z2q.
    change (inject_Z 1000) with (inject_Z 10 ^ 3)%Q.
    apply Qpower_le_compat_l; [exact Hn | discriminate]. }
  rewrite !Hlt by lia. reflexivity.
Qed.

Lemma formatNumber_non_finite (digits : Z) :
  formatNumber PosInfinity digits = InfinitySign
  /\ formatNumber NegInfinity digits = InfinitySign
  /\ formatNumber NaN digits = InfinitySign.
Proof. repeat split. Qed.

(** C9, on the code.  For [n = -150], whose magnitude is between 100 and
    1000, [formatNumber(n, 2)] fixes [n] to 2 decimals: the test is
    [n >= 100], not [|n| >= 100]. *)
Theorem formatNumber_negative_hundreds :
  abs (Num.z2q (-150)) < Num.z2q 1000
  /\ Num.z2q 100 ≤ abs (Num.z2q (-150))
  /\ formatNumber (Finite (Num.z2q (-150))) 2 = ToFixed (Num.z2q (-150)) 2 ""
  /\ formatNumber (Finite (Num.z2q 150)) 2 = ToFixed (Num.z2q 150) 0 "".
Proof.
  split; [qc_closed |]. split; [qc_closed |].
  split; rewrite formatNumber_small by qc_closed.
  - destruct (decide _) as [H | _]; [| reflexivity].
    exfalso. revert H. unfold Qcle. vm_compute. intros H. apply H. reflexivity.
  - destruct (decide _) as [_ | H]; [reflexivity |].
    exfalso. apply H. qc_closed.
Qed.

(** ** [tick] and the caller's encounter object *)

Lemma view_spawn (h : Shared.store) (s : Shared.state) (floor : Z) (boss : bool) :
  Shared.view (Shared.spawn h s floor boss).1 (Shared.spawn h s floor boss).2
  = Some (SaveData.set_enemy s (Some (makeEnemy floor boss))).
Proof.
  unfold Shared.spawn, Shared.alloc, Shared.view. rsimpl.
  rewrite lookup_insert_eq. reflexivity.
Qed.

Lemma view_tickKill (h : Shared.store) (s : Shared.state) (e : Enemy.t) :
  Shared.view (Shared.tickKill h s e).1 (Shared.tickKill h s e).2
  = Some (tickKill (SaveData.set_enemy s (Some e)) e).
Proof.
  unfold Shared.tickKill, tickKill.
  destruct (Enemy.isBoss e); [| destruct (decide _)];
    rewrite view_spawn; reflexivity.
Qed.

(** The state [Shared.tick] returns, read in the store it leaves, is the
    state [tick] computes from the value of the argument. *)
Lemma shared_tick_refines
  (now : Z) (h : Shared.store) (s : Shared.state) (v : SaveData.t) (dt : Qc) :
  Shared.view h s = Some v ->
  match Shared.tick now h s dt with
  | Some (h', s') => Shared.view h' s' = tick now v dt
  | None => tick now v dt = None
  end.
Proof.
  unfold Shared.view, Shared.tick, tick. rsimpl.
  destruct (SaveData.enemy s) as [l |] eqn:Hl.
  2:{ intros Hv. injection Hv as <-. rsimpl. unfold Shared.view. rsimpl.
      rewrite Hl. reflexivity. }
  destruct (h !! l) as [e |] eqn:He; [| discriminate].
  intros Hv. injection Hv as <-. rsimpl.
  destruct (totalDps (SaveData.heroes s)) as [dps |]; [| reflexivity].
  unfold tickWith.
  set (s1 := SaveData.set_lastSeen s (Some now)).
  assert (Hplain : forall (h1 : Shared.store) (e1 : Enemy.t),
             h1 !! l = Some e1 ->
             match (if decide (Enemy.hp e1 = 0)
                    then Some (Shared.tickKill h1 s1 e1) else Some (h1, s1)) with
             | Some (h', s') =>
                 Shared.view h' s'
                 = Some (resolveKill
                           (SaveData.set_lastSeen
                              (SaveData.set_enemy s (Some e)) (Some now)) e1)
             | None => False
             end).
  { intros h1 e1 H1. unfold resolveKill. destruct (decide _).
    - pose proof (view_tickKill h1 s1 e1) as Hk.
      destruct (Shared.tickKill h1 s1 e1) as [h' s']. exact Hk.
    - unfold Shared.view. subst s1. rsimpl. rewrite Hl, H1. reflexivity. }
  destruct (Enemy.isBoss (applyDamage dps e dt)) eqn:Hb;
    [destruct (Enemy.bossTimeLeft (applyDamage dps e dt)) as [t |] eqn:Ht |].
  2, 3: specialize (Hplain (<[l := applyDamage dps e dt]> h)
                           (applyDamage dps e dt) (lookup_insert_eq _ _ _));
        destruct (decide _); exact Hplain.
  rsimpl. destruct (decide _).
  - pose proof (view_spawn
        (<[l := Enemy.set_bossTimeLeft (applyDamage dps e dt)
                  (Some (Num.max 0 (t - dt)))]>
           (<[l := applyDamage dps e dt]> h))
        (SaveData.set_killsThisFloor
           (SaveData.set_floor s1 (Z.max 1 (SaveData.floor s1 - 1))) 0)
        (Z.max 1 (SaveData.floor s1 - 1)) false) as Hsp.
    destruct (Shared.spawn _ _ _ _) as [h' s']. exact Hsp.
  - specialize (Hplain _ _ (lookup_insert_eq
                              (<[l := applyDamage dps e dt]> h) l
                              (Enemy.set_bossTimeLeft (applyDamage dps e dt)
                                 (Some (Num.max 0 (t - dt)))))).
    rsimpl. destruct (decide _); exact Hplain.
Qed.

Lemma alloc_keeps (h : Shared.store) (e x : Enemy.t) (l : positive) :
  h !! l = Some x -> (Shared.alloc h e).2 !! l = Some x.
Proof.
  intros Hl. unfold Shared.alloc. cbn [snd].
  rewrite lookup_insert_ne; [exact Hl |].
  intros Heq. apply (is_fresh (dom h)). rewrite Heq.
  apply elem_of_dom. eauto.
Qed.

Lemma spawn_keeps (h : Shared.store) (s : Shared.state) (floor : Z) (boss : bool)
  (x : Enemy.t) (l : positive) :
  h !! l = Some x -> (Shared.spawn h s floor boss).1 !! l = Some x.
Proof. intros Hl. exact (alloc_keeps h (makeEnemy floor boss) x l Hl). Qed.

Lemma shared_tickKill_keeps (h : Shared.store) (s : Shared.state) (e x : Enemy.t)
  (l : positive) :
  h !! l = Some x -> (Shared.tickKill h s e).1 !! l = Some x.
Proof.
  intros Hl. unfold Shared.tickKill.
  destruct (Enemy.isBoss e); [| destruct (decide _)]; apply spawn_keeps, Hl.
Qed.

(** Whatever the step does next, the damage of the step is written to the
    object the caller's state refers to. *)
Lemma shared_tick_writes
  (now : Z) (h : Shared.store) (s : Shared.state) (l : positive) (e : Enemy.t)
  (dps dt : Qc) :
  SaveData.enemy s = Some l ->
  h !! l = Some e ->
  totalDps (SaveData.heroes s) = Some dps ->
  exists (h' : Shared.store) (s' : Shared.state) (e' : Enemy.t),
    Shared.tick now h s dt = Some (h', s')
    /\ h' !! l = Some e'
    /\ Enemy.hp e' = Enemy.hp (applyDamage dps e dt).
Proof.
  intros Hl He Hdps. unfold Shared.tick. rsimpl. rewrite Hl, He, Hdps.
  set (e1 := applyDamage dps e dt).
  set (h1 := <[l := e1]> h).
  assert (H1 : h1 !! l = Some e1) by apply lookup_insert_eq.
  assert (Hplain : forall (h2 : Shared.store) (e2 : Enemy.t),
             h2 !! l = Some e2 -> Enemy.hp e2 = Enemy.hp e1 ->
             exists (h' : Shared.store) (s' : Shared.state) (e' : Enemy.t),
               (if decide (Enemy.hp e2 = 0)
                then Some (Shared.tickKill h2 (SaveData.set_lastSeen s (Some now)) e2)
                else Some (h2, SaveData.set_lastSeen s (Some now)))
               = Some (h', s')
               /\ h' !! l = Some e' /\ Enemy.hp e' = Enemy.hp e1).
  { intros h2 e2 H2 Hhp. destruct (decide _).
    - eexists _, _, e2.
      split; [rewrite (surjective_pairing (Shared.tickKill _ _ _)); reflexivity |].
      split; [apply shared_tickKill_keeps, H2 | exact Hhp].
    - exists h2, (SaveData.set_lastSeen s (Some now)), e2. auto. }
  destruct (Enemy.isBoss e1) eqn:Hb;
    [destruct (Enemy.bossTimeLeft e1) as [t |] eqn:Ht |];
    try exact (Hplain h1 e1 H1 eq_refl).
  set (e2 := Enemy.set_bossTimeLeft e1 (Some (Num.max 0 (t - dt)))).
  assert (H2 : <[l := e2]> h1 !! l = Some e2) by apply lookup_insert_eq.
  destruct (decide _).
  - eexists _, _, e2.
    split; [rewrite (surjective_pairing (Shared.spawn _ _ _ _)); reflexivity |].
    split; [apply spawn_keeps, H2 | reflexivity].
  - exact (Hplain (<[l := e2]> h1) e2 H2 eq_refl).
Qed.

(** C5, on the code.  The caller's state, read before and after a call of
    [tick], is not the same value: its encounter had hp 10 and has hp 9
    (one hero dealing 1 per second, [dt = 1]); the returned state holds
    the very same object. *)
Theorem tick_writes_callers_encounter :
  exists (h' : Shared.store) (s' : Shared.state),
    Shared.tick 0 shared_store shared_state 1 = Some (h', s')
    /\ SaveData.enemy s' = SaveData.enemy shared_state
    /\ (Shared.view shared_store shared_state ≫= SaveData.enemy)
       = Some (Enemy.make (Num.z2q 10) (Num.z2q 10) false None)
    /\ (Shared.view h' shared_state ≫= SaveData.enemy)
       = Some (Enemy.make (Num.z2q 10) (Num.z2q 9) false None).
Proof.
  eexists _, _. split; [vm_compute; reflexivity |].
  split; [reflexivity |]. split.
  - vm_compute. f_equal. 
  - vm_compute. f_equal.
Qed.

(** ** The kill counter *)

























(** ** The offline report *)

Lemma sameButEnemy_fields (a b : SaveData.t) :
  sameButEnemy a b ->
  SaveData.gold a = SaveData.gold b
  /\ SaveData.lifetimeGold a = SaveData.lifetimeGold b
  /\ SaveData.clickLevel a = SaveData.clickLevel b
  /\ SaveData.floor a = SaveData.floor b
  /\ SaveData.killsThisFloor a = SaveData.killsThisFloor b
  /\ SaveData.heroes a = SaveData.heroes b
  /\ SaveData.lastSeen a = SaveData.lastSeen b.
Proof.
  unfold sameButEnemy, SaveData.set_enemy. intros H. injection H. auto 10.
Qed.

Lemma replay_app (evs1 evs2 : list Event) (s : SaveData.t) :
  replay (evs1 ++ evs2) s = replay evs2 (replay evs1 s).
Proof. apply fold_left_app. Qed.

Lemma totalReward_app (evs1 evs2 : list Event) (s : SaveData.t) :
  totalReward s (evs1 ++ evs2)
  = totalReward s evs1 + totalReward (replay evs1 s) evs2.
Proof.
  revert s. induction evs1 as [| ev evs1 IH]; intros s; cbn.
  - ring.
  - rewrite IH. fold (replay evs1 (applyEvent s ev)). ring.
Qed.

Lemma countOf_app (p : Event -> bool) (evs1 evs2 : list Event) :
  countOf p (evs1 ++ evs2) = (countOf p evs1 + countOf p evs2)%Z.
Proof. unfold countOf. rewrite List.filter_app, length_app. lia. Qed.

Lemma explains_nil (L L' : Locals.t) :
  Locals.kills L' = Locals.kills L ->
  Locals.floorsCleared L' = Locals.floorsCleared L ->
  Locals.goldEarned L' = Locals.goldEarned L ->
  Explains L L' [].
Proof.
  intros Hk Hf Hg.
  split; unfold countOf; cbn; rewrite ?Hk, ?Hf, ?Hg; [lia | lia | ring].
Qed.

Lemma explains_app (L L1 L2 : Locals.t) (evs1 evs2 : list Event) :
  Locals.s L1 = replay evs1 (Locals.s L) ->
  Explains L L1 evs1 -> Explains L1 L2 evs2 -> Explains L L2 (evs1 ++ evs2).
Proof.
  intros Hs [Hk1 Hf1 Hg1] [Hk2 Hf2 Hg2]. split.
  - rewrite Hk2, Hk1, countOf_app. lia.
  - rewrite Hf2, Hf1, countOf_app. lia.
  - rewrite Hg2, Hg1, totalReward_app, Hs. ring.
Qed.

Lemma onKill_explains (L : Locals.t) (e : Enemy.t) :
  Locals.s (onKill L e) = replay [Killed e] (Locals.s L)
  /\ Explains L (onKill L e) [Killed e].
Proof.
  split; [apply onKill_state |].
  unfold onKill. split; unfold countOf; cbn [List.filter isKill isBossKill totalReward];
    (destruct (Enemy.isBoss e); [| destruct (decide _)]); cbn; try lia; ring.
Qed.

Lemma spend_explains (L : Locals.t) (t : Qc) (L' : Locals.t) (evs : list Event) :
  Explains (spend L t) L' evs -> Explains L L' evs.
Proof. intros [Hk Hf Hg]. split; assumption. Qed.

Lemma iter_onKill_explains (n : nat) (L : Locals.t) (e : Enemy.t) :
  let L' := Nat.iter n (fun L' => onKill L' e) L in
  Locals.s L' = replay (repeat (Killed e) n) (Locals.s L)
  /\ Explains L L' (repeat (Killed e) n).
Proof.
  induction n as [| n [IHs IHe]]; cbn zeta.
  - split; [reflexivity |]. apply explains_nil; reflexivity.
  - cbn [Nat.iter repeat]. rewrite repeat_cons.
    destruct (onKill_explains (Nat.iter n (fun L' => onKill L' e) L) e)
      as [Hs He].
    split.
    + rewrite replay_app, <- IHs. exact Hs.
    + eapply explains_app; [exact IHs | exact IHe | exact He].
Qed.

(** One pass through the loop body: a [continue] has performed a sequence
    of events, a [break] has only damaged the encounter. *)
Lemma loopBody_explains (dps : Qc) (L : Locals.t) (e : Enemy.t) :
  match loopBody dps L e with
  | Continue L' =>
      exists evs, Locals.s L' = replay evs (Locals.s L) /\ Explains L L' evs
  | Break L' => sameButEnemy (Locals.s L') (Locals.s L) /\ Explains L L' []
  end.
Proof.
  assert (Hkill : forall t : Qc,
             exists evs,
               Locals.s (onKill (spend L t) e) = replay evs (Locals.s L)
               /\ Explains L (onKill (spend L t) e) evs).
  { intros t. exists [Killed e].
    destruct (onKill_explains (spend L t) e) as [Hs He]. split; [exact Hs |].
    apply (spend_explains L t). exact He. }
  assert (Hpartial : sameButEnemy (Locals.s (partialDamage dps L e)) (Locals.s L)
                     /\ Explains L (partialDamage dps L e) []).
  { split; [reflexivity | apply explains_nil; reflexivity]. }
  unfold loopBody. destruct (Enemy.isBoss e); cbn [negb].
  - destruct (decide _); [apply Hkill |].
    destruct (decide _).
    + split; [reflexivity | apply explains_nil; reflexivity].
    + exists [Escaped]. split; [reflexivity |].
      split; unfold countOf; cbn; try lia; ring.
  - destruct (decide _); [destruct (decide _); [apply Hkill | apply Hpartial] |].
    destruct (decide _).
    + eexists. pose proof (iter_onKill_explains
        (Z.to_nat (canBulkOf (Locals.timeLeft L) (Enemy.maxHp e / dps)
                     (ENEMY.killsPerFloor - SaveData.killsThisFloor (Locals.s L))))
        (spend L (Num.z2q (canBulkOf (Locals.timeLeft L) (Enemy.maxHp e / dps)
                     (ENEMY.killsPerFloor - SaveData.killsThisFloor (Locals.s L)))
                  * (Enemy.maxHp e / dps))) e) as [Hs He].
      split; [exact Hs | eapply spend_explains; exact He].
    + destruct (decide _); [apply Hkill | apply Hpartial].
Qed.

(** The whole loop: what it did is a sequence of kills and escapes. *)
Lemma loop_explains (dps : Qc) (safety : nat) (L : Locals.t) :
  exists evs,
    sameButEnemy (Locals.s (loop dps safety L)) (replay evs (Locals.s L))
    /\ Explains L (loop dps safety L) evs.
Proof.
  revert L. induction safety as [| n IH]; intros L.
  - exists []. split; [reflexivity | apply explains_nil; reflexivity].
  - cbn [loop].
    destruct (decide _);
      [| exists []; split; [reflexivity | apply explains_nil; reflexivity]].
    destruct (SaveData.enemy (Locals.s L)) as [e |];
      [| exists []; split; [reflexivity | apply explains_nil; reflexivity]].
    pose proof (loopBody_explains dps L e) as Hbody.
    destruct (loopBody dps L e) as [L1 | L1].
    + destruct Hbody as (evs1 & Hs1 & He1).
      destruct (IH L1) as (evs2 & Hs2 & He2).
      exists (evs1 ++ evs2). split.
      * rewrite replay_app, <- Hs1. exact Hs2.
      * eapply explains_app; eassumption.
    + exists []. exact Hbody.
Qed.

Lemma replay_gold (evs : list Event) (s : SaveData.t) :
  SaveData.gold (replay evs s) = SaveData.gold s + totalReward s evs
  /\ SaveData.lifetimeGold (replay evs s)
     = SaveData.lifetimeGold s + totalReward s evs.
Proof.
  revert s. induction evs as [| ev evs IH]; intros s.
  - cbn. split; ring.
  - cbn [totalReward]. change (replay (ev :: evs) s) with (replay evs (applyEvent s ev)).
    destruct (IH (applyEvent s ev)) as [-> ->].
    destruct ev as [e |]; cbn [applyEvent].
    + destruct (tickKill_gold s e) as [-> ->]. split; ring.
    + unfold bossEscape. rsimpl. split; ring.
Qed.

Lemma tickKill_floor (s : SaveData.t) (e : Enemy.t) :
  SaveData.floor (tickKill s e)
  = (SaveData.floor s + if Enemy.isBoss e then 1 else 0)%Z.
Proof.
  unfold tickKill.
  destruct (Enemy.isBoss e); [| destruct (decide _)]; rsimpl; lia.
Qed.



(** ** Ticks against the offline resolver *)


(** *** Arithmetic of times and damage *)

Section Arith.
Variable d : Qc.
Hypothesis Hd : 0 < d.

Lemma d_nonzero : d <> 0.
Proof using Hd. intros H. rewrite H in Hd. exact (Qc_lt_irrefl _ Hd). Qed.

Lemma div_mult_cancel (x : Qc) : d * (x / d) = x.
Proof using Hd. field. exact d_nonzero. Qed.

Lemma mult_le_cancel (x y : Qc) : d * x ≤ d * y <-> x ≤ y.
Proof using Hd. symmetry. apply Qcmult_le_mono_pos_l. exact Hd. Qed.


Lemma div_le_iff (x y : Qc) : x / d ≤ y <-> x ≤ d * y.
Proof using Hd.
  rewrite <- (mult_le_cancel (x / d) y), div_mult_cancel. reflexivity.
Qed.



End Arith.



Lemma z2q_add (a b : Z) : Num.z2q (a + b) = Num.z2q a + Num.z2q b.
Proof. apply Qc_is_canon. qc_push. rewrite inject_Z_plus. reflexivity. Qed.

Lemma z2q_1 : Num.z2q 1 = 1.
Proof. apply Qc_is_canon. reflexivity. Qed.





(** *** The locals of the loop *)



Lemma onKill_set_timeLeft (L : Locals.t) (t : Qc) (e : Enemy.t) :
  onKill (Locals.set_timeLeft L t) e = Locals.set_timeLeft (onKill L e) t.
Proof.
  unfold onKill. rsimpl.
  destruct (Enemy.isBoss e); [| destruct (decide _)]; reflexivity.
Qed.


Lemma goldRewardFor_congr (e e' : Enemy.t) (floor : Z) :
  Enemy.maxHp e = Enemy.maxHp e' -> Enemy.isBoss e = Enemy.isBoss e' ->
  goldRewardFor e floor = goldRewardFor e' floor.
Proof. unfold goldRewardFor. intros -> ->. reflexivity. Qed.

Lemma tickKill_congr (s s' : SaveData.t) (e e' : Enemy.t) :
  sameButEnemy s s' ->
  Enemy.maxHp e = Enemy.maxHp e' -> Enemy.isBoss e = Enemy.isBoss e' ->
  tickKill s e = tickKill s' e'.
Proof.
  intros Hs Hm Hb. destruct s, s'. unfold sameButEnemy in Hs. cbn in Hs.
  injection Hs as -> -> -> -> -> -> ->.
  unfold tickKill. rsimpl. rewrite (goldRewardFor_congr e e' _ Hm Hb), Hb.
  reflexivity.
Qed.

Lemma bossEscape_congr (s s' : SaveData.t) :
  sameButEnemy s s' -> bossEscape s = bossEscape s'.
Proof.
  intros Hs. destruct s, s'. unfold sameButEnemy in Hs. cbn in Hs.
  injection Hs as -> -> -> -> -> -> ->. reflexivity.
Qed.



Lemma iter_onKill_set_timeLeft (n : nat) (L : Locals.t) (t : Qc) (e : Enemy.t) :
  Nat.iter n (fun L' => onKill L' e) (Locals.set_timeLeft L t)
  = Locals.set_timeLeft (Nat.iter n (fun L' => onKill L' e) L) t.
Proof.
  induction n as [| n IH]; [reflexivity |].
  rewrite !Nat.iter_succ, IH. apply onKill_set_timeLeft.
Qed.


(** *** One pass of the loop *)




Section Body.
Variable dps : Qc.
Hypothesis Hdps : 0 < dps.
Variables (L : Locals.t) (e : Enemy.t).
Hypothesis HT : 0 < Locals.timeLeft L.




Section Boss.
Variable t : Qc.
Hypothesis Hboss : Enemy.isBoss e = true.
Hypothesis Ht : Enemy.bossTimeLeft e = Some t.




End Boss.
End Body.

(** *** A step of [tick] that fits *)

Section FitStep.
Variable dps : Qc.
Hypothesis Hdps : 0 < dps.
Variables (s : SaveData.t) (e : Enemy.t) (dt : Qc).
Hypothesis Hdt : 0 < dt.
Hypothesis Hdam : dps * dt ≤ Enemy.hp e.





End FitStep.



(** *** Kills in the loop, one at a time

    A pass that kills a regular enemy continues the loop from the state
    after its first kill: a damaged enemy is killed alone, and a bulk pass
    of [k] kills is one kill followed by a bulk pass of [k - 1]. *)
Section RegularKill.
Variable dps : Qc.
Hypothesis Hdps : 0 < dps.
Variables (L : Locals.t) (e : Enemy.t).
Hypothesis He : SaveData.enemy (Locals.s L) = Some e.
Hypothesis Hb : Enemy.isBoss e = false.
Hypothesis Hmax : Enemy.hp e ≤ Enemy.maxHp e.
Hypothesis Hpos : 0 < Enemy.hp e.
Hypothesis Hfactory :
  Enemy.maxHp e
  = Enemy.maxHp (makeEnemy (SaveData.floor (Locals.s L)) false).
Hypothesis Hk :
  (SaveData.killsThisFloor (Locals.s L) < ENEMY.killsPerFloor)%Z.
Hypothesis Hkill : Enemy.hp e ≤ dps * Locals.timeLeft L.


End RegularKill.

(** *** One fitting step against the loop *)





(** *** The run of ticks *)

Lemma tickKill_lastSeen (s : SaveData.t) (e : Enemy.t) (v : option Z) :
  tickKill (SaveData.set_lastSeen s v) e = SaveData.set_lastSeen (tickKill s e) v.
Proof.
  unfold tickKill. rsimpl.
  destruct (Enemy.isBoss e); [| destruct (decide _)]; reflexivity.
Qed.

Lemma resolveKill_lastSeen (s : SaveData.t) (e : Enemy.t) (v : option Z) :
  resolveKill (SaveData.set_lastSeen s v) e
  = SaveData.set_lastSeen (resolveKill s e) v.
Proof.
  unfold resolveKill. destruct (decide _); [| reflexivity].
  apply (tickKill_lastSeen (SaveData.set_enemy s (Some e)) e v).
Qed.

Lemma tickWith_lastSeen (dps : Qc) (s : SaveData.t) (e : Enemy.t) (dt : Qc)
  (v : option Z) :
  tickWith dps (SaveData.set_lastSeen s v) e dt
  = SaveData.set_lastSeen (tickWith dps s e dt) v.
Proof.
  unfold tickWith.
  destruct (Enemy.isBoss (applyDamage dps e dt));
    [destruct (Enemy.bossTimeLeft (applyDamage dps e dt)) |];
    try apply resolveKill_lastSeen.
  destruct (decide _); [reflexivity | apply resolveKill_lastSeen].
Qed.

Lemma tickKill_heroes (s : SaveData.t) (e : Enemy.t) :
  SaveData.heroes (tickKill s e) = SaveData.heroes s.
Proof.
  unfold tickKill.
  destruct (Enemy.isBoss e); [| destruct (decide _)]; reflexivity.
Qed.

Lemma tickWith_heroes (dps : Qc) (s : SaveData.t) (e : Enemy.t) (dt : Qc) :
  SaveData.heroes (tickWith dps s e dt) = SaveData.heroes s.
Proof.
  assert (Hres : forall e' : Enemy.t,
             SaveData.heroes (resolveKill s e') = SaveData.heroes s).
  { intros e'. unfold resolveKill. destruct (decide _); [| reflexivity].
    apply (tickKill_heroes (SaveData.set_enemy s (Some e')) e'). }
  unfold tickWith.
  destruct (Enemy.isBoss (applyDamage dps e dt));
    [destruct (Enemy.bossTimeLeft (applyDamage dps e dt)) |];
    try apply Hres.
  destruct (decide _); [reflexivity | apply Hres].
Qed.

Lemma tick_tickWith (now : Z) (dps : Qc) (s : SaveData.t) (e : Enemy.t) (dt : Qc) :
  SaveData.enemy s = Some e ->
  totalDps (SaveData.heroes s) = Some dps ->
  tick now s dt = Some (SaveData.set_lastSeen (tickWith dps s e dt) (Some now)).
Proof.
  intros He Hdps. unfold tick. rsimpl. rewrite He, Hdps, tickWith_lastSeen.
  reflexivity.
Qed.















(** * Further properties of the component *)

(** ** Further properties of [bulkCost] *)

Lemma bulkCost_naive (base growth : Qc) (currentLevel qty : Z) :
  growth <> 0 \/ (0 <= currentLevel)%Z ->
  bulkCost base growth currentLevel qty = naiveCost base growth currentLevel qty.
Proof.
  intros Hdom.
  assert (Hsplit : forall i : nat,
             levelPrice base growth (currentLevel + Z.of_nat i)
             = base * Num.pow growth currentLevel * Num.pow growth (Z.of_nat i)).
  { intros i. unfold levelPrice. rewrite pow_add; [ring |].
    destruct Hdom; [left; assumption | right; lia]. }
  unfold bulkCost, naiveCost.
  destruct (decide (qty ≤ 0)%Z) as [Hq | Hq].
  - replace (Z.to_nat qty) with O by lia. reflexivity.
  - rewrite (sumTo_ext _ _ _ (fun i _ => Hsplit i)).
    destruct (decide (growth = 1)) as [-> | Hg].
    + rewrite (sumTo_ext _ _ (fun _ => base * Num.pow 1 currentLevel)).
      * rewrite sumTo_const. rewrite Z2Nat.id by lia. reflexivity.
      * intros i _. cbv beta. rewrite !pow_1_l. ring.
    + rewrite sumTo_geometric by exact Hg.
      rewrite Z2Nat.id by lia. reflexivity.
Qed.

Lemma sumTo_app (n m : nat) (f : nat -> Qc) :
  sumTo (n + m) f = sumTo n f + sumTo m (fun i => f (n + i)%nat).
Proof.
  induction m as [| m IH].
  - rewrite Nat.add_0_r. cbn. ring.
  - rewrite Nat.add_succ_r. cbn [sumTo]. rewrite IH. ring.
Qed.

Lemma sumTo_nonneg (n : nat) (f : nat -> Qc) :
  (forall i, (i < n)%nat -> 0 ≤ f i) -> 0 ≤ sumTo n f.
Proof.
  induction n as [| n IH]; intros Hf; cbn [sumTo]; [apply Qcle_refl |].
  assert (0 ≤ sumTo n f) by (apply IH; intros; apply Hf; lia).
  assert (0 ≤ f n) by (apply Hf; lia).
  qc_lra.
Qed.

Lemma levelPrice_pos (base growth : Qc) (level : Z) :
  0 < base -> 0 < growth -> 0 < levelPrice base growth level.
Proof.
  intros Hb Hg. unfold levelPrice.
  apply Qcmult_pos_pos; [exact Hb | apply pow_pos; exact Hg].
Qed.

Lemma pos_nonzero (x : Qc) : 0 < x -> x <> 0.
Proof. intros H ->. exact (Qc_lt_irrefl _ H). Qed.

Lemma bulkCost_add (base growth : Qc) (level q1 q2 : Z) :
  growth <> 0 \/ (0 <= level)%Z -> (0 <= q1)%Z -> (0 <= q2)%Z ->
  bulkCost base growth level (q1 + q2)
  = bulkCost base growth level q1 + bulkCost base growth (level + q1) q2.
Proof.
  intros Hdom H1 H2.
  rewrite !bulkCost_naive by (destruct Hdom; [left; assumption | right; lia]).
  unfold naiveCost. rewrite Z2Nat.inj_add by lia. rewrite sumTo_app.
  f_equal. apply sumTo_ext. intros i _. f_equal. lia.
Qed.

Lemma bulkCost_nonneg (base growth : Qc) (level qty : Z) :
  0 < base -> 0 < growth -> 0 ≤ bulkCost base growth level qty.
Proof.
  intros Hb Hg. rewrite bulkCost_naive by (left; apply pos_nonzero; exact Hg).
  apply sumTo_nonneg. intros i _. apply Qclt_le_weak, levelPrice_pos; assumption.
Qed.

Lemma bulkCost_one (base growth : Qc) (level : Z) :
  growth <> 0 \/ (0 <= level)%Z ->
  bulkCost base growth level 1 = levelPrice base growth level.
Proof.
  intros Hdom. rewrite bulkCost_naive by exact Hdom.
  unfold naiveCost. change (Z.to_nat 1) with 1%nat. cbn [sumTo].
  replace (level + Z.of_nat 0)%Z with level by lia. ring.
Qed.

Lemma bulkCost_mono (base growth : Qc) (level qty qty' : Z) :
  0 < base -> 0 < growth -> (qty <= qty')%Z ->
  bulkCost base growth level qty ≤ bulkCost base growth level qty'.
Proof.
  intros Hb Hg Hq. destruct (decide (qty ≤ 0)%Z) as [Hq0 | Hq0].
  - assert (E : bulkCost base growth level qty = 0).
    { unfold bulkCost. destruct (decide (qty ≤ 0)%Z); [reflexivity | lia]. }
    rewrite E. apply bulkCost_nonneg; assumption.
  - replace qty' with (qty + (qty' - qty))%Z by lia.
    rewrite bulkCost_add by (try lia; left; apply pos_nonzero; exact Hg).
    pose proof (bulkCost_nonneg base growth (level + qty) (qty' - qty) Hb Hg).
    qc_lra.
Qed.

Lemma bulkCost_pos (base growth : Qc) (level qty : Z) :
  0 < base -> 0 < growth -> (0 < qty)%Z -> 0 < bulkCost base growth level qty.
Proof.
  intros Hb Hg Hq.
  pose proof (bulkCost_mono base growth level 1 qty Hb Hg ltac:(lia)) as Hle.
  rewrite bulkCost_one in Hle by (left; apply pos_nonzero; exact Hg).
  pose proof (levelPrice_pos base growth level Hb Hg) as Hp.
  qc_lra.
Qed.

(** X1.  Splitting a bulk purchase changes nothing: the price of
    [q1 + q2] levels from a level is the price of [q1] levels from there
    plus the price of [q2] levels from [q1] levels higher (whole
    quantities that are not negative; a non-zero growth ratio or a level
    that is not negative, as the prices must be finite). *)
Theorem bulkCost_split (base growth : Qc) (level q1 q2 : Z) :
  growth <> 0 \/ (0 <= level)%Z -> (0 <= q1)%Z -> (0 <= q2)%Z ->
  bulkCost base growth level (q1 + q2)
  = bulkCost base growth level q1 + bulkCost base growth (level + q1) q2.
Proof.
  intros Hdom H1 H2.
  rewrite !bulkCost_naive by (destruct Hdom; [left; assumption | right; lia]).
  unfold naiveCost. rewrite Z2Nat.inj_add by lia. rewrite sumTo_app.
  f_equal. apply sumTo_ext. intros i _. f_equal. lia.
Qed.

Lemma bulkCost_split_witness :
  bulkCost CLICK.baseCost CLICK.growth 0 (10 + 90)
  = bulkCost CLICK.baseCost CLICK.growth 0 10
    + bulkCost CLICK.baseCost CLICK.growth (0 + 10) 90.
Proof.
  apply (bulkCost_split CLICK.baseCost CLICK.growth 0 10 90).
  - right. lia.
  - lia.
  - lia.
Defined.

(** X2.  With a positive base price and a positive growth ratio the price
    of a purchase is never negative, it is positive for a positive
    quantity, and a larger quantity never costs less. *)
Theorem bulkCost_monotone (base growth : Qc) (level qty qty' : Z) :
  0 < base -> 0 < growth ->
  0 ≤ bulkCost base growth level qty
  /\ ((0 < qty)%Z -> 0 < bulkCost base growth level qty)
  /\ ((qty <= qty')%Z ->
      bulkCost base growth level qty ≤ bulkCost base growth level qty').
Proof.
  intros Hb Hg. split; [apply bulkCost_nonneg; assumption |].
  split; [apply bulkCost_pos; assumption |].
  apply bulkCost_mono; assumption.
Qed.

Lemma bulkCost_monotone_witness :
  0 ≤ bulkCost CLICK.baseCost CLICK.growth 4 10
  /\ ((0 < 10)%Z -> 0 < bulkCost CLICK.baseCost CLICK.growth 4 10)
  /\ ((10 <= 100)%Z ->
      bulkCost CLICK.baseCost CLICK.growth 4 10
      ≤ bulkCost CLICK.baseCost CLICK.growth 4 100).
Proof.
  apply (bulkCost_monotone CLICK.baseCost CLICK.growth 4 10 100).
  - qc_closed.
  - qc_closed.
Defined.

(** ** The tables of constants *)

Lemma heroesById_spec (id : Z) (h : HeroDef.t) :
  heroesById id = Some h -> In h HEROES /\ HeroDef.id h = id.
Proof.
  unfold heroesById. intros H. apply List.find_some in H as [Hin Hid].
  split; [exact Hin |]. apply bool_decide_eq_true in Hid. exact Hid.
Qed.

Lemma HEROES_positive :
  Forall (fun h => 0 < HeroDef.baseCost h /\ 1 ≤ HeroDef.growth h
                   /\ 0 < HeroDef.baseDps h) HEROES.
Proof. repeat constructor; qc_closed. Qed.

Lemma hero_positive (h : HeroDef.t) :
  In h HEROES ->
  0 < HeroDef.baseCost h /\ 1 ≤ HeroDef.growth h /\ 0 < HeroDef.baseDps h.
Proof.
  intros Hin. pose proof HEROES_positive as HF.
  rewrite List.Forall_forall in HF. apply HF. exact Hin.
Qed.

Lemma HEROES_ids (h : HeroDef.t) : In h HEROES -> heroesById (HeroDef.id h) = Some h.
Proof.
  intros Hin. cbn in Hin.
  repeat (destruct Hin as [<- | Hin]; [reflexivity |]). contradiction.
Qed.

Lemma click_cost_pos : 0 < CLICK.baseCost /\ 0 < CLICK.growth.
Proof. split; qc_closed. Qed.

(** ** Purchases in sequence *)

(** X3.  Click upgrades bought in two steps are the same purchase as in
    one: when the gold covers [q1 + q2] levels, buying [q1] and then [q2]
    ends in the state that buying [q1 + q2] at once ends in. *)
Theorem click_upgrades_in_steps (s : SaveData.t) (q1 q2 : Z) :
  (0 <= q1)%Z -> (0 <= q2)%Z ->
  ~ SaveData.gold s
    < bulkCost CLICK.baseCost CLICK.growth (SaveData.clickLevel s - 1) (q1 + q2) ->
  buyClickUpgrade q2 (buyClickUpgrade q1 s) = buyClickUpgrade (q1 + q2) s.
Proof.
  intros H1 H2 Hgold. destruct click_cost_pos as [Hb Hg].
  pose proof (bulkCost_add CLICK.baseCost CLICK.growth
                (SaveData.clickLevel s - 1) q1 q2
                (or_introl (pos_nonzero _ Hg)) H1 H2) as Hadd.
  pose proof (bulkCost_nonneg CLICK.baseCost CLICK.growth
                (SaveData.clickLevel s - 1 + q1) q2 Hb Hg) as Hc2.
  unfold buyClickUpgrade at 2 3.
  destruct (decide (SaveData.gold s < bulkCost _ _ _ (q1 + q2)))
    as [Hno | _]; [contradiction |].
  destruct (decide (SaveData.gold s < bulkCost _ _ _ q1)) as [Hno | _].
  { exfalso. apply Hgold. rewrite Hadd. qc_lra. }
  unfold buyClickUpgrade, SaveData.set_clickLevel. runfold.
  replace (SaveData.clickLevel s + q1 - 1)%Z
    with (SaveData.clickLevel s - 1 + q1)%Z by lia.
  destruct (decide _) as [Hno | _].
  { exfalso. apply Hgold. rewrite Hadd. qc_lra. }
  rewrite Hadd. f_equal; [ring | lia].
Qed.

Lemma click_upgrades_in_steps_witness :
  buyClickUpgrade 2 (buyClickUpgrade 1 rich_example)
  = buyClickUpgrade (1 + 2) rich_example.
Proof.
  apply (click_upgrades_in_steps rich_example 1 2).
  - lia.
  - lia.
  - unfold Qclt. vm_compute. discriminate.
Defined.

Lemma bump_bump (heroId q1 q2 : Z) (heroes : list HeroState.t) :
  List.map
    (fun hs =>
       if decide (HeroState.id hs = heroId)
       then HeroState.make (HeroState.id hs) (HeroState.level hs + q2)
       else hs)
    (List.map
       (fun hs =>
          if decide (HeroState.id hs = heroId)
          then HeroState.make (HeroState.id hs) (HeroState.level hs + q1)
          else hs) heroes)
  = List.map
      (fun hs =>
         if decide (HeroState.id hs = heroId)
         then HeroState.make (HeroState.id hs) (HeroState.level hs + (q1 + q2))
         else hs) heroes.
Proof.
  rewrite List.map_map. apply List.map_ext. intros hs.
  destruct (decide (HeroState.id hs = heroId)) as [Hid | Hid]; rsimpl.
  - destruct (decide _); [| contradiction]. f_equal. lia.
  - destruct (decide _); [contradiction | reflexivity].
Qed.

Lemma heroLevels_bump (s : SaveData.t) (heroId qty : Z) (gold : Qc) :
  is_Some (List.find (fun h => bool_decide (HeroState.id h = heroId))
                     (SaveData.heroes s)) ->
  heroLevels
    (SaveData.set_heroes (SaveData.set_gold s gold)
       (List.map
          (fun hs =>
             if decide (HeroState.id hs = heroId)
             then HeroState.make (HeroState.id hs) (HeroState.level hs + qty)
             else hs) (SaveData.heroes s))) heroId
  = (heroLevels s heroId + qty)%Z.
Proof.
  intros [hs Hfind]. unfold heroLevels. rsimpl.
  rewrite find_map_same_id by (intros h; destruct (decide _); reflexivity).
  rewrite Hfind. cbn [fmap option_fmap option_map].
  apply List.find_some in Hfind as [_ Hid].
  apply bool_decide_eq_true in Hid.
  destruct (decide _); [reflexivity | contradiction].
Qed.

(** X4.  Hero levels bought in two steps are the same purchase as in one:
    for a hero of the table that has an entry in the state, when the gold
    covers [q1 + q2] levels, the first purchase goes through and the
    second, made from the state it gives, ends in the state that buying
    [q1 + q2] at once ends in. *)
Theorem hero_levels_in_steps (s : SaveData.t) (heroId q1 q2 : Z) (hero : HeroDef.t) :
  heroesById heroId = Some hero ->
  is_Some (List.find (fun h => bool_decide (HeroState.id h = heroId))
                     (SaveData.heroes s)) ->
  (0 <= q1)%Z -> (0 <= q2)%Z ->
  ~ SaveData.gold s
    < bulkCost (HeroDef.baseCost hero) (HeroDef.growth hero)
               (heroLevels s heroId) (q1 + q2) ->
  exists s1,
    buyHeroLevels s heroId q1 s = Some s1
    /\ heroLevels s1 heroId = (heroLevels s heroId + q1)%Z
    /\ buyHeroLevels s1 heroId q2 s1 = buyHeroLevels s heroId (q1 + q2) s.
Proof.
  intros Hhero Hentry H1 H2 Hgold.
  destruct (heroesById_spec _ _ Hhero) as [Hin _].
  destruct (hero_positive hero Hin) as (Hb & Hg1 & _).
  assert (Hg : 0 < HeroDef.growth hero) by qc_lra.
  pose proof (bulkCost_add (HeroDef.baseCost hero) (HeroDef.growth hero)
                (heroLevels s heroId) q1 q2
                (or_introl (pos_nonzero _ Hg)) H1 H2) as Hadd.
  pose proof (bulkCost_nonneg (HeroDef.baseCost hero) (HeroDef.growth hero)
                (heroLevels s heroId + q1) q2 Hb Hg) as Hc2.
  unfold buyHeroLevels at 1 3. rewrite Hhero.
  destruct (decide (SaveData.gold s < bulkCost _ _ _ (q1 + q2)))
    as [Hno | _]; [contradiction |].
  destruct (decide (SaveData.gold s < bulkCost _ _ _ q1)) as [Hno | _].
  { exfalso. apply Hgold. rewrite Hadd. qc_lra. }
  eexists. split; [reflexivity |].
  split; [apply heroLevels_bump; exact Hentry |].
  unfold buyHeroLevels. rewrite Hhero, heroLevels_bump by exact Hentry.
  unfold SaveData.set_heroes. runfold.
  destruct (decide _) as [Hno | _].
  { exfalso. apply Hgold. rewrite Hadd. qc_lra. }
  rewrite bump_bump, Hadd. do 2 f_equal. ring.
Qed.

Lemma hero_levels_in_steps_witness :
  exists s1,
    buyHeroLevels veteran_example 1 1 veteran_example = Some s1
    /\ heroLevels s1 1 = (heroLevels veteran_example 1 + 1)%Z
    /\ buyHeroLevels s1 1 2 s1 = buyHeroLevels veteran_example 1 (1 + 2) veteran_example.
Proof.
  apply (hero_levels_in_steps veteran_example 1 1 2
           (HeroDef.make 1 "Squire" (Num.z2q 1) (Num.z2q 50) (Num.dec 107 100)
              "Swings a rusty sword.")).
  - reflexivity.
  - eexists. reflexivity.
  - lia.
  - lia.
  - unfold Qclt. vm_compute. discriminate.
Defined.

(** ** Damage per second *)

Lemma heroesById_known (id : Z) : is_Some (heroesById id) <-> (1 <= id <= 10)%Z.
Proof.
  split.
  - intros [h H]. apply heroesById_spec in H as [Hin <-]. cbn in Hin.
    repeat (destruct Hin as [<- | Hin]; [cbn; lia |]). contradiction.
  - intros H.
    assert (Hcases : (id = 1 \/ id = 2 \/ id = 3 \/ id = 4 \/ id = 5 \/ id = 6
                      \/ id = 7 \/ id = 8 \/ id = 9 \/ id = 10)%Z) by lia.
    repeat (destruct Hcases as [-> | Hcases]; [eexists; reflexivity |]).
    subst id. eexists; reflexivity.
Qed.

Lemma dpsFrom_shift (a c : Qc) (heroes : list HeroState.t) :
  dpsFrom (a + c) heroes = (fun d => d + c) <$> dpsFrom a heroes.
Proof.
  revert a. induction heroes as [| hs rest IH]; intros a; [reflexivity |].
  cbn [dpsFrom]. destruct (heroesById (HeroState.id hs)) as [def |]; [| reflexivity].
  rewrite <- IH. f_equal. ring.
Qed.

Lemma totalDps_cons (hs : HeroState.t) (rest : list HeroState.t) :
  totalDps (hs :: rest)
  = match heroesById (HeroState.id hs) with
    | Some def =>
        (fun d => d + HeroDef.baseDps def * Num.z2q (HeroState.level hs))
        <$> totalDps rest
    | None => None
    end.
Proof.
  unfold totalDps. cbn [dpsFrom].
  destruct (heroesById (HeroState.id hs)) as [def |]; [| reflexivity].
  rewrite <- dpsFrom_shift. f_equal; ring.
Qed.

Lemma totalDps_known (heroes : list HeroState.t) :
  is_Some (totalDps heroes) <-> knownHeroes heroes.
Proof.
  unfold knownHeroes. induction heroes as [| hs rest IH].
  - split; [constructor | eexists; reflexivity].
  - rewrite totalDps_cons, List.Forall_cons_iff, <- IH, <- heroesById_known.
    destruct (heroesById (HeroState.id hs)) as [def |].
    + rewrite fmap_is_Some. split; [intros H; split; [eexists; reflexivity | exact H] | intros [_ H]; exact H].
    + split; [intros [x Hx]; discriminate | intros [[x Hx] _]; discriminate].
Qed.

(** X5.  The damage per second is defined exactly when every hero id of
    the state is one of the table (1 to 10).  [tick] throws exactly when
    there is an encounter and some id is not of the table, and
    [simulateOffline] exactly when some id is not. *)
Theorem dps_defined_for_known_heroes
  (now : Z) (s : SaveData.t) (dt seconds : Qc) :
  (is_Some (totalDps (SaveData.heroes s)) <-> knownHeroes (SaveData.heroes s))
  /\ (tick now s dt = None
      <-> is_Some (SaveData.enemy s) /\ ~ knownHeroes (SaveData.heroes s))
  /\ (simulateOffline now s seconds = None
      <-> ~ knownHeroes (SaveData.heroes s)).
Proof.
  pose proof (totalDps_known (SaveData.heroes s)) as Hk.
  split; [exact Hk |]. split.
  - unfold tick. rsimpl. destruct (SaveData.enemy s) as [e |].
    + destruct (totalDps (SaveData.heroes s)) as [dps |].
      * split; [discriminate |]. intros [_ Hn]. exfalso. apply Hn, Hk. eexists; reflexivity.
      * split; [| reflexivity]. intros _. split; [eexists; reflexivity |].
        intros H. apply Hk in H as [x Hx]. discriminate.
    + split; [discriminate |]. intros [[x Hx] _]. discriminate.
  - unfold simulateOffline.
    assert (Hh : SaveData.heroes
                   match SaveData.enemy s with
                   | Some _ => s
                   | None =>
                       SaveData.set_enemy s
                         (Some (makeEnemy (SaveData.floor s) false))
                   end = SaveData.heroes s)
      by (destruct (SaveData.enemy s); reflexivity).
    rewrite Hh. destruct (totalDps (SaveData.heroes s)) as [dps |].
    + split.
      * destruct (decide _); discriminate.
      * intros Hn. exfalso. apply Hn, Hk. eexists; reflexivity.
    + split; [| reflexivity]. intros _ H. apply Hk in H as [x Hx]. discriminate.
Qed.

Lemma entriesOf_cons (heroId : Z) (hs : HeroState.t) (rest : list HeroState.t) :
  entriesOf heroId (hs :: rest)
  = ((if decide (HeroState.id hs = heroId) then 1 else 0)
     + entriesOf heroId rest)%Z.
Proof.
  unfold entriesOf. cbn [List.filter].
  destruct (decide (HeroState.id hs = heroId)) as [H | H].
  - rewrite bool_decide_eq_true_2 by exact H. cbn [length]. lia.
  - rewrite bool_decide_eq_false_2 by exact H. lia.
Qed.

Lemma totalDps_bump (heroId qty : Z) (hero : HeroDef.t)
  (heroes : list HeroState.t) (d : Qc) :
  heroesById heroId = Some hero ->
  totalDps heroes = Some d ->
  totalDps
    (List.map
       (fun hs =>
          if decide (HeroState.id hs = heroId)
          then HeroState.make (HeroState.id hs) (HeroState.level hs + qty)
          else hs) heroes)
  = Some (d + HeroDef.baseDps hero * Num.z2q qty
              * Num.z2q (entriesOf heroId heroes)).
Proof.
  intros Hhero. revert d. induction heroes as [| hs rest IH]; intros d Hd.
  - injection Hd as <-. cbn [List.map]. unfold totalDps. cbn [dpsFrom]. f_equal.
    change (entriesOf heroId []) with 0%Z. rewrite z2q_0. ring.
  - cbn [List.map]. rewrite totalDps_cons in *. rewrite entriesOf_cons.
    destruct (decide (HeroState.id hs = heroId)) as [Hid | Hid]; rsimpl.
    + rewrite Hid in *. rewrite Hhero in *.
      destruct (totalDps rest) as [d0 |]; [| discriminate].
      cbn in Hd. injection Hd as <-.
      rewrite (IH d0 eq_refl). cbn. f_equal.
      rewrite !z2q_add, z2q_1. ring.
    + destruct (heroesById (HeroState.id hs)) as [def |]; [| discriminate].
      destruct (totalDps rest) as [d0 |]; [| discriminate].
      cbn in Hd. injection Hd as <-.
      rewrite (IH d0 eq_refl). cbn. f_equal. rewrite Z.add_0_l. ring.
Qed.

(** X6.  A hero purchase that goes through raises the damage per second
    by [qty * baseDps] of that hero for every entry the hero has in the
    state (one, in the states the game builds), and leaves the
    contribution of the other heroes as it is. *)
Theorem dps_after_hero_purchase
  (save s : SaveData.t) (heroId qty : Z) (hero : HeroDef.t) (d : Qc) :
  heroesById heroId = Some hero ->
  totalDps (SaveData.heroes s) = Some d ->
  ~ SaveData.gold s
    < bulkCost (HeroDef.baseCost hero) (HeroDef.growth hero)
               (heroLevels save heroId) qty ->
  exists s',
    buyHeroLevels save heroId qty s = Some s'
    /\ totalDps (SaveData.heroes s')
       = Some (d + HeroDef.baseDps hero * Num.z2q qty
                   * Num.z2q (entriesOf heroId (SaveData.heroes s))).
Proof.
  intros Hhero Hd Hgold. unfold buyHeroLevels. rewrite Hhero.
  destruct (decide _) as [Hno | _]; [contradiction |].
  eexists. split; [reflexivity |].
  unfold SaveData.set_heroes. rsimpl.
  apply totalDps_bump; assumption.
Qed.

Lemma dps_after_hero_purchase_witness :
  exists s',
    buyHeroLevels veteran_example 2 3 veteran_example = Some s'
    /\ totalDps (SaveData.heroes s')
       = Some (Num.z2q 7 + Num.z2q 5 * Num.z2q 3
                 * Num.z2q (entriesOf 2 (SaveData.heroes veteran_example))).
Proof.
  apply (dps_after_hero_purchase veteran_example veteran_example 2 3
           (HeroDef.make 2 "Archer" (Num.z2q 5) (Num.z2q 250) (Num.dec 108 100)
              "Never misses. Often.") (Num.z2q 7)).
  - reflexivity.
  - apply (f_equal Some). qc_closed.
  - unfold Qclt. vm_compute. discriminate.
Defined.

(** ** States with sound numbers *)

Lemma z2q_le (a b : Z) : (a <= b)%Z -> Num.z2q a ≤ Num.z2q b.
Proof.
  intros H. unfold Qcle. rewrite !this_z2q. rewrite <- Zle_Qle. exact H.
Qed.

Lemma max_0_le (x y : Qc) : x ≤ y -> 0 ≤ y -> Num.max 0 x ≤ y.
Proof.
  intros Hx Hy. unfold Num.max. destruct (decide (0 ≤ x)); assumption.
Qed.

Lemma reward_factor_pos (floor : Z) :
  (1 <= floor)%Z ->
  0 < ENEMY.perKillGoldPct * (1 + Num.z2q floor * Num.dec 2 100).
Proof.
  intros Hf. pose proof (z2q_le 1 floor Hf) as Hz. rewrite z2q_1 in Hz.
  apply Qcmult_pos_pos; [qc_closed |].
  assert (0 ≤ Num.z2q floor * Num.dec 2 100)
    by (apply Qcmult_nonneg_nonneg; [qc_lra | qc_closed]).
  qc_lra.
Qed.

Lemma goldRewardFor_nonneg (e : Enemy.t) (floor : Z) :
  0 ≤ Enemy.maxHp e -> (1 <= floor)%Z -> 0 ≤ goldRewardFor e floor.
Proof.
  intros Hm Hf. pose proof (reward_factor_pos floor Hf) as Hk.
  assert (Hbase : 0 ≤ Enemy.maxHp e * ENEMY.perKillGoldPct
                      * (1 + Num.z2q floor * Num.dec 2 100)).
  { rewrite <- Qcmult_assoc.
    apply Qcmult_nonneg_nonneg; [exact Hm | apply Qclt_le_weak, Hk]. }
  unfold goldRewardFor. destruct (Enemy.isBoss e); [| exact Hbase].
  apply Qcmult_nonneg_nonneg; [exact Hbase | qc_closed].
Qed.

Lemma goldRewardFor_pos (e : Enemy.t) (floor : Z) :
  0 < Enemy.maxHp e -> (1 <= floor)%Z -> 0 < goldRewardFor e floor.
Proof.
  intros Hm Hf. pose proof (reward_factor_pos floor Hf) as Hk.
  assert (Hbase : 0 < Enemy.maxHp e * ENEMY.perKillGoldPct
                      * (1 + Num.z2q floor * Num.dec 2 100)).
  { rewrite <- Qcmult_assoc. apply Qcmult_pos_pos; assumption. }
  unfold goldRewardFor. destruct (Enemy.isBoss e); [| exact Hbase].
  apply Qcmult_pos_pos; [exact Hbase | qc_closed].
Qed.

Lemma earns_refl (s : SaveData.t) : earns s s.
Proof. unfold earns. split; [apply Qcle_refl | ring]. Qed.

Lemma earns_trans (a b c : SaveData.t) : earns a b -> earns b c -> earns a c.
Proof. unfold earns. intros [H1 H2] [H3 H4]. split; qc_lra. Qed.

Lemma earns_lifetime (s s' : SaveData.t) :
  earns s s' -> SaveData.lifetimeGold s ≤ SaveData.lifetimeGold s'.
Proof. unfold earns. intros [H1 H2]. qc_lra. Qed.

Lemma makeEnemy_sane (floor : Z) (boss : bool) : saneEnemy (makeEnemy floor boss).
Proof.
  pose proof (makeEnemy_maxHp_pos floor boss) as Hpos.
  unfold saneEnemy. rewrite makeEnemy_hp.
  split; [exact Hpos |]. split; [apply Qclt_le_weak, Hpos |].
  split; [apply Qcle_refl |].
  destruct boss; cbn [makeEnemy Enemy.bossTimeLeft]; [| exact I].
  split; [qc_closed | apply Qcle_refl].
Qed.

Lemma sane_set_enemy (s : SaveData.t) (e : Enemy.t) :
  sane s -> saneEnemy e -> sane (SaveData.set_enemy s (Some e)).
Proof. unfold sane. intros (Hg & Hl & Hf & _) He. rsimpl. auto. Qed.

Lemma sane_enemy (s : SaveData.t) (e : Enemy.t) :
  sane s -> SaveData.enemy s = Some e -> saneEnemy e.
Proof. unfold sane. intros (_ & _ & _ & H) He. rewrite He in H. exact H. Qed.

Lemma tickKill_sane (s : SaveData.t) (e : Enemy.t) :
  sane s -> 0 ≤ Enemy.maxHp e ->
  sane (tickKill s e) /\ earns s (tickKill s e).
Proof.
  intros (Hg & Hl & Hf & _) Hm.
  pose proof (goldRewardFor_nonneg e (SaveData.floor s) Hm Hf) as Hr.
  destruct (tickKill_gold s e) as [Eg El].
  pose proof (tickKill_floor s e) as Ef.
  destruct (tickKill_enemy_fresh s e) as (f & b & Ee).
  unfold sane, earns. rewrite Eg, El, Ef, Ee.
  split; [| split; qc_lra].
  split; [qc_lra |]. split; [qc_lra |].
  split; [destruct (Enemy.isBoss e); lia | apply makeEnemy_sane].
Qed.

Lemma bossEscape_sane (s : SaveData.t) :
  sane s -> sane (bossEscape s) /\ earns s (bossEscape s).
Proof.
  intros (Hg & Hl & Hf & _). unfold bossEscape, sane, earns. rsimpl.
  split; [| split; [apply Qcle_refl | ring]].
  split; [exact Hg |]. split; [exact Hl |].
  split; [lia | apply makeEnemy_sane].
Qed.

Lemma resolveKill_sane (s : SaveData.t) (e : Enemy.t) :
  sane s -> saneEnemy e ->
  sane (resolveKill s e) /\ earns s (resolveKill s e).
Proof.
  intros Hs He. pose proof (sane_set_enemy s e Hs He) as Hs'.
  unfold resolveKill. destruct (decide _).
  - destruct (tickKill_sane (SaveData.set_enemy s (Some e)) e Hs') as [H1 H2].
    { apply Qclt_le_weak, He. }
    split; [exact H1 | exact H2].
  - split; [exact Hs' | exact (earns_refl s)].
Qed.

Lemma damage_sane (e : Enemy.t) (x : Qc) :
  saneEnemy e -> 0 ≤ x ->
  saneEnemy (Enemy.set_hp e (Num.max 0 (Enemy.hp e - x))).
Proof.
  intros (Hm & H0 & Hle & Ht) Hx. unfold saneEnemy. rsimpl.
  split; [exact Hm |]. split; [apply max_0_ge |].
  split; [apply max_0_le; qc_lra | exact Ht].
Qed.

Lemma applyDamage_sane (dps : Qc) (e : Enemy.t) (dt : Qc) :
  0 ≤ dt -> saneEnemy e -> saneEnemy (applyDamage dps e dt).
Proof.
  intros Hdt He. unfold applyDamage.
  destruct (decide _) as [[Hdps _] | _]; [| exact He].
  apply damage_sane; [exact He |].
  apply Qcmult_nonneg_nonneg; [apply Qclt_le_weak, Hdps | exact Hdt].
Qed.

Lemma tickWith_sane (dps : Qc) (s : SaveData.t) (e : Enemy.t) (dt : Qc) :
  0 ≤ dt -> sane s -> SaveData.enemy s = Some e ->
  sane (tickWith dps s e dt) /\ earns s (tickWith dps s e dt).
Proof.
  intros Hdt Hs He.
  pose proof (applyDamage_sane dps e dt Hdt (sane_enemy s e Hs He)) as H1.
  unfold tickWith.
  destruct (Enemy.isBoss (applyDamage dps e dt));
    [| apply resolveKill_sane; assumption].
  destruct (Enemy.bossTimeLeft (applyDamage dps e dt)) as [t |] eqn:Ht;
    [| apply resolveKill_sane; assumption].
  destruct (decide _); [apply bossEscape_sane; exact Hs |].
  apply resolveKill_sane; [exact Hs |].
  destruct H1 as (Hm & H0 & Hle & Htm). rewrite Ht in Htm.
  destruct Htm as [Ht0 Ht1]. unfold saneEnemy. rsimpl.
  split; [exact Hm |]. split; [exact H0 |]. split; [exact Hle |].
  split; [apply max_0_ge | apply max_0_le; [qc_lra | qc_closed]].
Qed.

Lemma sane_set_lastSeen (s : SaveData.t) (v : option Z) :
  sane s -> sane (SaveData.set_lastSeen s v).
Proof. intros H. exact H. Qed.

Lemma tick_sane (now : Z) (s s' : SaveData.t) (dt : Qc) :
  0 ≤ dt -> sane s -> tick now s dt = Some s' ->
  sane s' /\ earns s s'.
Proof.
  intros Hdt Hs. unfold tick. rsimpl.
  destruct (SaveData.enemy s) as [e |] eqn:He.
  - destruct (totalDps (SaveData.heroes s)) as [dps |]; [| discriminate].
    intros [= <-].
    apply (tickWith_sane dps (SaveData.set_lastSeen s (Some now)) e dt Hdt);
      [exact Hs | exact He].
  - intros [= <-]. split; [| exact (earns_refl s)].
    unfold sane. rsimpl. rewrite He. destruct Hs as (Hg & Hl & Hf & _). auto.
Qed.

(** X7.  [tick] keeps the numbers of the state sound.  From a state with
    gold between 0 and the gold ever earned, a floor of at least 1 and an
    encounter with a positive maximum, hp between 0 and the maximum and a
    boss timer between 0 and 30 seconds, a step of a duration that is not
    negative ends in such a state again; gold has not decreased, and gold
    and the gold ever earned have grown by the same amount. *)
Theorem tick_keeps_sane (now : Z) (s s' : SaveData.t) (dt : Qc) :
  0 ≤ dt -> sane s -> tick now s dt = Some s' ->
  sane s' /\ earns s s'.
Proof.
  intros Hdt Hs. unfold tick. rsimpl.
  destruct (SaveData.enemy s) as [e |] eqn:He.
  - destruct (totalDps (SaveData.heroes s)) as [dps |]; [| discriminate].
    intros [= <-].
    apply (tickWith_sane dps (SaveData.set_lastSeen s (Some now)) e dt Hdt);
      [exact Hs | exact He].
  - intros [= <-]. split; [| exact (earns_refl s)].
    unfold sane. rsimpl. rewrite He. destruct Hs as (Hg & Hl & Hf & _). auto.
Qed.

Lemma iter_onKill_sane (n : nat) (L : Locals.t) (e : Enemy.t) :
  sane (Locals.s L) -> 0 ≤ Enemy.maxHp e ->
  sane (Locals.s (Nat.iter n (fun L' => onKill L' e) L))
  /\ earns (Locals.s L) (Locals.s (Nat.iter n (fun L' => onKill L' e) L)).
Proof.
  intros Hs Hm. induction n as [| n [IH1 IH2]].
  - split; [exact Hs | apply earns_refl].
  - rewrite Nat.iter_succ, onKill_state.
    destruct (tickKill_sane _ e IH1 Hm) as [H1 H2].
    split; [exact H1 | exact (earns_trans _ _ _ IH2 H2)].
Qed.

Lemma loopBody_sane (dps : Qc) (L : Locals.t) (e : Enemy.t) :
  0 < dps -> 0 < Locals.timeLeft L ->
  sane (Locals.s L) -> SaveData.enemy (Locals.s L) = Some e ->
  sane (Locals.s (flowLocals (loopBody dps L e)))
  /\ earns (Locals.s L) (Locals.s (flowLocals (loopBody dps L e))).
Proof.
  intros Hdps HT Hs He.
  pose proof (sane_enemy _ _ Hs He) as Hse.
  assert (Hm : 0 ≤ Enemy.maxHp e) by (apply Qclt_le_weak, Hse).
  assert (Hx : 0 ≤ dps * Locals.timeLeft L)
    by (apply Qclt_le_weak, Qcmult_pos_pos; assumption).
  assert (Hkill : forall t : Qc,
             sane (Locals.s (onKill (spend L t) e))
             /\ earns (Locals.s L) (Locals.s (onKill (spend L t) e))).
  { intros t. rewrite onKill_state. exact (tickKill_sane (Locals.s L) e Hs Hm). }
  assert (Hpartial :
            sane (Locals.s (partialDamage dps L e))
            /\ earns (Locals.s L) (Locals.s (partialDamage dps L e))).
  { split; [| exact (earns_refl (Locals.s L))].
    exact (sane_set_enemy _ _ Hs (damage_sane e _ Hse Hx)). }
  unfold loopBody. destruct (Enemy.isBoss e); cbn [negb].
  - destruct (decide _); [apply Hkill |].
    destruct (decide _) as [Hlt | _]; cbn [flowLocals].
    + split; [| exact (earns_refl (Locals.s L))].
      apply (sane_set_enemy _ _ Hs).
      pose proof (damage_sane e _ Hse Hx) as (H1 & H2 & H3 & _).
      destruct Hse as (_ & _ & _ & Ht).
      unfold saneEnemy. rsimpl.
      split; [exact H1 |]. split; [exact H2 |]. split; [exact H3 |].
      destruct (Enemy.bossTimeLeft e) as [t |]; cbn [default from_option id] in *.
      * destruct Ht as [Ht0 Ht1]. split; qc_lra.
      * exfalso. qc_lra.
    + exact (bossEscape_sane (Locals.s L) Hs).
  - destruct (decide _); [destruct (decide _); [apply Hkill | apply Hpartial] |].
    destruct (decide _).
    + cbn [flowLocals].
      exact (iter_onKill_sane _ (spend L _) e Hs Hm).
    + destruct (decide _); [apply Hkill | apply Hpartial].
Qed.

Lemma loop_sane (dps : Qc) (safety : nat) (L : Locals.t) :
  0 < dps -> sane (Locals.s L) ->
  sane (Locals.s (loop dps safety L))
  /\ earns (Locals.s L) (Locals.s (loop dps safety L)).
Proof.
  intros Hdps. revert L. induction safety as [| n IH]; intros L Hs.
  - split; [exact Hs | apply earns_refl].
  - cbn [loop].
    destruct (decide _) as [HT | _]; [| split; [exact Hs | apply earns_refl]].
    destruct (SaveData.enemy (Locals.s L)) as [e |] eqn:He;
      [| split; [exact Hs | apply earns_refl]].
    pose proof (loopBody_sane dps L e Hdps HT Hs He) as [H1 H2].
    destruct (loopBody dps L e) as [L1 | L1]; cbn [flowLocals] in *.
    + destruct (IH L1 H1) as [H3 H4].
      split; [exact H3 | exact (earns_trans _ _ _ H2 H4)].
    + split; assumption.
Qed.

Lemma spawnIfAbsent_sane (s : SaveData.t) :
  sane s -> sane (spawnIfAbsent s) /\ earns s (spawnIfAbsent s).
Proof.
  intros Hs. unfold spawnIfAbsent.
  destruct (SaveData.enemy s); split;
    [exact Hs | apply earns_refl
     | apply sane_set_enemy; [exact Hs | apply makeEnemy_sane]
     | exact (earns_refl s)].
Qed.

Lemma simulateOffline_sane
  (now : Z) (s s' : SaveData.t) (seconds : Qc) (r : Report.t) :
  sane s -> simulateOffline now s seconds = Some (s', r) ->
  sane s' /\ earns s s'.
Proof.
  intros Hs. unfold simulateOffline. fold (spawnIfAbsent s).
  generalize safetyLimit. intros fuel.
  destruct (spawnIfAbsent_sane s Hs) as [H0 E0].
  destruct (totalDps _) as [dps |]; [| discriminate].
  destruct (decide _) as [_ | Hgo]; intros [= <- _].
  - split; [exact H0 | exact E0].
  - assert (Hdps : 0 < dps).
    { apply Qcnot_le_lt. intros H. apply Hgo. left. exact H. }
    destruct (loop_sane dps fuel (Locals.make (spawnIfAbsent s) seconds 0 0 0)
                Hdps H0) as [H1 H2].
    split; [exact H1 | exact (earns_trans _ _ _ E0 H2)].
Qed.

(** X8.  [simulateOffline] keeps the numbers of the state sound: from a
    state with gold between 0 and the gold ever earned, a floor of at
    least 1 and an encounter with hp between 0 and a positive maximum and
    a boss timer between 0 and 30 seconds, it returns such a state again,
    for every number of seconds; gold has not decreased, and gold and the
    gold ever earned have grown by the same amount. *)
Theorem simulateOffline_keeps_sane
  (now : Z) (s s' : SaveData.t) (seconds : Qc) (r : Report.t) :
  sane s -> simulateOffline now s seconds = Some (s', r) ->
  sane s' /\ earns s s'.
Proof.
  intros Hs. unfold simulateOffline. fold (spawnIfAbsent s).
  generalize safetyLimit. intros fuel.
  destruct (spawnIfAbsent_sane s Hs) as [H0 E0].
  destruct (totalDps _) as [dps |]; [| discriminate].
  destruct (decide _) as [_ | Hgo]; intros [= <- _].
  - split; [exact H0 | exact E0].
  - assert (Hdps : 0 < dps).
    { apply Qcnot_le_lt. intros H. apply Hgo. left. exact H. }
    destruct (loop_sane dps fuel (Locals.make (spawnIfAbsent s) seconds 0 0 0)
                Hdps H0) as [H1 H2].
    split; [exact H1 | exact (earns_trans _ _ _ E0 H2)].
Qed.

(** The manual attack resolves a kill with the code of [tick]. *)
Lemma attack_resolveKill (damage : Qc) (s : SaveData.t) :
  attack damage s
  = match SaveData.enemy s with
    | Some e =>
        resolveKill s (Enemy.set_hp e (Num.max 0 (Enemy.hp e - damage)))
    | None => s
    end.
Proof.
  unfold attack, resolveKill, tickKill.
  destruct (SaveData.enemy s) as [e |]; [| reflexivity]. rsimpl.
  destruct (decide _); [| reflexivity].
  destruct (Enemy.isBoss e); [reflexivity |].
  destruct (decide _); reflexivity.
Qed.

Lemma attack_sane (damage : Qc) (s : SaveData.t) :
  0 ≤ damage -> sane s -> sane (attack damage s) /\ earns s (attack damage s).
Proof.
  intros Hd Hs. rewrite attack_resolveKill.
  destruct (SaveData.enemy s) as [e |] eqn:He;
    [| split; [exact Hs | apply earns_refl]].
  apply resolveKill_sane; [exact Hs |].
  apply damage_sane; [exact (sane_enemy s e Hs He) | exact Hd].
Qed.

Lemma clickDamage_pos (clickLevel : Z) : 0 < clickDamage clickLevel.
Proof.
  unfold clickDamage.
  apply Qcmult_pos_pos; [qc_closed | apply pow_pos; qc_closed].
Qed.

Lemma handleClick_sane (save s : SaveData.t) :
  sane s -> sane (handleClick save s) /\ earns s (handleClick save s).
Proof.
  intros Hs. unfold handleClick.
  destruct (SaveData.enemy save) as [e |];
    [| split; [exact Hs | apply earns_refl]].
  destruct (decide _); [split; [exact Hs | apply earns_refl] |].
  apply attack_sane; [apply Qclt_le_weak, clickDamage_pos | exact Hs].
Qed.

Lemma spend_sane (s : SaveData.t) (cost : Qc) :
  sane s -> 0 ≤ cost -> ~ SaveData.gold s < cost ->
  sane (SaveData.set_gold s (SaveData.gold s - cost)).
Proof.
  intros (Hg & Hl & Hrest) Hc Hno. apply Qcnot_lt_le in Hno.
  unfold sane. rsimpl. split; [qc_lra |]. split; [qc_lra | exact Hrest].
Qed.

Lemma buyClickUpgrade_sane (qty : Z) (s : SaveData.t) :
  sane s ->
  sane (buyClickUpgrade qty s)
  /\ SaveData.lifetimeGold (buyClickUpgrade qty s) = SaveData.lifetimeGold s.
Proof.
  intros Hs. destruct click_cost_pos as [Hb Hg]. unfold buyClickUpgrade.
  destruct (decide _) as [| Hno]; [split; [exact Hs | reflexivity] |].
  split; [| reflexivity].
  exact (spend_sane s _ Hs (bulkCost_nonneg _ _ _ _ Hb Hg) Hno).
Qed.

Lemma buyHeroLevels_sane (save : SaveData.t) (heroId qty : Z) (s s' : SaveData.t) :
  sane s -> buyHeroLevels save heroId qty s = Some s' ->
  sane s' /\ SaveData.lifetimeGold s' = SaveData.lifetimeGold s.
Proof.
  intros Hs. unfold buyHeroLevels.
  destruct (heroesById heroId) as [hero |] eqn:Hhero; [| discriminate].
  destruct (heroesById_spec _ _ Hhero) as [Hin _].
  destruct (hero_positive hero Hin) as (Hb & Hg1 & _).
  assert (Hg : 0 < HeroDef.growth hero) by qc_lra.
  destruct (decide _) as [| Hno]; intros [= <-];
    [split; [exact Hs | reflexivity] |].
  split; [| reflexivity].
  exact (spend_sane s _ Hs (bulkCost_nonneg _ _ _ _ Hb Hg) Hno).
Qed.

Lemma resetProgress_sane (save : SaveData.t) :
  sane save -> forall confirmed, sane (resetProgress confirmed save).
Proof.
  intros Hs [|]; [| exact Hs]. unfold resetProgress, sane. rsimpl.
  split; [apply Qcle_refl |]. split; [apply Qcle_refl |].
  split; [lia | apply makeEnemy_sane].
Qed.

(** X9.  The clicks, the purchases, the reset and the encounter that
    fills an empty slot keep the numbers of the state sound.  A manual
    attack never lowers gold, and adds the same amount to gold and to the
    gold ever earned; a purchase never takes gold below 0 and never
    changes the gold ever earned. *)
Theorem clicks_and_purchases_keep_sane (save s : SaveData.t) :
  sane s ->
  (sane (handleClick save s) /\ earns s (handleClick save s))
  /\ (forall qty,
         sane (buyClickUpgrade qty s)
         /\ SaveData.lifetimeGold (buyClickUpgrade qty s)
            = SaveData.lifetimeGold s)
  /\ (forall heroId qty s',
         buyHeroLevels save heroId qty s = Some s' ->
         sane s' /\ SaveData.lifetimeGold s' = SaveData.lifetimeGold s)
  /\ (forall confirmed, sane (resetProgress confirmed s))
  /\ sane (spawnIfAbsent s).
Proof.
  intros Hs.
  split; [apply handleClick_sane; exact Hs |].
  split; [intros qty; apply buyClickUpgrade_sane; exact Hs |].
  split; [intros heroId qty s'; apply buyHeroLevels_sane; exact Hs |].
  split; [apply resetProgress_sane; exact Hs |].
  apply spawnIfAbsent_sane; exact Hs.
Qed.

Lemma veteran_example_sane : sane veteran_example.
Proof.
  unfold sane, veteran_example. rsimpl.
  split; [qc_closed |]. split; [qc_closed |]. split; [lia | apply makeEnemy_sane].
Qed.

Lemma tick_keeps_sane_witness :
  exists s',
    tick 0 veteran_example (Num.dec 1 20) = Some s'
    /\ sane s' /\ earns veteran_example s'.
Proof.
  eexists. split; [vm_compute; reflexivity |].
  apply (tick_keeps_sane 0 veteran_example _ (Num.dec 1 20)).
  - qc_closed.
  - exact veteran_example_sane.
  - vm_compute. reflexivity.
Defined.

Lemma simulateOffline_keeps_sane_witness :
  exists s' r,
    simulateOffline 0 veteran_example (Num.z2q 60) = Some (s', r)
    /\ sane s' /\ earns veteran_example s'.
Proof.
  eexists _, _. split; [vm_compute; reflexivity |].
  eapply (simulateOffline_keeps_sane 0 veteran_example _ (Num.z2q 60)).
  - exact veteran_example_sane.
  - vm_compute. reflexivity.
Defined.

Lemma clicks_and_purchases_keep_sane_witness :
  sane (handleClick veteran_example veteran_example)
  /\ sane (buyClickUpgrade 10 veteran_example).
Proof.
  destruct (clicks_and_purchases_keep_sane veteran_example veteran_example
              veteran_example_sane) as ([H1 _] & H2 & _).
  split; [exact H1 | exact (proj1 (H2 10%Z))].
Defined.

(** ** The encounter matches the floor *)

Lemma genuine_fresh (s : SaveData.t) (b : bool) :
  genuine (SaveData.set_enemy s (Some (makeEnemy (SaveData.floor s) b))).
Proof.
  unfold genuine. rsimpl. split; [reflexivity |].
  destruct b; cbn [makeEnemy Enemy.bossTimeLeft Enemy.isBoss].
  - split; [reflexivity | eexists; reflexivity].
  - split; [intros [x Hx]; discriminate | discriminate].
Qed.

Lemma tickKill_genuine (s : SaveData.t) (e : Enemy.t) : genuine (tickKill s e).
Proof.
  unfold tickKill. destruct (Enemy.isBoss e); [| destruct (decide _)];
    match goal with |- genuine (SaveData.set_enemy ?s' _) =>
      exact (genuine_fresh s' _) end.
Qed.

Lemma bossEscape_genuine (s : SaveData.t) : genuine (bossEscape s).
Proof.
  unfold bossEscape.
  match goal with |- genuine (SaveData.set_enemy ?s' _) =>
    exact (genuine_fresh s' _) end.
Qed.

Lemma genuine_set_enemy (s : SaveData.t) (e e' : Enemy.t) :
  genuine s -> SaveData.enemy s = Some e ->
  Enemy.maxHp e' = Enemy.maxHp e -> Enemy.isBoss e' = Enemy.isBoss e ->
  (is_Some (Enemy.bossTimeLeft e') <-> is_Some (Enemy.bossTimeLeft e)) ->
  genuine (SaveData.set_enemy s (Some e')).
Proof.
  unfold genuine. intros Hg He Hm Hb Ht. rewrite He in Hg. rsimpl.
  rewrite Hm, Hb, Ht. exact Hg.
Qed.

Lemma resolveKill_genuine (s : SaveData.t) (e : Enemy.t) :
  genuine (SaveData.set_enemy s (Some e)) -> genuine (resolveKill s e).
Proof.
  intros H. unfold resolveKill.
  destruct (decide _); [apply tickKill_genuine | exact H].
Qed.

Lemma tickWith_genuine (dps : Qc) (s : SaveData.t) (e : Enemy.t) (dt : Qc) :
  genuine s -> SaveData.enemy s = Some e -> genuine (tickWith dps s e dt).
Proof.
  intros Hg He.
  assert (H1 : genuine (SaveData.set_enemy s (Some (applyDamage dps e dt)))).
  { apply (genuine_set_enemy s e); auto using applyDamage_maxHp, applyDamage_isBoss.
    rewrite applyDamage_bossTimeLeft. reflexivity. }
  unfold tickWith.
  destruct (Enemy.isBoss (applyDamage dps e dt)) eqn:Hb;
    [| apply resolveKill_genuine; exact H1].
  destruct (Enemy.bossTimeLeft (applyDamage dps e dt)) as [t |] eqn:Ht;
    [| apply resolveKill_genuine; exact H1].
  destruct (decide _); [apply bossEscape_genuine |].
  apply resolveKill_genuine.
  apply (genuine_set_enemy s e); rsimpl;
    auto using applyDamage_maxHp, applyDamage_isBoss.
  rewrite <- (applyDamage_bossTimeLeft dps e dt), Ht.
  split; intros _; eexists; reflexivity.
Qed.

Lemma iter_onKill_genuine (n : nat) (L : Locals.t) (e : Enemy.t) :
  genuine (Locals.s L) ->
  genuine (Locals.s (Nat.iter n (fun L' => onKill L' e) L)).
Proof.
  intros H. destruct n as [| n]; [exact H |].
  rewrite Nat.iter_succ, onKill_state. apply tickKill_genuine.
Qed.

Lemma loopBody_genuine (dps : Qc) (L : Locals.t) (e : Enemy.t) :
  genuine (Locals.s L) -> SaveData.enemy (Locals.s L) = Some e ->
  genuine (Locals.s (flowLocals (loopBody dps L e))).
Proof.
  intros Hg He.
  assert (Hkill : forall t : Qc, genuine (Locals.s (onKill (spend L t) e))).
  { intros t. rewrite onKill_state. apply tickKill_genuine. }
  assert (Hpartial : genuine (Locals.s (partialDamage dps L e))).
  { apply (genuine_set_enemy (Locals.s L) e); auto; reflexivity. }
  unfold loopBody. destruct (Enemy.isBoss e) eqn:Hb; cbn [negb].
  - destruct (decide _); [apply Hkill |].
    destruct (decide _) as [Hlt | _]; cbn [flowLocals].
    + apply (genuine_set_enemy (Locals.s L) e); auto; rsimpl.
      unfold genuine in Hg. rewrite He in Hg. destruct Hg as [_ Hg].
      rewrite Hg, Hb. split; intros _; [reflexivity | eexists; reflexivity].
    + apply bossEscape_genuine.
  - destruct (decide _); [destruct (decide _); [apply Hkill | apply Hpartial] |].
    destruct (decide _).
    + cbn [flowLocals]. apply (iter_onKill_genuine _ (spend L _) e). exact Hg.
    + destruct (decide _); [apply Hkill | apply Hpartial].
Qed.

Lemma loop_genuine (dps : Qc) (safety : nat) (L : Locals.t) :
  genuine (Locals.s L) -> genuine (Locals.s (loop dps safety L)).
Proof.
  revert L. induction safety as [| n IH]; intros L Hg; [exact Hg |].
  cbn [loop]. destruct (decide _); [| exact Hg].
  destruct (SaveData.enemy (Locals.s L)) as [e |] eqn:He; [| exact Hg].
  pose proof (loopBody_genuine dps L e Hg He) as H1.
  destruct (loopBody dps L e) as [L1 | L1]; cbn [flowLocals] in H1;
    [apply IH |]; exact H1.
Qed.

Lemma spawnIfAbsent_genuine (s : SaveData.t) : genuine s -> genuine (spawnIfAbsent s).
Proof.
  intros Hg. unfold spawnIfAbsent.
  destruct (SaveData.enemy s); [exact Hg | apply genuine_fresh].
Qed.

Lemma simulateOffline_genuine
  (now : Z) (s s' : SaveData.t) (seconds : Qc) (r : Report.t) :
  genuine s -> simulateOffline now s seconds = Some (s', r) -> genuine s'.
Proof.
  intros Hg. unfold simulateOffline. fold (spawnIfAbsent s).
  generalize safetyLimit. intros fuel.
  pose proof (spawnIfAbsent_genuine s Hg) as H0.
  destruct (totalDps _) as [dps |]; [| discriminate].
  destruct (decide _); intros [= <- _]; [exact H0 |].
  exact (loop_genuine dps fuel (Locals.make (spawnIfAbsent s) seconds 0 0 0) H0).
Qed.

Lemma attack_genuine (damage : Qc) (s : SaveData.t) :
  genuine s -> genuine (attack damage s).
Proof.
  intros Hg. rewrite attack_resolveKill.
  destruct (SaveData.enemy s) as [e |] eqn:He; [| exact Hg].
  apply resolveKill_genuine.
  apply (genuine_set_enemy s e); auto; reflexivity.
Qed.

(** X10.  The encounter always matches the floor.  If the encounter of a
    state has the maximum hp the factory gives on the floor of the state
    (a regular enemy's, or a boss's if it is a boss) and a timer exactly if
    it is a boss, then so has the encounter of the state after [tick],
    after [simulateOffline], after a click, after a purchase and after a
    reset; the encounter that fills an empty slot has. *)
Theorem encounter_matches_floor (save s : SaveData.t) :
  genuine s ->
  (forall now dt s', tick now s dt = Some s' -> genuine s')
  /\ (forall now seconds s' r,
         simulateOffline now s seconds = Some (s', r) -> genuine s')
  /\ genuine (handleClick save s)
  /\ (forall qty, genuine (buyClickUpgrade qty s))
  /\ (forall heroId qty s',
         buyHeroLevels save heroId qty s = Some s' -> genuine s')
  /\ (forall confirmed, genuine (resetProgress confirmed s))
  /\ genuine (spawnIfAbsent s).
Proof.
  intros Hg. split; [| split; [| split; [| split; [| split; [| split]]]]].
  - intros now dt s'. unfold tick. rsimpl.
    destruct (SaveData.enemy s) as [e |] eqn:He.
    + destruct (totalDps _) as [dps |]; [| discriminate]. intros [= <-].
      apply tickWith_genuine; [exact Hg | exact He].
    + intros [= <-]. exact Hg.
  - intros now seconds s' r. apply simulateOffline_genuine. exact Hg.
  - unfold handleClick. destruct (SaveData.enemy save); [| exact Hg].
    destruct (decide _); [exact Hg | apply attack_genuine; exact Hg].
  - intros qty. unfold buyClickUpgrade. destruct (decide _); exact Hg.
  - intros heroId qty s'. unfold buyHeroLevels.
    destruct (heroesById heroId); [| discriminate].
    destruct (decide _); intros [= <-]; exact Hg.
  - intros [|]; [| exact Hg]. exact (genuine_fresh (SaveData.make 0 0 1 1 0 _ None None) false).
  - apply spawnIfAbsent_genuine. exact Hg.
Qed.

Lemma veteran_example_genuine : genuine veteran_example.
Proof. exact (genuine_fresh veteran_example false). Qed.

Lemma encounter_matches_floor_witness :
  genuine (handleClick veteran_example veteran_example)
  /\ genuine (spawnIfAbsent veteran_example).
Proof.
  destruct (encounter_matches_floor veteran_example veteran_example
              veteran_example_genuine) as (_ & _ & H1 & _ & _ & _ & H2).
  split; [exact H1 | exact H2].
Defined.

(** ** Hero ids and exceptions *)

Lemma replay_heroes (evs : list Event) (s : SaveData.t) :
  SaveData.heroes (replay evs s) = SaveData.heroes s.
Proof.
  revert s. induction evs as [| ev evs IH]; intros s; [reflexivity |].
  change (replay (ev :: evs) s) with (replay evs (applyEvent s ev)).
  rewrite IH. destruct ev as [e |]; [apply tickKill_heroes | reflexivity].
Qed.

Lemma loop_heroes (dps : Qc) (safety : nat) (L : Locals.t) :
  SaveData.heroes (Locals.s (loop dps safety L)) = SaveData.heroes (Locals.s L).
Proof.
  destruct (loop_explains dps safety L) as (evs & Hs & _).
  destruct (sameButEnemy_fields _ _ Hs) as (_ & _ & _ & _ & _ & Hh & _).
  rewrite Hh. apply replay_heroes.
Qed.

Lemma spawnIfAbsent_heroes (s : SaveData.t) :
  SaveData.heroes (spawnIfAbsent s) = SaveData.heroes s.
Proof. unfold spawnIfAbsent. destruct (SaveData.enemy s); reflexivity. Qed.

Lemma simulateOffline_total (now : Z) (s : SaveData.t) (seconds : Qc) :
  knownHeroes (SaveData.heroes s) ->
  exists s' r,
    simulateOffline now s seconds = Some (s', r)
    /\ SaveData.heroes s' = SaveData.heroes s.
Proof.
  intros Hk. apply totalDps_known in Hk as [dps Hdps].
  unfold simulateOffline. fold (spawnIfAbsent s).
  generalize safetyLimit. intros fuel.
  rewrite spawnIfAbsent_heroes, Hdps.
  destruct (decide _); eexists _, _; (split; [reflexivity |]); rsimpl.
  - apply spawnIfAbsent_heroes.
  - rewrite loop_heroes. apply spawnIfAbsent_heroes.
Qed.

Lemma tick_total (now : Z) (s : SaveData.t) (dt : Qc) :
  knownHeroes (SaveData.heroes s) ->
  exists s', tick now s dt = Some s' /\ SaveData.heroes s' = SaveData.heroes s.
Proof.
  intros Hk. apply totalDps_known in Hk as [dps Hdps].
  unfold tick. rsimpl. destruct (SaveData.enemy s) as [e |].
  - rewrite Hdps. eexists. split; [reflexivity |].
    exact (tickWith_heroes dps (SaveData.set_lastSeen s (Some now)) e dt).
  - eexists. split; reflexivity.
Qed.

Lemma resolveKill_heroes (s : SaveData.t) (e : Enemy.t) :
  SaveData.heroes (resolveKill s e) = SaveData.heroes s.
Proof.
  unfold resolveKill. destruct (decide _); [| reflexivity].
  apply (tickKill_heroes (SaveData.set_enemy s (Some e)) e).
Qed.

Lemma handleClick_heroes (save s : SaveData.t) :
  SaveData.heroes (handleClick save s) = SaveData.heroes s.
Proof.
  unfold handleClick. destruct (SaveData.enemy save); [| reflexivity].
  destruct (decide _); [reflexivity |]. rewrite attack_resolveKill.
  destruct (SaveData.enemy s); [apply resolveKill_heroes | reflexivity].
Qed.

Lemma table_heroes_known :
  knownHeroes (List.map (fun h => HeroState.make (HeroDef.id h) 0) HEROES).
Proof. unfold knownHeroes. repeat constructor; cbn; lia. Qed.

(** X11.  The game never meets a hero it does not know.  When the hero
    ids of a state are of the table, [tick] and [simulateOffline] return
    (they do not throw) and keep the hero list, a click and a click
    upgrade keep it, and a hero purchase keeps the ids; the new game and
    the reset start with the ids of the table. *)
Theorem heroes_stay_known (save s : SaveData.t) :
  knownHeroes (SaveData.heroes s) ->
  (forall now dt,
      exists s', tick now s dt = Some s'
                 /\ SaveData.heroes s' = SaveData.heroes s)
  /\ (forall now seconds,
         exists s' r, simulateOffline now s seconds = Some (s', r)
                      /\ SaveData.heroes s' = SaveData.heroes s)
  /\ SaveData.heroes (handleClick save s) = SaveData.heroes s
  /\ (forall qty, SaveData.heroes (buyClickUpgrade qty s) = SaveData.heroes s)
  /\ (forall heroId qty s',
         buyHeroLevels save heroId qty s = Some s' ->
         List.map HeroState.id (SaveData.heroes s')
         = List.map HeroState.id (SaveData.heroes s)
         /\ knownHeroes (SaveData.heroes s'))
  /\ (forall confirmed,
         knownHeroes (SaveData.heroes (resetProgress confirmed s)))
  /\ (forall now, knownHeroes (SaveData.heroes (initialSave now))).
Proof.
  intros Hk. split; [| split; [| split; [| split; [| split; [| split]]]]].
  - intros now dt. apply tick_total. exact Hk.
  - intros now seconds. apply simulateOffline_total. exact Hk.
  - apply handleClick_heroes.
  - intros qty. unfold buyClickUpgrade. destruct (decide _); reflexivity.
  - intros heroId qty s'. unfold buyHeroLevels.
    destruct (heroesById heroId); [| discriminate].
    destruct (decide _); intros [= <-]; [split; [reflexivity | exact Hk] |].
    unfold SaveData.set_heroes. rsimpl.
    assert (Hids :
              List.map HeroState.id
                (List.map
                   (fun hs =>
                      if decide (HeroState.id hs = heroId)
                      then HeroState.make (HeroState.id hs)
                             (HeroState.level hs + qty)
                      else hs) (SaveData.heroes s))
              = List.map HeroState.id (SaveData.heroes s)).
    { rewrite List.map_map. apply List.map_ext. intros hs.
      destruct (decide _); reflexivity. }
    split; [exact Hids |].
    unfold knownHeroes in *. rewrite List.Forall_forall in *.
    intros hs' Hin. apply List.in_map_iff in Hin as (hs & <- & Hin).
    specialize (Hk hs Hin). destruct (decide _); exact Hk.
  - intros [|]; [exact table_heroes_known | exact Hk].
  - intros now. exact table_heroes_known.
Qed.

Lemma veteran_example_known : knownHeroes (SaveData.heroes veteran_example).
Proof. unfold knownHeroes. repeat constructor; cbn; lia. Qed.

Lemma heroes_stay_known_witness :
  exists s', tick 0 veteran_example 1 = Some s'
             /\ SaveData.heroes s' = SaveData.heroes veteran_example.
Proof.
  destruct (heroes_stay_known veteran_example veteran_example
              veteran_example_known) as (H & _).
  exact (H 0%Z 1).
Defined.

(** ** The gates of the buy buttons *)

Lemma pow_ge_1 (g : Qc) (n : Z) : 1 ≤ g -> (0 <= n)%Z -> 1 ≤ Num.pow g n.
Proof.
  intros Hg Hn. rewrite <- (Z2Nat.id n) by exact Hn.
  induction (Z.to_nat n) as [| k IH].
  - change (Z.of_nat 0) with 0%Z. rewrite pow_0_r. apply Qcle_refl.
  - replace (Z.of_nat (S k)) with (Z.of_nat k + 1)%Z by lia.
    rewrite pow_add by (right; lia). rewrite pow_1_r.
    assert (H : 0 ≤ (Num.pow g (Z.of_nat k) - 1) * g)
      by (apply Qcmult_nonneg_nonneg; qc_lra).
    qc_lra.
Qed.

Lemma unlockable_mono (s s' : SaveData.t) (h : HeroDef.t) :
  SaveData.lifetimeGold s ≤ SaveData.lifetimeGold s' ->
  unlockable s h = true -> unlockable s' h = true.
Proof.
  unfold unlockable. intros Hle H. apply bool_decide_eq_true in H.
  apply bool_decide_eq_true. qc_lra.
Qed.

(** X12.  A hero that is unlocked stays unlocked.  From a state with
    sound numbers, no step of the game ([tick] with a duration that is not
    negative, [simulateOffline], a click, a purchase) lowers the gold ever
    earned, so the test [lifetimeGold >= baseCost * 0.8] of a hero row
    stays true once it is. *)
Theorem unlock_is_permanent (save s : SaveData.t) (h : HeroDef.t) :
  sane s -> unlockable s h = true ->
  (forall now dt s',
      0 ≤ dt -> tick now s dt = Some s' -> unlockable s' h = true)
  /\ (forall now seconds s' r,
         simulateOffline now s seconds = Some (s', r) -> unlockable s' h = true)
  /\ unlockable (handleClick save s) h = true
  /\ (forall qty, unlockable (buyClickUpgrade qty s) h = true)
  /\ (forall heroId qty s',
         buyHeroLevels save heroId qty s = Some s' -> unlockable s' h = true).
Proof.
  intros Hs Hu. split; [| split; [| split; [| split]]].
  - intros now dt s' Hdt Ht.
    destruct (tick_sane now s s' dt Hdt Hs Ht) as [_ He].
    exact (unlockable_mono s s' h (earns_lifetime _ _ He) Hu).
  - intros now seconds s' r Ho.
    destruct (simulateOffline_sane now s s' seconds r Hs Ho) as [_ He].
    exact (unlockable_mono s s' h (earns_lifetime _ _ He) Hu).
  - destruct (handleClick_sane save s Hs) as [_ He].
    exact (unlockable_mono _ _ h (earns_lifetime _ _ He) Hu).
  - intros qty. destruct (buyClickUpgrade_sane qty s Hs) as [_ He].
    apply (unlockable_mono s); [rewrite He; apply Qcle_refl | exact Hu].
  - intros heroId qty s' Hb.
    destruct (buyHeroLevels_sane save heroId qty s s' Hs Hb) as [_ He].
    apply (unlockable_mono s); [rewrite He; apply Qcle_refl | exact Hu].
Qed.

Lemma unlock_is_permanent_witness :
  unlockable (handleClick veteran_example veteran_example)
    (HeroDef.make 3 "Mage" (Num.z2q 25) (Num.z2q 1000) (Num.dec 109 100)
       "Practices safe fireballs.") = true.
Proof.
  destruct (unlock_is_permanent veteran_example veteran_example
              (HeroDef.make 3 "Mage" (Num.z2q 25) (Num.z2q 1000)
                 (Num.dec 109 100) "Practices safe fireballs.")
              veteran_example_sane) as (_ & _ & H & _).
  - vm_compute. reflexivity.
  - exact H.
Defined.

(** X13.  The gold test of a hero button implies its unlock test.  In a
    state with sound numbers, for a hero of the table at a level that is
    not negative and a quantity of at least 1: if the gold covers the
    price, the hero is unlocked, the button is enabled, and the purchase
    made from this state goes through and takes exactly the price. *)
Theorem affordable_hero_is_unlocked (s : SaveData.t) (h : HeroDef.t) (qty : Z) :
  sane s -> In h HEROES ->
  (0 <= heroLevels s (HeroDef.id h))%Z -> (1 <= qty)%Z ->
  let cost :=
    bulkCost (HeroDef.baseCost h) (HeroDef.growth h)
             (heroLevels s (HeroDef.id h)) qty in
  canAfford s cost = true ->
  unlockable s h = true
  /\ heroButtonDisabled s h qty = false
  /\ exists s',
       buyHeroLevels s (HeroDef.id h) qty s = Some s'
       /\ SaveData.gold s' = SaveData.gold s - cost.
Proof.
  intros (Hg & Hl & _) Hin Hlev Hq cost Hafford.
  destruct (hero_positive h Hin) as (Hb & Hg1 & _).
  assert (Hgr : 0 < HeroDef.growth h) by qc_lra.
  pose proof Hafford as Hcost. apply bool_decide_eq_true in Hcost.
  assert (Hu : unlockable s h = true).
  { apply bool_decide_eq_true.
    pose proof (bulkCost_mono (HeroDef.baseCost h) (HeroDef.growth h)
                  (heroLevels s (HeroDef.id h)) 1 qty Hb Hgr Hq) as Hmono.
    rewrite bulkCost_one in Hmono by (left; apply pos_nonzero; exact Hgr).
    fold cost in Hmono. unfold levelPrice in Hmono.
    pose proof (pow_ge_1 (HeroDef.growth h) _ Hg1 Hlev) as Hp.
    assert (H : 0 ≤ HeroDef.baseCost h
                    * (Num.pow (HeroDef.growth h) (heroLevels s (HeroDef.id h)) - 1))
      by (apply Qcmult_nonneg_nonneg; qc_lra).
    qc_lra. }
  split; [exact Hu |]. split.
  - unfold heroButtonDisabled. fold cost. rewrite Hu, Hafford. reflexivity.
  - unfold buyHeroLevels. rewrite (HEROES_ids h Hin). fold cost.
    destruct (decide _) as [Hno | _]; [exfalso; qc_lra |].
    eexists. split; reflexivity.
Qed.

Lemma affordable_hero_is_unlocked_witness :
  unlockable veteran_example
    (HeroDef.make 1 "Squire" (Num.z2q 1) (Num.z2q 50) (Num.dec 107 100)
       "Swings a rusty sword.") = true.
Proof.
  apply (affordable_hero_is_unlocked veteran_example
           (HeroDef.make 1 "Squire" (Num.z2q 1) (Num.z2q 50) (Num.dec 107 100)
              "Swings a rusty sword.") 10).
  - exact veteran_example_sane.
  - left. reflexivity.
  - vm_compute. discriminate.
  - lia.
  - vm_compute. reflexivity.
Defined.

(** ** The offline catch-up *)

Lemma offlineElapsed_bounds (now : Z) (lastSeen : option Z) :
  0 ≤ offlineElapsed now lastSeen
  /\ offlineElapsed now lastSeen ≤ OFFLINE.maxSeconds.
Proof.
  unfold offlineElapsed. split; [apply max_0_ge |].
  apply max_0_le; [| qc_closed].
  unfold Num.min. destruct (decide _) as [H | H]; [exact H | apply Qcle_refl].
Qed.

Lemma min_l (a b : Qc) : a ≤ b -> Num.min a b = a.
Proof. intros H. unfold Num.min. destruct (decide _); [reflexivity | contradiction]. Qed.

Lemma min_r (a b : Qc) : b ≤ a -> Num.min a b = b.
Proof.
  intros H. unfold Num.min. destruct (decide _) as [H' | _]; [| reflexivity].
  apply Qcle_antisym; assumption.
Qed.

Lemma div_1000 (x : Qc) : x / Num.z2q 1000 = x * Num.dec 1 1000.
Proof. apply Qc_is_canon. qc_push. unfold inject_Z. field. Qed.

Lemma offlineElapsed_value (now last : Z) :
  offlineElapsed now (Some last)
  = if decide (now <= last)%Z then 0
    else if decide (now - last <= 43200000)%Z
         then Num.z2q (now - last) / Num.z2q 1000
         else Num.z2q 43200.
Proof.
  unfold offlineElapsed, OFFLINE.maxSeconds. cbn [default from_option id].
  change (12 * 60 * 60)%Z with 43200%Z.
  destruct (decide (now ≤ last)%Z) as [Hle | Hgt]; rewrite ?div_1000.
  - pose proof (z2q_le (now - last) 0 ltac:(lia)) as Hz.
    generalize dependent (Num.z2q (now - last)). intros d Hz.
    rewrite min_l by qc_lra. apply max_0_nonpos. qc_lra.
  - pose proof (z2q_le 1 (now - last) ltac:(lia)) as Hz.
    destruct (decide (now - last ≤ 43200000)%Z) as [Hcap | Hcap].
    + pose proof (z2q_le (now - last) 43200000 Hcap) as Hc.
      generalize dependent (Num.z2q (now - last)). intros d Hz Hc.
      rewrite min_l by qc_lra. apply max_0_nonneg. qc_lra.
    + pose proof (z2q_le 43200001 (now - last) ltac:(lia)) as Hc.
      generalize dependent (Num.z2q (now - last)). intros d Hz Hc.
      rewrite min_r by qc_lra. apply max_0_nonneg. qc_closed.
Qed.

(** X14.  The time the catch-up credits.  It is 0 when the state has no
    [lastSeen] or when the clock is not past it; otherwise it is the
    milliseconds since [lastSeen] divided by 1000, but at most 12 hours
    (43200 seconds).  It is therefore never negative and never above 12
    hours, and it is below 1 second exactly when less than 1000
    milliseconds have passed. *)
Theorem offline_time_is_capped (now : Z) (lastSeen : option Z) :
  0 ≤ offlineElapsed now lastSeen
  /\ offlineElapsed now lastSeen ≤ Num.z2q 43200
  /\ (lastSeen = None -> offlineElapsed now lastSeen = 0)
  /\ (forall last, lastSeen = Some last ->
        ((now <= last)%Z -> offlineElapsed now lastSeen = 0)
        /\ ((last <= now <= last + 43200000)%Z ->
            offlineElapsed now lastSeen
            = Num.z2q (now - last) / Num.z2q 1000)
        /\ ((last + 43200000 <= now)%Z ->
            offlineElapsed now lastSeen = Num.z2q 43200)
        /\ (offlineElapsed now lastSeen < 1 <-> (now - last < 1000)%Z)).
Proof.
  destruct (offlineElapsed_bounds now lastSeen) as [H0 H1].
  split; [exact H0 |]. split; [exact H1 |]. split.
  - intros ->. unfold offlineElapsed. cbn [default from_option id].
    rewrite Z.sub_diag. qc_closed.
  - intros last ->. rewrite offlineElapsed_value.
    split; [| split; [| split]].
    + intros H. destruct (decide _); [reflexivity | lia].
    + intros H. destruct (decide (now ≤ last)%Z) as [Hle | _].
      * replace (now - last)%Z with 0%Z by lia. qc_closed.
      * destruct (decide _); [reflexivity | lia].
    + intros H. destruct (decide (now ≤ last)%Z) as [Hle | _]; [lia |].
      destruct (decide _) as [Heq | _]; [| reflexivity].
      replace (now - last)%Z with 43200000%Z by lia. qc_closed.
    + rewrite ?div_1000. destruct (decide (now ≤ last)%Z) as [Hle | Hgt].
      * split; [lia | intros _; qc_closed].
      * destruct (decide (now - last ≤ 43200000)%Z) as [Hcap | Hcap].
        -- split.
           ++ intros Hlt. destruct (decide (now - last < 1000)%Z) as [| Hge];
                [assumption | exfalso].
              pose proof (z2q_le 1000 (now - last) ltac:(lia)) as Hz.
              generalize dependent (Num.z2q (now - last)). intros d Hlt Hz.
              qc_lra.
           ++ intros Hlt.
              pose proof (z2q_le (now - last) 999 ltac:(lia)) as Hz.
              generalize dependent (Num.z2q (now - last)). intros d Hz.
              qc_lra.
        -- split; [intros Hlt; exfalso; apply (Qclt_not_le _ _ Hlt); qc_closed | lia].
Qed.

Lemma countOf_nonneg (p : Event -> bool) (evs : list Event) : (0 <= countOf p evs)%Z.
Proof. unfold countOf. lia. Qed.

Lemma countOf_cons (p : Event -> bool) (ev : Event) (evs : list Event) :
  countOf p (ev :: evs) = ((if p ev then 1 else 0) + countOf p evs)%Z.
Proof.
  unfold countOf. cbn [List.filter]. destruct (p ev); cbn [length]; lia.
Qed.

Lemma bossKills_le_kills (evs : list Event) :
  (countOf isBossKill evs <= countOf isKill evs)%Z.
Proof.
  induction evs as [| ev evs IH]; [unfold countOf; cbn; lia |].
  rewrite !countOf_cons. destruct ev as [e |]; cbn [isBossKill isKill];
    [destruct (Enemy.isBoss e) |]; lia.
Qed.

Lemma totalReward_no_kill (s : SaveData.t) (evs : list Event) :
  countOf isKill evs = 0%Z -> totalReward s evs = 0.
Proof.
  revert s. induction evs as [| ev evs IH]; intros s; [reflexivity |].
  rewrite countOf_cons. pose proof (countOf_nonneg isKill evs).
  destruct ev as [e |]; cbn [isKill]; [lia |]. intros H0.
  cbn [totalReward]. rewrite IH by lia. ring.
Qed.

Lemma simulateOffline_report
  (now : Z) (s s' : SaveData.t) (seconds : Qc) (r : Report.t) :
  simulateOffline now s seconds = Some (s', r) ->
  Report.seconds r = seconds
  /\ (0 <= Report.floors r <= Report.kills r)%Z
  /\ (Report.kills r = 0%Z -> Report.gold r = 0)
  /\ SaveData.gold s' = SaveData.gold s + Report.gold r.
Proof.
  unfold simulateOffline. fold (spawnIfAbsent s).
  generalize safetyLimit. intros fuel.
  assert (Hg0 : SaveData.gold (spawnIfAbsent s) = SaveData.gold s)
    by (unfold spawnIfAbsent; destruct (SaveData.enemy s); reflexivity).
  destruct (totalDps _) as [dps |]; [| discriminate].
  destruct (decide _); intros [= <- <-]; rsimpl.
  - split; [reflexivity |]. split; [lia |]. split; [reflexivity |].
    rewrite Hg0. ring.
  - set (L0 := Locals.make (spawnIfAbsent s) seconds 0 0 0).
    destruct (loop_explains dps fuel L0) as (evs & Hs & [Hk Hf Hg]).
    destruct (sameButEnemy_fields _ _ Hs) as (Hg1 & _).
    destruct (replay_gold evs (Locals.s L0)) as [Hrg _].
    subst L0. rsimpl. rewrite Hk, Hf, Hg, Hg1, Hrg, Hg0.
    pose proof (countOf_nonneg isBossKill evs).
    pose proof (bossKills_le_kills evs).
    split; [reflexivity |]. split; [lia |]. split; [| ring].
    intros Hzero. rewrite totalReward_no_kill by lia. ring.
Qed.

(** X15.  The report of [simulateOffline] counts soundly: the floors
    cleared are between 0 and the kills, a report without kills has no
    gold, and from a state with sound numbers the gold of the report is
    not negative. *)
Theorem offline_report_counts
  (now : Z) (s s' : SaveData.t) (seconds : Qc) (r : Report.t) :
  simulateOffline now s seconds = Some (s', r) ->
  (0 <= Report.floors r <= Report.kills r)%Z
  /\ (Report.kills r = 0%Z -> Report.gold r = 0)
  /\ (sane s -> 0 ≤ Report.gold r).
Proof.
  intros H. destruct (simulateOffline_report now s s' seconds r H)
    as (_ & Hf & Hk & Hg).
  split; [exact Hf |]. split; [exact Hk |].
  intros Hs. destruct (simulateOffline_sane now s s' seconds r Hs H) as [_ [He _]].
  qc_lra.
Qed.

Lemma offline_report_counts_witness :
  exists s' r,
    simulateOffline 0 veteran_example (Num.z2q 60) = Some (s', r)
    /\ (0 <= Report.floors r <= Report.kills r)%Z.
Proof.
  eexists _, _. split; [vm_compute; reflexivity |].
  eapply (offline_report_counts 0 veteran_example _ (Num.z2q 60)).
  vm_compute. reflexivity.
Defined.

(** X16.  The catch-up that runs when the component mounts.  With no
    [lastSeen], or less than a second since it, nothing happens: the state
    is left as it is, [lastSeen] included, and no report is shown.  From
    one second on the state is resolved by [simulateOffline] with the
    elapsed time, capped at 12 hours, and the report is shown exactly when
    it counts a kill (the test on its gold adds nothing).  Past 12 hours
    the result does not depend on the clock. *)
Theorem catchUp_behaviour (now now' : Z) (save s : SaveData.t) :
  (SaveData.lastSeen save = None -> catchUp now now' save s = Some (s, None))
  /\ (forall last,
         SaveData.lastSeen save = Some last ->
         ((now - last < 1000)%Z -> catchUp now now' save s = Some (s, None))
         /\ ((1000 <= now - last)%Z ->
             catchUp now now' save s
             = match simulateOffline now' s
                       (Num.min (Num.z2q (now - last) / Num.z2q 1000)
                                (Num.z2q 43200)) with
               | Some (s', r) =>
                   Some (s', if decide (0 < Report.kills r)%Z
                             then Some r else None)
               | None => None
               end)
         /\ (forall now2,
                (last + 43200000 <= now)%Z -> (last + 43200000 <= now2)%Z ->
                catchUp now2 now' save s = catchUp now now' save s)).
Proof.
  split.
  - intros Hl. unfold catchUp. rewrite Hl.
    assert (E : offlineElapsed now None = 0).
    { unfold offlineElapsed. cbn [default from_option id].
      rewrite Z.sub_diag. qc_closed. }
    rewrite E. destruct (decide _) as [_ | Hn]; [reflexivity |].
    exfalso. apply Hn. qc_closed.
  - intros last Hl. unfold catchUp. rewrite Hl. split; [| split].
    + intros Hlt. rewrite offlineElapsed_value.
      destruct (decide _) as [_ | Hn]; [reflexivity | exfalso; apply Hn].
      rewrite div_1000.
      destruct (decide (now ≤ last)%Z); [qc_closed |].
      destruct (decide _); [| lia].
      pose proof (z2q_le (now - last) 999 ltac:(lia)) as Hz.
      generalize dependent (Num.z2q (now - last)). intros d Hz. qc_lra.
    + intros Hge.
      assert (E : offlineElapsed now (Some last)
                  = Num.min (Num.z2q (now - last) / Num.z2q 1000)
                            (Num.z2q 43200)).
      { rewrite offlineElapsed_value. rewrite !div_1000.
        destruct (decide (now ≤ last)%Z); [lia |].
        destruct (decide (now - last ≤ 43200000)%Z) as [Hcap | Hcap].
        - pose proof (z2q_le (now - last) 43200000 Hcap) as Hc.
          generalize dependent (Num.z2q (now - last)). intros d Hc.
          rewrite min_l by qc_lra. reflexivity.
        - pose proof (z2q_le 43200001 (now - last) ltac:(lia)) as Hc.
          generalize dependent (Num.z2q (now - last)). intros d Hc.
          rewrite min_r by qc_lra. reflexivity. }
      rewrite <- E.
      destruct (decide (offlineElapsed now (Some last) < 1)) as [Hlt | _].
      { exfalso. rewrite E, div_1000 in Hlt.
        pose proof (z2q_le 1000 (now - last) Hge) as Hz.
        generalize dependent (Num.z2q (now - last)). intros d _ Hlt Hz.
        unfold Num.min in Hlt. destruct (decide _); [qc_lra |].
        apply (Qclt_not_le _ _ Hlt). qc_closed. }
      destruct (simulateOffline now' s (offlineElapsed now (Some last)))
        as [[s' r] |] eqn:Hsim; [| reflexivity].
      destruct (simulateOffline_report _ _ _ _ _ Hsim) as (_ & Hf & Hk & _).
      destruct (decide (0 < Report.kills r)%Z) as [Hpos | Hzero].
      * destruct (decide _) as [_ | Hn]; [reflexivity |].
        exfalso. apply Hn. left. exact Hpos.
      * destruct (decide _) as [[Hpos | Hgold] | _]; [lia | | reflexivity].
        exfalso. rewrite Hk in Hgold by lia. exact (Qc_lt_irrefl _ Hgold).
    + intros now2 H1 H2.
      assert (E : forall n, (last + 43200000 <= n)%Z ->
                            offlineElapsed n (Some last) = Num.z2q 43200).
      { intros n Hn. rewrite offlineElapsed_value.
        destruct (decide (n ≤ last)%Z); [lia |].
        destruct (decide _); [| reflexivity].
        replace (n - last)%Z with 43200000%Z by lia. qc_closed. }
      rewrite (E now H1), (E now2 H2). reflexivity.
Qed.

(** ** Scaling of encounters and of the click *)

(** X17.  How encounters scale.  One floor up, the maximum hp of an
    encounter is 1.6 times as large (and so strictly larger); the boss of
    a floor has 12 times the maximum hp of its regular enemy and pays 24
    times its reward; every encounter starts at full hp. *)
Theorem enemy_scaling (floor : Z) (boss : bool) :
  Enemy.maxHp (makeEnemy (floor + 1) boss)
  = ENEMY.floorGrowth * Enemy.maxHp (makeEnemy floor boss)
  /\ Enemy.maxHp (makeEnemy floor boss) < Enemy.maxHp (makeEnemy (floor + 1) boss)
  /\ Enemy.maxHp (makeEnemy floor true)
     = ENEMY.bossMultiplier * Enemy.maxHp (makeEnemy floor false)
  /\ goldRewardFor (makeEnemy floor true) floor
     = Num.z2q 24 * goldRewardFor (makeEnemy floor false) floor
  /\ Enemy.hp (makeEnemy floor boss) = Enemy.maxHp (makeEnemy floor boss).
Proof.
  assert (Hup : Enemy.maxHp (makeEnemy (floor + 1) boss)
                = ENEMY.floorGrowth * Enemy.maxHp (makeEnemy floor boss)).
  { unfold makeEnemy. replace (floor + 1 - 1)%Z with (floor - 1 + 1)%Z by lia.
    rewrite pow_add by (left; qc_closed). rewrite pow_1_r.
    destruct boss; rsimpl; ring. }
  split; [exact Hup |]. split; [| split; [| split]].
  - rewrite Hup. pose proof (makeEnemy_maxHp_pos floor boss) as Hpos.
    unfold ENEMY.floorGrowth.
    generalize dependent (Enemy.maxHp (makeEnemy floor boss)). intros m _ Hpos.
    qc_lra.
  - unfold makeEnemy. rsimpl. ring.
  - unfold goldRewardFor, makeEnemy. rsimpl.
    unfold ENEMY.bossMultiplier, ENEMY.bossGoldMultiplier.
    replace (Num.z2q 24) with (Num.z2q 12 * Num.z2q 2) by qc_closed. ring.
  - reflexivity.
Qed.

Lemma pow_gt_1 (g : Qc) (n : Z) : 1 < g -> (0 < n)%Z -> 1 < Num.pow g n.
Proof.
  intros Hg Hn. replace n with (n - 1 + 1)%Z by lia.
  rewrite pow_add by (right; lia). rewrite pow_1_r.
  pose proof (pow_ge_1 g (n - 1) (Qclt_le_weak _ _ Hg) ltac:(lia)) as Hp.
  assert (H : 0 ≤ (Num.pow g (n - 1) - 1) * g)
    by (apply Qcmult_nonneg_nonneg; qc_lra).
  qc_lra.
Qed.

Lemma clickDamage_add (level qty : Z) :
  clickDamage (level + qty)
  = clickDamage level * Num.pow CLICK.damageGrowth qty.
Proof.
  unfold clickDamage. replace (level + qty - 1)%Z with (level - 1 + qty)%Z by lia.
  rewrite pow_add by (left; qc_closed). ring.
Qed.

(** X18.  What a click upgrade buys.  The damage of a click is positive
    at every level, so a click on a live encounter always lowers its hp;
    a purchase of [qty] levels that goes through multiplies the damage by
    [1.25^qty], which is a strict increase for a positive [qty]. *)
Theorem click_upgrade_scales_damage (s : SaveData.t) (qty : Z) :
  ~ SaveData.gold s
    < bulkCost CLICK.baseCost CLICK.growth (SaveData.clickLevel s - 1) qty ->
  0 < clickDamage (SaveData.clickLevel s)
  /\ clickDamage (SaveData.clickLevel (buyClickUpgrade qty s))
     = clickDamage (SaveData.clickLevel s) * Num.pow CLICK.damageGrowth qty
  /\ ((0 < qty)%Z ->
      clickDamage (SaveData.clickLevel s)
      < clickDamage (SaveData.clickLevel (buyClickUpgrade qty s))).
Proof.
  intros Hgold. pose proof (clickDamage_pos (SaveData.clickLevel s)) as Hpos.
  assert (Hlevel : SaveData.clickLevel (buyClickUpgrade qty s)
                   = (SaveData.clickLevel s + qty)%Z).
  { unfold buyClickUpgrade. destruct (decide _); [contradiction | reflexivity]. }
  rewrite Hlevel, clickDamage_add.
  split; [exact Hpos |]. split; [reflexivity |].
  intros Hq. pose proof (pow_gt_1 CLICK.damageGrowth qty ltac:(qc_closed) Hq) as Hp.
  assert (H : 0 < clickDamage (SaveData.clickLevel s)
                  * (Num.pow CLICK.damageGrowth qty - 1))
    by (apply Qcmult_pos_pos; qc_lra).
  qc_lra.
Qed.

Lemma click_upgrade_scales_damage_witness :
  clickDamage (SaveData.clickLevel (buyClickUpgrade 3 veteran_example))
  = clickDamage (SaveData.clickLevel veteran_example)
    * Num.pow CLICK.damageGrowth 3.
Proof.
  apply (click_upgrade_scales_damage veteran_example 3).
  unfold Qclt. vm_compute. discriminate.
Defined.

(** ** The bars *)

Lemma clamp_range (n lo hi : Qc) :
  lo ≤ hi -> lo ≤ clamp n lo hi /\ clamp n lo hi ≤ hi.
Proof.
  intros H. unfold clamp, Num.max, Num.min.
  repeat destruct (decide _); split; qc_lra.
Qed.

Lemma clamp_inside (n lo hi : Qc) : lo ≤ n -> n ≤ hi -> clamp n lo hi = n.
Proof.
  intros H1 H2. unfold clamp, Num.max, Num.min.
  repeat destruct (decide _); qc_lra.
Qed.

(** X19.  [clamp(n, min, max)] with [min <= max] answers a number between
    the bounds: [n] itself when it lies between them, [min] when [n] is
    below and [max] when it is above; applied to its own result it
    changes nothing.  With the bounds the wrong way round it answers
    [min].  The width [Progress] gives a bar is its value clamped to 0 and
    100. *)
Theorem clamp_bounds (n lo hi : Qc) :
  (lo ≤ hi ->
   lo ≤ clamp n lo hi /\ clamp n lo hi ≤ hi
   /\ (lo ≤ n -> n ≤ hi -> clamp n lo hi = n)
   /\ (n ≤ lo -> clamp n lo hi = lo)
   /\ (hi ≤ n -> clamp n lo hi = hi)
   /\ clamp (clamp n lo hi) lo hi = clamp n lo hi)
  /\ (hi < lo -> clamp n lo hi = lo)
  /\ progressWidth n = clamp n 0 (Num.z2q 100).
Proof.
  split; [| split; [| reflexivity]].
  - intros H. destruct (clamp_range n lo hi H) as [H1 H2].
    split; [exact H1 |]. split; [exact H2 |].
    split; [apply clamp_inside |]. split; [| split].
    + intros Hn. unfold clamp, Num.max, Num.min.
      repeat destruct (decide _); qc_lra.
    + intros Hn. unfold clamp, Num.max, Num.min.
      repeat destruct (decide _); qc_lra.
    + apply clamp_inside; assumption.
  - intros H. unfold clamp, Num.max, Num.min.
    repeat destruct (decide _); qc_lra.
Qed.

Lemma div_nonneg (x d : Qc) : 0 < d -> 0 ≤ x -> 0 ≤ x / d.
Proof.
  intros Hd Hx. apply (mult_le_cancel d Hd).
  rewrite (div_mult_cancel d Hd). rewrite mult_0_r. exact Hx.
Qed.

Lemma pct_range (x d : Qc) :
  0 < d -> 0 ≤ x -> x ≤ d ->
  0 ≤ (Num.z2q 100 * x) / d /\ (Num.z2q 100 * x) / d ≤ Num.z2q 100.
Proof.
  intros Hd H0 H1. split.
  - apply div_nonneg; [exact Hd | qc_lra].
  - apply (div_le_iff d Hd).
    assert (H : 0 ≤ Num.z2q 100 * (d - x))
      by (apply Qcmult_nonneg_nonneg; [qc_closed | qc_lra]).
    qc_lra.
Qed.

Lemma progressWidth_inside (v : Qc) :
  0 ≤ v -> v ≤ Num.z2q 100 -> progressWidth v = v.
Proof. intros H0 H1. apply (clamp_inside v 0 (Num.z2q 100)); assumption. Qed.

(** X20.  The three bars.  The floor-progress value is always between 0
    and 100, and it is 5 times the kill counter while the counter is
    between 0 and 20.  In a state with sound numbers the hp value and the
    boss-timer value are between 0 and 100 as well, so [Progress] shows
    each of the three at its value, without clamping. *)
Theorem bars_in_range (s : SaveData.t) :
  (0 ≤ progressPct s /\ progressPct s ≤ Num.z2q 100
   /\ progressWidth (progressPct s) = progressPct s)
  /\ ((0 <= SaveData.killsThisFloor s <= ENEMY.killsPerFloor)%Z ->
      progressPct s = Num.z2q (5 * SaveData.killsThisFloor s))
  /\ (sane s ->
      0 ≤ enemyHpPct s /\ enemyHpPct s ≤ Num.z2q 100
      /\ progressWidth (enemyHpPct s) = enemyHpPct s
      /\ 0 ≤ bossTimerPct s /\ bossTimerPct s ≤ Num.z2q 100
      /\ progressWidth (bossTimerPct s) = bossTimerPct s).
Proof.
  assert (H20 : 0 < Num.z2q ENEMY.killsPerFloor) by qc_closed.
  split; [| split].
  - destruct (clamp_range (Num.z2q (SaveData.killsThisFloor s)) 0
                (Num.z2q ENEMY.killsPerFloor) (Qclt_le_weak _ _ H20)) as [H0 H1].
    destruct (pct_range _ _ H20 H0 H1) as [Ha Hb].
    split; [exact Ha |]. split; [exact Hb |].
    apply progressWidth_inside; assumption.
  - intros [Hk0 Hk1]. unfold progressPct.
    rewrite clamp_inside
      by (try (rewrite <- z2q_0; apply z2q_le; exact Hk0);
          apply z2q_le; exact Hk1).
    unfold ENEMY.killsPerFloor. apply Qc_is_canon. qc_push.
    rewrite inject_Z_mult. unfold inject_Z. field.
  - intros (_ & _ & _ & He). unfold enemyHpPct, bossTimerPct.
    assert (Hzero : 0 ≤ 0 /\ 0 ≤ Num.z2q 100 /\ progressWidth 0 = 0).
    { split; [apply Qcle_refl |]. split; [qc_closed |].
      apply progressWidth_inside; [apply Qcle_refl | qc_closed]. }
    destruct (SaveData.enemy s) as [e |].
    + destruct He as (Hm & H0 & H1 & Ht).
      destruct (pct_range _ _ Hm H0 H1) as [Ha Hb].
      split; [exact Ha |]. split; [exact Hb |].
      split; [apply progressWidth_inside; assumption |].
      destruct (Enemy.isBoss e); [| exact Hzero].
      destruct (Enemy.bossTimeLeft e) as [t |]; [| exact Hzero].
      destruct Ht as [Ht0 Ht1].
      destruct (pct_range t ENEMY.bossTimeSeconds ltac:(qc_closed) Ht0 Ht1)
        as [Hc Hd].
      split; [exact Hc |]. split; [exact Hd |].
      apply progressWidth_inside; assumption.
    + destruct Hzero as (Hz0 & Hz1 & Hz2). auto 10.
Qed.

(** ** The suffix ladder of [formatNumber] *)






(** ** One click, one tick *)

Lemma attack_set_lastSeen (damage : Qc) (s : SaveData.t) (v : option Z) :
  attack damage (SaveData.set_lastSeen s v)
  = SaveData.set_lastSeen (attack damage s) v.
Proof.
  unfold attack. rsimpl. destruct (SaveData.enemy s) as [e |]; [| reflexivity].
  rsimpl. destruct (decide _); [| reflexivity].
  destruct (Enemy.isBoss e); [reflexivity |].
  destruct (decide _); reflexivity.
Qed.

(** X22.  A step of [tick] on a live regular enemy is a click of the same
    damage.  With a positive damage per second, [tick(state, dt)] returns
    the state that the update of [handleClick] gives for a click damage of
    [dps * dt], with [lastSeen] set: the two copies of the kill code (the
    reward, the counter, the boss at the twentieth kill, the next
    encounter) agree. *)
Theorem tick_is_a_click_of_its_damage
  (now : Z) (s : SaveData.t) (e : Enemy.t) (dps dt : Qc) :
  SaveData.enemy s = Some e ->
  Enemy.isBoss e = false ->
  totalDps (SaveData.heroes s) = Some dps ->
  0 < dps -> 0 < Enemy.hp e ->
  tick now s dt = Some (SaveData.set_lastSeen (attack (dps * dt) s) (Some now)).
Proof.
  intros He Hb Hdps Hpos Hhp. unfold tick. rsimpl. rewrite He, Hdps.
  f_equal. rewrite <- attack_set_lastSeen, attack_resolveKill. rsimpl.
  rewrite He. unfold tickWith, applyDamage.
  destruct (decide _) as [_ | Hn]; [| exfalso; apply Hn; split; assumption].
  rsimpl. rewrite Hb. reflexivity.
Qed.

Lemma tick_is_a_click_of_its_damage_witness :
  tick 0 veteran_example (Num.dec 1 20)
  = Some (SaveData.set_lastSeen
            (attack (Num.z2q 7 * Num.dec 1 20) veteran_example) (Some 0%Z)).
Proof.
  apply (tick_is_a_click_of_its_damage 0 veteran_example (makeEnemy 2 false)
           (Num.z2q 7) (Num.dec 1 20)).
  - reflexivity.
  - reflexivity.
  - apply (f_equal Some). qc_closed.
  - qc_closed.
  - qc_closed.
Defined.

(** ** The click and the caller's encounter object *)

Lemma alloc_lookup (h : Shared.store) (e : Enemy.t) :
  (Shared.alloc h e).2 !! (Shared.alloc h e).1 = Some e.
Proof. unfold Shared.alloc. cbn [fst snd]. apply lookup_insert_eq. Qed.

(** X23.  A click leaves the caller's encounter object alone.  On the
    store of encounter objects, the update of [handleClick] returns a
    state that denotes what the update computes on values, and every
    object of the store it was given, the encounter of the caller's state
    among them, is still there with the fields it had: the damaged
    encounter is a new object. *)
Theorem click_writes_no_object
  (damage : Qc) (h : Shared.store) (s : Shared.state) (s0 : SaveData.t) :
  Shared.view h s = Some s0 ->
  exists h' s',
    sharedAttack damage h s = Some (h', s')
    /\ Shared.view h' s' = Some (attack damage s0)
    /\ (forall l x, h !! l = Some x -> h' !! l = Some x)
    /\ Shared.view h' s = Some s0.
Proof.
  unfold Shared.view, sharedAttack, attack.
  destruct (SaveData.enemy s) as [l |] eqn:Hl.
  - destruct (h !! l) as [e |] eqn:He; [| discriminate]. intros [= <-]. rsimpl.
    destruct (decide _);
      [destruct (Enemy.isBoss e); [| destruct (decide _)] |];
      match goal with
      | |- context [Shared.alloc h ?e'] =>
          pose proof (alloc_lookup h e') as Hlook;
          pose proof (fun l0 x => alloc_keeps h e' x l0) as Hkeep;
          destruct (Shared.alloc h e') as [l' h']
      end;
      cbn [fst snd] in *;
      (eexists _, _; split; [reflexivity |]; split;
       [ unfold Shared.view; rsimpl; rewrite Hlook; reflexivity
       | split; [exact Hkeep |];
         rewrite (Hkeep l e He); reflexivity ]).
  - intros [= <-]. eexists _, _. split; [reflexivity |].
    unfold Shared.view. rewrite Hl. rsimpl. auto.
Qed.

Lemma click_writes_no_object_witness :
  exists h' s',
    sharedAttack 1 shared_store shared_state = Some (h', s')
    /\ h' !! 1%positive = Some (makeEnemy 1 false).
Proof.
  destruct (click_writes_no_object 1 shared_store shared_state
              (SaveData.set_enemy shared_state (Some (makeEnemy 1 false))))
    as (h' & s' & H1 & _ & H3 & _).
  - vm_compute. reflexivity.
  - exists h', s'. split; [exact H1 |]. apply H3. vm_compute. reflexivity.
Defined.

(** ** What one step can do *)

Lemma resolveKill_event (s : SaveData.t) (e : Enemy.t) :
  exists evs,
    (length evs <= 1)%nat /\ sameButEnemy (resolveKill s e) (replay evs s).
Proof.
  unfold resolveKill. destruct (decide _).
  - exists [Killed e]. split; [cbn; lia |]. cbn [replay fold_left applyEvent].
    rewrite (tickKill_congr (SaveData.set_enemy s (Some e)) s e e);
      reflexivity.
  - exists []. split; [cbn; lia | reflexivity].
Qed.

(** X24.  One step, at most one event.  Whatever its duration, a call of
    [tick] does what at most one event does to the progress of the game,
    one kill or one boss escape: the state it returns is the state after
    that event (or after none), up to the encounter, with [lastSeen]
    set. *)
Theorem tick_resolves_one_event (now : Z) (s s' : SaveData.t) (dt : Qc) :
  tick now s dt = Some s' ->
  exists evs,
    (length evs <= 1)%nat
    /\ sameButEnemy s' (replay evs (SaveData.set_lastSeen s (Some now))).
Proof.
  unfold tick. rsimpl. destruct (SaveData.enemy s) as [e |].
  - destruct (totalDps _) as [dps |]; [| discriminate]. intros [= <-].
    unfold tickWith.
    destruct (Enemy.isBoss (applyDamage dps e dt));
      [| apply resolveKill_event].
    destruct (Enemy.bossTimeLeft (applyDamage dps e dt)) as [t |];
      [| apply resolveKill_event].
    destruct (decide _); [| apply resolveKill_event].
    exists [Escaped]. split; [cbn; lia | reflexivity].
  - intros [= <-]. exists []. split; [cbn; lia | reflexivity].
Qed.

Lemma tick_resolves_one_event_witness :
  exists evs,
    (length evs <= 1)%nat
    /\ sameButEnemy
         (SaveData.make 0 0 1 1 0 [HeroState.make 1 1]
            (Some (makeEnemy 1 false)) (Some 0%Z))
         (replay evs (SaveData.set_lastSeen escape_example (Some 0%Z))).
Proof.
  apply (tick_resolves_one_event 0 escape_example _ (Num.z2q 30)).
  vm_compute. reflexivity.
Defined.

(** ** The interval that drives [tick] *)

Lemma last_cons_default (l : list Qc) (a d : Qc) :
  List.last (a :: l) d = List.last l a.
Proof.
  revert a d. induction l as [| x l IH]; intros a d; [reflexivity |].
  change (List.last (a :: x :: l) d) with (List.last (x :: l) d).
  rewrite (IH x d). symmetry. apply (IH x a).
Qed.

(** X25.  The interval loses no time.  Over a sequence of firings, the
    calls of [tick] the interval makes are the run of [tick] over the
    differences of consecutive clock readings, in seconds; these
    durations add up to the time between the reading the interval started
    from and the last one, whatever the jitter of the firings, and the
    reading kept for the next firing is the last one. *)
Theorem frames_lose_no_time
  (lastRef : Qc) (state : SaveData.t) (readings : list (Qc * Z)) :
  frames lastRef state readings
  = match ticks state (stepsOf lastRef readings) with
    | Some state' => Some (List.last (List.map fst readings) lastRef, state')
    | None => None
    end
  /\ duration (stepsOf lastRef readings)
     = (List.last (List.map fst readings) lastRef - lastRef) / Num.z2q 1000.
Proof.
  revert lastRef state.
  induction readings as [| [reading now] rest IH]; intros lastRef state.
  - split; [reflexivity |]. cbn. field. qc_closed.
  - destruct (IH reading state) as [_ Hd].
    assert (Hlast : List.last (List.map fst ((reading, now) :: rest)) lastRef
                    = List.last (List.map fst rest) reading)
      by apply last_cons_default.
    rewrite Hlast. split.
    + cbn [frames stepsOf ticks frame].
      destruct (tick now state ((reading - lastRef) / Num.z2q 1000))
        as [state' |]; [| reflexivity].
      apply (IH reading state').
    + cbn [stepsOf duration]. rewrite Hd. field. qc_closed.
Qed.

(** ** Steps that the encounter survives *)

Lemma tickWith_alive (dps : Qc) (s : SaveData.t) (e : Enemy.t) (dt : Qc) :
  0 ≤ dps -> 0 < Enemy.hp e -> dps * dt < Enemy.hp e ->
  (forall t, Enemy.isBoss e = true -> Enemy.bossTimeLeft e = Some t -> dt < t) ->
  tickWith dps s e dt
  = SaveData.set_enemy s
      (Some (Enemy.make (Enemy.maxHp e) (Enemy.hp e - dps * dt) (Enemy.isBoss e)
               (if Enemy.isBoss e
                then (fun t => t - dt) <$> Enemy.bossTimeLeft e
                else Enemy.bossTimeLeft e))).
Proof.
  intros Hdps Hhp Hdam Htimer.
  assert (E1 : applyDamage dps e dt = Enemy.set_hp e (Enemy.hp e - dps * dt)).
  { unfold applyDamage. destruct (decide _) as [_ | Hn].
    - rewrite max_0_nonneg by qc_lra. reflexivity.
    - assert (Hz : dps = 0).
      { apply Qcle_antisym; [| exact Hdps]. apply Qcnot_lt_le.
        intros H. apply Hn. split; assumption. }
      rewrite Hz. replace (Enemy.hp e - 0 * dt) with (Enemy.hp e) by ring.
      symmetry. apply set_hp_same. }
  assert (Hne : Enemy.hp e - dps * dt <> 0) by (intros H; qc_lra).
  unfold tickWith. rewrite E1. destruct e as [m h b tl]. rsimpl.
  unfold resolveKill. destruct b; [destruct tl as [t |] |]; rsimpl.
  - specialize (Htimer t eq_refl eq_refl).
    rewrite max_0_nonneg by qc_lra.
    destruct (decide _) as [[Hz _] | _]; [exfalso; qc_lra |].
    destruct (decide _) as [Hz | _]; [contradiction | reflexivity].
  - destruct (decide _) as [Hz | _]; [contradiction | reflexivity].
  - destruct (decide _) as [Hz | _]; [contradiction | reflexivity].
Qed.

(** X26.  Steps add up while the encounter survives.  When the damage of
    [dt1 + dt2] seconds leaves the encounter alive and, for a boss, its
    timer is not due within that time, [tick] for [dt1] followed by [tick]
    for [dt2] returns the state that one [tick] for [dt1 + dt2] returns:
    splitting a step changes nothing. *)
Theorem ticks_add_up_while_alive
  (now1 now2 : Z) (s : SaveData.t) (e : Enemy.t) (dps dt1 dt2 : Qc) :
  SaveData.enemy s = Some e ->
  totalDps (SaveData.heroes s) = Some dps ->
  0 ≤ dps -> 0 ≤ dt1 -> 0 ≤ dt2 ->
  0 < Enemy.hp e -> dps * (dt1 + dt2) < Enemy.hp e ->
  (forall t, Enemy.isBoss e = true -> Enemy.bossTimeLeft e = Some t ->
             dt1 + dt2 < t) ->
  exists s1,
    tick now1 s dt1 = Some s1
    /\ tick now2 s1 dt2 = tick now2 s (dt1 + dt2).
Proof.
  intros He Hdps H0 H1 H2 Hhp Hdam Htimer.
  assert (Hd1 : 0 ≤ dps * dt1) by (apply Qcmult_nonneg_nonneg; assumption).
  assert (Hd2 : 0 ≤ dps * dt2) by (apply Qcmult_nonneg_nonneg; assumption).
  assert (Hsum : dps * (dt1 + dt2) = dps * dt1 + dps * dt2) by ring.
  rewrite Hsum in Hdam.
  set (e' := Enemy.make (Enemy.maxHp e) (Enemy.hp e - dps * dt1) (Enemy.isBoss e)
               (if Enemy.isBoss e
                then (fun t => t - dt1) <$> Enemy.bossTimeLeft e
                else Enemy.bossTimeLeft e)).
  set (s1 := SaveData.set_lastSeen (SaveData.set_enemy s (Some e')) (Some now1)).
  assert (Ht1 : forall t, Enemy.isBoss e = true ->
                          Enemy.bossTimeLeft e = Some t -> dt1 < t).
  { intros t Hb Ht. specialize (Htimer t Hb Ht). qc_lra. }
  assert (Ht2 : forall t, Enemy.isBoss e' = true ->
                          Enemy.bossTimeLeft e' = Some t -> dt2 < t).
  { subst e'. rsimpl. intros t Hb Ht. rewrite Hb in Ht.
    destruct (Enemy.bossTimeLeft e) as [t0 |]; [| discriminate].
    cbn in Ht. injection Ht as <-. specialize (Htimer t0 Hb eq_refl). qc_lra. }
  exists s1. split.
  - rewrite (tick_tickWith now1 dps s e dt1 He Hdps).
    rewrite (tickWith_alive dps s e dt1 H0 Hhp ltac:(qc_lra) Ht1). reflexivity.
  - rewrite (tick_tickWith now2 dps s1 e' dt2 eq_refl Hdps).
    rewrite (tickWith_alive dps s1 e' dt2 H0
               ltac:(subst e'; rsimpl; qc_lra) ltac:(subst e'; rsimpl; qc_lra) Ht2).
    rewrite (tick_tickWith now2 dps s e (dt1 + dt2) He Hdps).
    rewrite (tickWith_alive dps s e (dt1 + dt2) H0 Hhp
               ltac:(rewrite Hsum; exact Hdam) Htimer).
    subst s1 e'. unfold SaveData.set_lastSeen, SaveData.set_enemy. rsimpl.
    do 3 f_equal. f_equal; [ring |].
    destruct (Enemy.isBoss e); [| reflexivity].
    destruct (Enemy.bossTimeLeft e) as [t |]; [| reflexivity].
    cbn. f_equal. ring.
Qed.

Lemma ticks_add_up_while_alive_witness :
  exists s1,
    tick 0 boss_example (Num.z2q 1) = Some s1
    /\ tick 0 s1 (Num.z2q 2) = tick 0 boss_example (Num.z2q 1 + Num.z2q 2).
Proof.
  apply (ticks_add_up_while_alive 0 0 boss_example (makeEnemy 2 true)
           (Num.z2q 7) (Num.z2q 1) (Num.z2q 2)).
  - reflexivity.
  - apply (f_equal Some). qc_closed.
  - qc_closed.
  - qc_closed.
  - qc_closed.
  - qc_closed.
  - qc_closed.
  - intros t _ [= <-]. qc_closed.
Defined.

(** ** A hero without an entry *)




(** ** The guard of the offline loop *)

Lemma onKill_counts (L : Locals.t) (e : Enemy.t) :
  Locals.kills (onKill L e) = (Locals.kills L + 1)%Z
  /\ Locals.floorsCleared (onKill L e)
     = (Locals.floorsCleared L + if Enemy.isBoss e then 1 else 0)%Z
  /\ ((0 <= SaveData.killsThisFloor (Locals.s L) <= ENEMY.killsPerFloor)%Z ->
      (0 <= SaveData.killsThisFloor (Locals.s (onKill L e))
       <= ENEMY.killsPerFloor)%Z).
Proof.
  unfold onKill, ENEMY.killsPerFloor.
  destruct (Enemy.isBoss e); [| destruct (decide _)]; rsimpl;
    (split; [reflexivity |]; split; [lia |]; lia).
Qed.

Lemma iter_onKill_counts (n : nat) (L : Locals.t) (e : Enemy.t) :
  Enemy.isBoss e = false ->
  (0 <= SaveData.killsThisFloor (Locals.s L) <= ENEMY.killsPerFloor)%Z ->
  let L' := Nat.iter n (fun L' => onKill L' e) L in
  Locals.kills L' = (Locals.kills L + Z.of_nat n)%Z
  /\ Locals.floorsCleared L' = Locals.floorsCleared L
  /\ (0 <= SaveData.killsThisFloor (Locals.s L') <= ENEMY.killsPerFloor)%Z.
Proof.
  intros Hb Hk. induction n as [| n (IH1 & IH2 & IH3)]; cbn zeta.
  - cbn [Nat.iter nat_rect]. split; [lia |]. split; [reflexivity | exact Hk].
  - rewrite Nat.iter_succ.
    destruct (onKill_counts (Nat.iter n (fun L' => onKill L' e) L) e)
      as (H1 & H2 & H3).
    rewrite H1, H2, Hb, IH1, IH2. split; [lia |]. split; [lia |].
    apply H3. exact IH3.
Qed.

Lemma canBulkOf_le (timeLeft perKill : Qc) (remaining : Z) :
  (canBulkOf timeLeft perKill remaining <= remaining)%Z.
Proof. unfold canBulkOf. destruct (decide _); lia. Qed.

Lemma loopBody_counts (dps : Qc) (L : Locals.t) (e : Enemy.t) :
  (0 <= SaveData.killsThisFloor (Locals.s L) <= ENEMY.killsPerFloor)%Z ->
  let L' := flowLocals (loopBody dps L e) in
  (Locals.kills L <= Locals.kills L' <= Locals.kills L + ENEMY.killsPerFloor)%Z
  /\ (Locals.floorsCleared L <= Locals.floorsCleared L'
      <= Locals.floorsCleared L + 1)%Z
  /\ (0 <= SaveData.killsThisFloor (Locals.s L') <= ENEMY.killsPerFloor)%Z.
Proof.
  intros Hk. cbn zeta.
  assert (Hkill : forall t : Qc,
             (Locals.kills L <= Locals.kills (onKill (spend L t) e)
              <= Locals.kills L + ENEMY.killsPerFloor)%Z
             /\ (Locals.floorsCleared L
                 <= Locals.floorsCleared (onKill (spend L t) e)
                 <= Locals.floorsCleared L + 1)%Z
             /\ (0 <= SaveData.killsThisFloor (Locals.s (onKill (spend L t) e))
                 <= ENEMY.killsPerFloor)%Z).
  { intros t. destruct (onKill_counts (spend L t) e) as (H1 & H2 & H3).
    rewrite H1, H2. unfold ENEMY.killsPerFloor, spend in *. rsimpl.
    split; [lia |]. split; [destruct (Enemy.isBoss e); lia |].
    apply H3. exact Hk. }
  assert (Hsame : forall L' : Locals.t,
             Locals.kills L' = Locals.kills L ->
             Locals.floorsCleared L' = Locals.floorsCleared L ->
             (0 <= SaveData.killsThisFloor (Locals.s L') <= ENEMY.killsPerFloor)%Z ->
             (Locals.kills L <= Locals.kills L'
              <= Locals.kills L + ENEMY.killsPerFloor)%Z
             /\ (Locals.floorsCleared L <= Locals.floorsCleared L'
                 <= Locals.floorsCleared L + 1)%Z
             /\ (0 <= SaveData.killsThisFloor (Locals.s L')
                 <= ENEMY.killsPerFloor)%Z).
  { intros L' -> -> H. unfold ENEMY.killsPerFloor in *. lia. }
  unfold loopBody. destruct (Enemy.isBoss e) eqn:Hb; cbn [negb].
  - destruct (decide _); [apply Hkill |].
    destruct (decide _); cbn [flowLocals];
      apply Hsame; try reflexivity; rsimpl;
        [exact Hk | unfold ENEMY.killsPerFloor; lia].
  - destruct (decide _);
      [destruct (decide _);
       [apply Hkill | apply Hsame; [reflexivity | reflexivity | exact Hk]] |].
    destruct (decide _) as [Hbulk | _].
    + cbn [flowLocals].
      match goal with
      | |- context [Nat.iter (Z.to_nat ?c) _ ?L0] =>
          pose proof (canBulkOf_le (Locals.timeLeft L) (Enemy.maxHp e / dps)
                        (ENEMY.killsPerFloor
                         - SaveData.killsThisFloor (Locals.s L))) as Hle;
          destruct (iter_onKill_counts (Z.to_nat c) L0 e Hb Hk)
            as (H1 & H2 & H3)
      end.
      rewrite H1, H2. unfold spend. rsimpl. rewrite Z2Nat.id by lia.
      unfold ENEMY.killsPerFloor in *. split; [lia |]. split; [lia | exact H3].
    + destruct (decide _);
        [apply Hkill | apply Hsame; [reflexivity | reflexivity | exact Hk]].
Qed.

Lemma loop_counts (dps : Qc) (safety : nat) (L : Locals.t) :
  (0 <= SaveData.killsThisFloor (Locals.s L) <= ENEMY.killsPerFloor)%Z ->
  (Locals.kills L <= Locals.kills (loop dps safety L)
   <= Locals.kills L + ENEMY.killsPerFloor * Z.of_nat safety)%Z
  /\ (Locals.floorsCleared L <= Locals.floorsCleared (loop dps safety L)
      <= Locals.floorsCleared L + Z.of_nat safety)%Z.
Proof.
  revert L. induction safety as [| n IH]; intros L Hk.
  - cbn [loop]. lia.
  - cbn [loop]. unfold ENEMY.killsPerFloor in *.
    destruct (decide _); [| lia].
    destruct (SaveData.enemy (Locals.s L)) as [e |]; [| lia].
    pose proof (loopBody_counts dps L e Hk) as (H1 & H2 & H3).
    unfold ENEMY.killsPerFloor in *.
    destruct (loopBody dps L e) as [L1 | L1]; cbn [flowLocals] in *.
    + destruct (IH L1 H3) as [H4 H5]. lia.
    + lia.
Qed.

(** X28.  What the guard of the offline loop bounds.  The loop makes at
    most 200000 passes, a pass resolves at most 20 kills and clears at
    most one floor; so, from a state whose kill counter is between 0 and
    20, one call of [simulateOffline] reports at most 4000000 kills and at
    most 200000 floors, however large the damage per second and the
    number of seconds are. *)
Theorem offline_progress_is_bounded
  (now : Z) (s s' : SaveData.t) (seconds : Qc) (r : Report.t) :
  (0 <= SaveData.killsThisFloor s <= ENEMY.killsPerFloor)%Z ->
  simulateOffline now s seconds = Some (s', r) ->
  (0 <= Report.kills r <= 4000000)%Z /\ (0 <= Report.floors r <= 200000)%Z.
Proof.
  intros Hk. unfold simulateOffline. fold (spawnIfAbsent s).
  assert (Hfuel : Z.of_nat safetyLimit = 200000%Z)
    by (unfold safetyLimit; apply Z2Nat.id; lia).
  revert Hfuel. generalize safetyLimit. intros fuel Hfuel.
  destruct (totalDps _) as [dps |]; [| discriminate].
  destruct (decide _); intros [= <- <-]; rsimpl; [lia |].
  assert (Hk0 : (0 <= SaveData.killsThisFloor (spawnIfAbsent s)
                 <= ENEMY.killsPerFloor)%Z)
    by (unfold spawnIfAbsent; destruct (SaveData.enemy s); exact Hk).
  destruct (loop_counts dps fuel (Locals.make (spawnIfAbsent s) seconds 0 0 0) Hk0)
    as [H1 H2].
  rsimpl. unfold ENEMY.killsPerFloor in *. lia.
Qed.

Lemma offline_progress_is_bounded_witness :
  exists s' r,
    simulateOffline 0 veteran_example (Num.z2q 60) = Some (s', r)
    /\ (0 <= Report.kills r <= 4000000)%Z /\ (0 <= Report.floors r <= 200000)%Z.
Proof.
  eexists _, _. split; [vm_compute; reflexivity |].
  eapply (offline_progress_is_bounded 0 veteran_example _ (Num.z2q 60)).
  - vm_compute. split; discriminate.
  - vm_compute. reflexivity.
Defined.
